(** * amp-utils: a shallow embedding of [mlutils/neb.py], [set.py] and
    [search.py]

    The development follows the Python sources function by function.

    - Python floats are modelled by exact rationals ([Q]); rounding is not
      modelled, division by zero raises [ZeroDivisionError] as in Python.
    - Python [str] values are [string]s; comparison is by character code.
    - Exceptions are values of [exn], threaded through the [result] monad.
    - Trajectory files are lists of [Atoms]; a missing file is [None].
    - Calls into ASE, Amp, scikit-learn, numpy and the file system that the
      sources do not define are fields of explicit environment records. *)

From Stdlib Require Import QArith Qabs Qround ZArith List String Ascii Bool Lia Lqa
  Sorted.
From stdpp Require Import base decidable countable gmap strings pretty.
Import ListNotations.

Local Open Scope string_scope.
Local Open Scope list_scope.

(** ** Exceptions and results *)

Inductive exn : Type :=
  | NameError (name : string)
  | UnboundLocalError (name : string)
  | AttributeError (name : string)
  | ZeroDivisionError
  | IndexError
  | ValueError
  | TypeError
  | RuntimeError
  | IOError (path : string)
  | SystemExit.

Inductive result (A : Type) : Type :=
  | Ok (a : A)
  | Raise (e : exn).
Arguments Ok {A} a.
Arguments Raise {A} e.

Definition bind {A B : Type} (r : result A) (k : A -> result B) : result B :=
  match r with
  | Ok a => k a
  | Raise e => Raise e
  end.

Notation "'let*' x ':=' r 'in' k" := (bind r (fun x => k))
  (at level 10, x name, r at level 200, k at level 200).
Notation "'let*' ( x , y ) ':=' r 'in' k" :=
  (bind r (fun p => let '(x, y) := p in k))
  (at level 10, x name, y name, r at level 200, k at level 200).

Fixpoint mapM {A B : Type} (f : A -> result B) (l : list A) : result (list B) :=
  match l with
  | [] => Ok []
  | a :: l' => let* b := f a in let* bs := mapM f l' in Ok (b :: bs)
  end.

(** ** Python strings and lists *)

(** [s.lower()] on ASCII text. *)
Definition lower_ascii (c : ascii) : ascii :=
  let n := nat_of_ascii c in
  if (65 <=? n)%nat && (n <=? 90)%nat then ascii_of_nat (n + 32) else c.

Fixpoint str_lower (s : string) : string :=
  match s with
  | EmptyString => EmptyString
  | String c s' => String (lower_ascii c) (str_lower s')
  end.

(** [sub in s]. *)
Fixpoint py_in (sub s : string) : bool :=
  String.prefix sub s ||
  match s with
  | EmptyString => false
  | String _ s' => py_in sub s'
  end.

Definition endswith (s suffix : string) : bool :=
  let n := String.length s in
  let m := String.length suffix in
  (m <=? n)%nat && String.eqb (String.substring (n - m) m s) suffix.

(** [l[1:-1]] *)
Definition slice_1_m1 {A : Type} (l : list A) : list A :=
  removelast (tl l).

(** [l[0:n]] for a non-negative [n]. *)
Definition slice_0 {A : Type} (n : nat) (l : list A) : list A := firstn n l.

(** [l[-n:]] for a positive [n]: the last [n] elements (all of [l] when it
    is shorter). *)
Definition slice_last {A : Type} (n : nat) (l : list A) : list A :=
  skipn (List.length l - n) l.

(** [l[i]] for a non-negative index. *)
Definition py_index {A : Type} (l : list A) (i : nat) : result A :=
  match nth_error l i with
  | Some a => Ok a
  | None => Raise IndexError
  end.

(** [l.remove(x)]: drops the first occurrence. *)
Fixpoint list_remove (x : string) (l : list string) : list string :=
  match l with
  | [] => []
  | y :: l' => if String.eqb x y then l' else y :: list_remove x l'
  end.

Definition list_mem (x : string) (l : list string) : bool :=
  existsb (String.eqb x) l.

(** [sorted(l)] on strings: insertion sort by character codes. *)
Fixpoint insert_sorted (x : string) (l : list string) : list string :=
  match l with
  | [] => [x]
  | y :: l' => if String.leb x y then x :: l else y :: insert_sorted x l'
  end.

Fixpoint sorted (l : list string) : list string :=
  match l with
  | [] => []
  | x :: l' => insert_sorted x (sorted l')
  end.

(** ** File system *)

(** [glob.glob] and [os.path.isfile], as the sources call them. *)
Record filesystem : Type := {
  glob_glob : string -> list string;
  isfile : string -> bool
}.

(** A flat working directory holding the regular files [names].  Only the
    patterns the sources use are interpreted: a leading star followed by a
    literal suffix; hidden files never match. *)
Definition hidden (name : string) : bool := String.prefix "." name.

Definition flat_dir (names : list string) : filesystem := {|
  glob_glob := fun pat =>
    match pat with
    | String "*" suffix =>
        List.filter (fun n => endswith n suffix && negb (hidden n)) names
    | _ => List.filter (String.eqb pat) names
    end;
  isfile := fun n => list_mem n names
|}.

(** ** [set.py] *)

(** The list comes out of a Python set: which names it holds is fixed,
    their order is not, and nothing below depends on it. *)
Definition common_calculations (list1 list2 : list string) : list string :=
  elements ((list_to_set list1 : gset string) ∩ list_to_set list2).

Definition trained_calculations (fs : filesystem) (path : string)
  : list string :=
  let listing := glob_glob fs (path +:+ "/*.amp") in
  let listing := List.filter (fun element => negb (py_in "initial" element))
                             listing in
  let failed := List.filter (fun element => py_in "untrained" element)
                            listing in
  let trained := common_calculations listing failed in
  trained.

(** ** [check_files] *)

(** The pair returned is [(nebfile, digit)]; [None] in the first component
    stands for Python's [False], in the second for [None]. *)
Definition check_files (fs : filesystem)
  : result (option string * option string) :=
  let logfiles := sorted (glob_glob fs "*.txt") in
  let logfiles := if list_mem "amp-log.txt" logfiles
                  then list_remove "amp-log.txt" logfiles else logfiles in
  let logfiles := if list_mem "out.txt" logfiles
                  then list_remove "out.txt" logfiles else logfiles in
  if negb (List.length logfiles =? 0)%nat then
    match List.last logfiles EmptyString with
    | EmptyString => Raise IndexError
    | String c _ =>
        let digit := String c EmptyString in
        let nebfile := "neb_" +:+ digit +:+ ".traj" in
        if isfile fs nebfile then Ok (Some nebfile, Some digit)
        else Ok (None, Some digit)
    end
  else Ok (None, None).

(** ** Atoms, calculators and trajectory files *)

Definition vec3 : Type := (Q * Q * Q)%type.

(** A calculator maps a geometry to its potential energy and per-atom
    forces; [class_name] is [calc.__class__.__name__]. *)
Record calculator : Type := {
  class_name : string;
  calculate : list vec3 -> Q * list vec3
}.

(** An [ase.Atoms] object: a geometry with the calculator attached to it. *)
Record Atoms : Type := mkAtoms {
  positions : list vec3;
  calc_of : option calculator
}.

Definition set_calculator (c : calculator) (a : Atoms) : Atoms :=
  mkAtoms (positions a) (Some c).

Definition get_potential_energy (a : Atoms) : result Q :=
  match calc_of a with
  | Some c => Ok (fst (calculate c (positions a)))
  | None => Raise RuntimeError
  end.

Definition get_forces (a : Atoms) : result (list vec3) :=
  match calc_of a with
  | Some c => Ok (snd (calculate c (positions a)))
  | None => Raise RuntimeError
  end.

(** What a trajectory file keeps of an image: the geometry and the results
    of its calculator, frozen in a single-point calculator. *)
Definition single_point (r : Q * list vec3) : calculator :=
  {| class_name := "SinglePointCalculator"; calculate := fun _ => r |}.

Definition traj_write (a : Atoms) : Atoms :=
  match calc_of a with
  | Some c => mkAtoms (positions a) (Some (single_point (calculate c (positions a))))
  | None => a
  end.

(** Lines of the log file: the format string of the source and its
    arguments. *)
Inductive log_arg : Type :=
  | ArgZ (z : Z)
  | ArgQ (q : Q)
  | ArgS (s : string).

Record log_entry : Type := LogLine { template : string; args : list log_arg }.

Definition ArgN (n : nat) : log_arg := ArgZ (Z.of_nat n).

(** The files of the working directory that the module reads and writes.
    [optimizer_calls] is not a file: it records, in order, the trajectory
    name and the [fmax] of every optimizer run. *)
Record files : Type := mkFiles {
  training_traj : option (list Atoms);
  calculator_traj : option (list Atoms);
  input_traj : option (list Atoms);
  images_from_neb_traj : option (list Atoms);
  neb_trajs : list (string * list Atoms);
  amp_files : list (string * calculator);
  gpaw_calc : option calculator;
  gpaw_script : bool;
  optimizer_calls : list (string * option Q);
  logfile : list log_entry
}.

Definition with_training (v : option (list Atoms)) (w : files) : files :=
  mkFiles v (calculator_traj w) (input_traj w) (images_from_neb_traj w)
          (neb_trajs w) (amp_files w) (gpaw_calc w) (gpaw_script w)
          (optimizer_calls w) (logfile w) .
Definition with_calculator (v : option (list Atoms)) (w : files) : files :=
  mkFiles (training_traj w) v (input_traj w) (images_from_neb_traj w)
          (neb_trajs w) (amp_files w) (gpaw_calc w) (gpaw_script w)
          (optimizer_calls w) (logfile w) .
Definition with_input (v : option (list Atoms)) (w : files) : files :=
  mkFiles (training_traj w) (calculator_traj w) v (images_from_neb_traj w)
          (neb_trajs w) (amp_files w) (gpaw_calc w) (gpaw_script w)
          (optimizer_calls w) (logfile w) .
Definition with_images_from_neb (v : option (list Atoms)) (w : files) : files :=
  mkFiles (training_traj w) (calculator_traj w) (input_traj w) v (neb_trajs w)
          (amp_files w) (gpaw_calc w) (gpaw_script w) (optimizer_calls w)
          (logfile w) .
Definition with_neb_trajs (v : list (string * list Atoms))
    (w : files) : files :=
  mkFiles (training_traj w) (calculator_traj w) (input_traj w)
          (images_from_neb_traj w) v (amp_files w) (gpaw_calc w)
          (gpaw_script w) (optimizer_calls w) (logfile w) .
Definition with_amp_files (v : list (string * calculator))
    (w : files) : files :=
  mkFiles (training_traj w) (calculator_traj w) (input_traj w)
          (images_from_neb_traj w) (neb_trajs w) v (gpaw_calc w)
          (gpaw_script w) (optimizer_calls w) (logfile w) .
Definition with_gpaw_script (v : bool) (w : files) : files :=
  mkFiles (training_traj w) (calculator_traj w) (input_traj w)
          (images_from_neb_traj w) (neb_trajs w) (amp_files w) (gpaw_calc w) v
          (optimizer_calls w) (logfile w) .
Definition with_optimizer_calls (v : list (string * option Q))
    (w : files) : files :=
  mkFiles (training_traj w) (calculator_traj w) (input_traj w)
          (images_from_neb_traj w) (neb_trajs w) (amp_files w) (gpaw_calc w)
          (gpaw_script w) v (logfile w) .
Definition with_logfile (v : list log_entry) (w : files) : files :=
  mkFiles (training_traj w) (calculator_traj w) (input_traj w)
          (images_from_neb_traj w) (neb_trajs w) (amp_files w) (gpaw_calc w)
          (gpaw_script w) (optimizer_calls w) v.

(** [self.logfile.write(template % args)] *)
Definition log_write (t : string) (a : list log_arg) (w : files) : files :=
  with_logfile (logfile w ++ [LogLine t a]) w.

(** [Trajectory(path, mode='r')] and [list(...)] *)
Definition traj_read (path : string) (f : option (list Atoms))
  : result (list Atoms) :=
  match f with
  | Some l => Ok l
  | None => Raise (IOError path)
  end.

(** [Trajectory(path, mode='a')] followed by writes: appends, creating the
    file when it is missing. *)
Definition traj_append (f : option (list Atoms)) (l : list Atoms)
  : option (list Atoms) :=
  match f with
  | Some old => Some (old ++ map traj_write l)
  | None => Some (map traj_write l)
  end.

Fixpoint assoc {A : Type} (k : string) (l : list (string * A)) : option A :=
  match l with
  | [] => None
  | (k', v) :: l' => if String.eqb k k' then Some v else assoc k l'
  end.

(** ** The collaborators outside the repository *)

Record collaborators : Type := {
  (** [NEB(images).interpolate()], the images afterwards *)
  neb_interpolate : list Atoms -> list Atoms;
  (** [NEB(images).get_forces()], one row per atom *)
  neb_get_forces : list Atoms -> result (list vec3);
  (** [np.sqrt] *)
  np_sqrt : Q -> Q;
  (** [Optimizer(neb, trajectory=...).run(fmax=..., steps=...)]: the images
      the optimizer appends to its trajectory, for the optimizer class
      named by the first argument *)
  optimizer_run : string -> list Atoms -> option Q -> option Z
                  -> result (list Atoms);
  (** [calc.train(trainingset)] on a copy of the model carrying the label:
      the model saved as [<label>.amp] *)
  amp_train : string -> list Atoms -> result calculator
}.

(** ** Module-level helpers of [neb.py] *)

(** [clean_dir]: removes Amp's scratch data (not modelled) and logs. *)
Definition clean_dir (logfile : bool) (w : files) : files :=
  if logfile then log_write "Cleaning up...\n" [] w else w.

(** [clean_train_data]: removes [*.ampdb], which the model does not keep. *)
Definition clean_train_data (w : files) : files := w.

(** [write_gpaw_file]: copies [gpaw.calc] into the script. *)
Definition write_gpaw_file (w : files) : result files :=
  match gpaw_calc w with
  | Some _ => Ok (with_gpaw_script true w)
  | None => Raise (IOError "gpaw.calc")
  end.

(** [get_fmax] *)
Definition sq_norm (v : vec3) : Q :=
  let '(x, y, z) := v in (x * x + y * y + z * z)%Q.

Definition Qltb (x y : Q) : bool := negb (Qle_bool y x).
Definition Qgtb (x y : Q) : bool := Qltb y x.

Definition Qmaxb (x y : Q) : Q := if Qltb x y then y else x.

(** [a.max()] of a one-dimensional array *)
Definition np_max (l : list Q) : result Q :=
  match l with
  | [] => Raise ValueError
  | x :: l' => Ok (fold_left Qmaxb l' x)
  end.

Definition get_fmax (env : collaborators) (images : list Atoms) : result Q :=
  let* forces := neb_get_forces env images in
  let* m := np_max (map sq_norm forces) in
  Ok (np_sqrt env m).

(** ** [sklearn.metrics.mean_absolute_error] *)

Definition Qsum (l : list Q) : Q := fold_right Qplus 0%Q l.

Fixpoint abs_diffs (y_true y_pred : list Q) : list Q :=
  match y_true, y_pred with
  | t :: ts, p :: ps => Qabs (p - t)%Q :: abs_diffs ts ps
  | _, _ => []
  end.

Definition np_average (l : list Q) : Q :=
  (Qsum l / inject_Z (Z.of_nat (List.length l)))%Q.

(** One output per sample. *)
Definition mean_absolute_error (y_true y_pred : list Q) : result Q :=
  if negb (List.length y_true =? List.length y_pred)%nat then Raise ValueError
  else if (List.length y_true =? 0)%nat then Raise ValueError
  else Ok (np_average (abs_diffs y_true y_pred)).

(** Several outputs per sample: the errors are averaged over the samples
    for each output, then uniformly over the outputs. *)
Definition column (j : nat) (rows : list (list Q)) : list Q :=
  map (fun r => nth j r 0%Q) rows.

Definition rectangular (m : nat) (rows : list (list Q)) : bool :=
  forallb (fun r => (List.length r =? m)%nat) rows.

Definition mean_absolute_error_multi (y_true y_pred : list (list Q))
  : result Q :=
  match y_true with
  | [] => Raise ValueError
  | r :: _ =>
      let m := List.length r in
      if negb (List.length y_true =? List.length y_pred)%nat then Raise ValueError
      else if (m =? 0)%nat then Raise ValueError
      else if negb (rectangular m y_true && rectangular m y_pred)
      then Raise ValueError
      else
        let output_errors :=
          map (fun j => np_average (abs_diffs (column j y_true) (column j y_pred)))
              (seq 0 m) in
        Ok (np_average output_errors)
  end.

(** ** The [accelerate_neb] object *)

(** Attributes fixed once [__init__] and [initialize] have run. *)
Record settings : Type := {
  maxiter : Z;
  tolerance : Q;
  fmax : Q;
  ifmax : Q;
  step : option Q;
  maxrunsteps : option Z;
  previous_nebfile : bool;
  metric : string;
  calc : option calculator;
  cores : option Z;
  neb_optimizer : string;
  calc_name : string;
  intermediates : nat
}.

(** [self.nreadimg] *)
Definition nreadimg (cfg : settings) : nat := intermediates cfg + 2.

(** Attributes that change while the object runs.  [iteration] is [None]
    until it is first assigned; [achieved] is [None] until assigned, and
    [Some None] when [cross_validate] returned Python's [None]. *)
Record run_state : Type := mkState {
  initialized : bool;
  trained : bool;
  final_fmax : bool;
  iteration : option Z;
  achieved : option (option (Q * Q));
  training_set : list Atoms;
  neb_images : list Atoms;
  traj : option string
}.

Definition with_iteration (v : Z) (s : run_state) : run_state :=
  mkState (initialized s) (trained s) (final_fmax s) (Some v) (achieved s)
          (training_set s) (neb_images s) (traj s).
Definition with_achieved (v : option (Q * Q)) (s : run_state) : run_state :=
  mkState (initialized s) (trained s) (final_fmax s) (iteration s) (Some v)
          (training_set s) (neb_images s) (traj s).
Definition with_final_fmax (v : bool) (s : run_state) : run_state :=
  mkState (initialized s) (trained s) v (iteration s) (achieved s)
          (training_set s) (neb_images s) (traj s).
Definition with_training_set (v : list Atoms) (s : run_state) : run_state :=
  mkState (initialized s) (trained s) (final_fmax s) (iteration s) (achieved s)
          v (neb_images s) (traj s).
Definition with_neb_images (v : list Atoms) (s : run_state) : run_state :=
  mkState (initialized s) (trained s) (final_fmax s) (iteration s) (achieved s)
          (training_set s) v (traj s).
Definition with_traj (v : string) (s : run_state) : run_state :=
  mkState (initialized s) (trained s) (final_fmax s) (iteration s) (achieved s)
          (training_set s) (neb_images s) (Some v).
Definition with_trained (v : bool) (s : run_state) : run_state :=
  mkState (initialized s) v (final_fmax s) (iteration s) (achieved s)
          (training_set s) (neb_images s) (traj s).
Definition with_initialized (v : bool) (s : run_state) : run_state :=
  mkState v (trained s) (final_fmax s) (iteration s) (achieved s)
          (training_set s) (neb_images s) (traj s).

(** ** [run_gpaw] and [set_calculators] *)

(** [run_gpaw]: writes [input.traj] and runs the generated script in an
    external process, which evaluates every image with the calculator of
    [gpaw.calc] and writes [calculator.traj].  The process is taken to run
    to completion. *)
Definition run_gpaw (w : files) (images : list Atoms) : result files :=
  let w := with_input (Some (map traj_write images)) w in
  match gpaw_calc w with
  | Some g =>
      Ok (with_calculator
            (Some (map (fun a => traj_write (set_calculator g a)) images)) w)
  | None => Raise (IOError "gpaw.calc")
  end.

(** [set_calculators].  The source sets the calculator on the very objects
    of [images]; the list returned here holds the images as that leaves
    them, and callers that go on using their own list use this one.
    [label] is left out: no caller passes it. *)
Definition set_calculators (w : files) (images : list Atoms)
    (calc : option calculator) (calc_name : string) (logfile : bool)
    (write_training_set : bool) (cross_validate : bool)
  : result (files * list Atoms) :=
  let w := if write_training_set
           then match training_traj w with
                | Some _ => w
                | None => with_training (Some []) w
                end
           else w in
  let* (w, images) :=
    if negb (String.eqb calc_name "GPAW") then
      let w := with_calculator (Some []) w in
      let images := if cross_validate then slice_1_m1 images else images in
      match images, calc with
      | [], _ => Ok (w, images)
      | _ :: _, None => Raise RuntimeError
      | _ :: _, Some c =>
          let images := map (set_calculator c) images in
          Ok (with_calculator (Some (map traj_write images)) w, images)
      end
    else
      let* w := write_gpaw_file w in
      if cross_validate then
        let intermediates := slice_1_m1 images in
        let* w := run_gpaw w intermediates in Ok (w, images)
      else
        let* w := run_gpaw w images in Ok (w, images) in
  let* w :=
    if write_training_set then
      let* to_dump := traj_read "calculator.traj" (calculator_traj w) in
      Ok (with_training (traj_append (training_traj w) to_dump) w)
    else Ok w in
  let w := if logfile
           then log_write "Calculator set for %s images\n"
                          [ArgN (List.length images)] w
           else w in
  Ok (w, images).

(** ** [cross_validate] *)

(** [forces.sum(axis=1)]: one number per atom. *)
Definition sum_axis1 (forces : list vec3) : list Q :=
  map (fun v : vec3 => let '(x, y, z) := v in (x + y + z)%Q) forces.

Definition energy_and_forces (image : Atoms) : result (Q * list Q) :=
  let* energy := get_potential_energy image in
  let* forces := get_forces image in
  Ok (energy, sum_axis1 forces).

(** [calc] is the parameter of the source, which its body never reads. *)
Definition cross_validate (env : collaborators) (cfg : settings)
    (st : run_state) (w : files) (neb_images : list Atoms)
    (calc : option calculator) (amp_calc : calculator) (metric : string)
  : result (files * option (Q * Q)) :=
  let w := log_write "Length of NEB images %s \n"
                     [ArgN (List.length neb_images)] w in
  let calc_name' := class_name amp_calc in
  let* (w, amp_images) :=
    set_calculators w neb_images (Some amp_calc) calc_name' false false false in
  let* amp := mapM energy_and_forces amp_images in
  let amp_energies := map fst amp in
  let amp_forces := map snd amp in
  let* (w, _) :=
    set_calculators w amp_images (Some amp_calc) (calc_name cfg)
                    false false true in
  let* first := py_index (training_set st) 0 in
  let dft_images := [first] in
  let* dft_intermediates :=
    traj_read "calculator.traj" (calculator_traj w) in
  let dft_images := dft_images ++ dft_intermediates in
  let* last := py_index (training_set st) (List.length dft_images) in
  let dft_images := dft_images ++ [last] in
  let* dft := mapM energy_and_forces dft_images in
  let dft_energies := map fst dft in
  let dft_forces := map snd dft in
  let w := with_images_from_neb (Some (map traj_write dft_images)) w in
  if String.eqb metric "fmax" then
    let* f_metric := get_fmax env dft_images in
    let e_metric := f_metric in
    let w := log_write "fmax achieved is %s, tolerance requested is %s\n"
                       [ArgQ f_metric; ArgQ (tolerance cfg)] w in
    Ok (w, Some (e_metric, f_metric))
  else if String.eqb (str_lower metric) "mae" then
    let* e_metric := mean_absolute_error dft_energies amp_energies in
    let* f_metric := mean_absolute_error_multi dft_forces amp_forces in
    let w := log_write
               "Energy and Force MAE achieved are %s and %s, tolerance requested is %s\n"
               [ArgQ e_metric; ArgQ f_metric; ArgQ (tolerance cfg)] w in
    Ok (w, Some (e_metric, f_metric))
  else Ok (w, None).

(** ** [train] *)

(** [Amp.load(path)] *)
Definition amp_load (w : files) (path : string) : result calculator :=
  match assoc path (amp_files w) with
  | Some c => Ok c
  | None => Raise (IOError path)
  end.

(** [train]: the model is trained on a copy carrying the label, which
    saves it as [<label>.amp]; an exception of the trainer is raised again
    unchanged. *)
Definition train (env : collaborators) (w : files) (trainingset : list Atoms)
    (label : string) : result files :=
  let* model := amp_train env label trainingset in
  Ok (with_amp_files ((label +:+ ".amp", model) :: amp_files w) w).

(** ** [run_neb] *)

Definition get_iteration (st : run_state) : result Z :=
  match iteration st with
  | Some i => Ok i
  | None => Raise (AttributeError "iteration")
  end.

(** The images returned are [Some] on the interpolation path and [None]
    (Python's [None]) otherwise. *)
Definition run_neb (env : collaborators) (cfg : settings) (st : run_state)
    (w : files) (images : list Atoms) (interpolate : bool) (fmax : option Q)
  : result (files * run_state * option (list Atoms)) :=
  if interpolate then
    let images := neb_interpolate env images in
    let* (w, images) :=
      set_calculators w images (calc cfg) (calc_name cfg) false true false in
    Ok (w, st, Some images)
  else
    let* i := get_iteration st in
    let traj := "neb_" +:+ pretty i +:+ ".traj" in
    let st := with_traj traj st in
    let* qn :=
      if String.eqb (str_lower (neb_optimizer cfg)) "bfgs" then Ok "BFGS"
      else if String.eqb (str_lower (neb_optimizer cfg)) "fire" then Ok "FIRE"
      else Raise (UnboundLocalError "qn") in
    let* frames := optimizer_run env qn images fmax (maxrunsteps cfg) in
    let w := with_neb_trajs ((traj, map traj_write frames) :: neb_trajs w) w in
    let w := with_optimizer_calls (optimizer_calls w ++ [(traj, fmax)]) w in
    let w := clean_dir true w in
    Ok (w, st, None).

(** ** [accelerate] *)

(** [read(path, index=slice(...))] on the trajectory of an optimizer run *)
Definition neb_traj_read (w : files) (path : string) : result (list Atoms) :=
  match assoc path (neb_trajs w) with
  | Some l => Ok l
  | None => Raise (IOError path)
  end.

(** [self.achieved[0]] and [self.achieved[1]] *)
Definition get_achieved (st : run_state) : result (Q * Q) :=
  match achieved st with
  | None => Raise (AttributeError "achieved")
  | Some None => Raise TypeError
  | Some (Some a) => Ok a
  end.

(** The block every retraining branch starts with: the interior images of
    [images_from_neb.traj] are appended to [training.traj]; without the
    file the run logs [missing] and exits.  [None] stands for the exit. *)
Definition add_images_from_neb (missing : string) (w : files)
  : files * option nat :=
  match images_from_neb_traj w with
  | Some l =>
      let ini_neb_images := slice_1_m1 l in
      (with_training (traj_append (training_traj w) ini_neb_images) w,
       Some (List.length ini_neb_images))
  | None =>
      let w := log_write missing [] w in
      let w := log_write "Aborting...\n" [] w in
      (w, None)
  end.

(** Training on the enlarged set and choice of the band to start from. *)
Definition retrain (env : collaborators) (cfg : settings) (st : run_state)
    (w : files) (i : Z) : result (files * run_state * calculator) :=
  let* ts := traj_read "training.traj" (training_traj w) in
  let st := with_training_set ts st in
  let w := log_write "Length of training set is now %s.\n"
                     [ArgN (List.length ts)] w in
  let label := pretty i in
  let* w := train env w (training_set st) label in
  let w := clean_train_data w in
  let* newcalc := amp_load w (label +:+ ".amp") in
  let* images :=
    if negb (previous_nebfile cfg) then
      let* l := traj_read "training.traj" (training_traj w) in
      Ok (slice_0 (nreadimg cfg) l)
    else
      let nebfile := "neb_" +:+ pretty (i - 1)%Z +:+ ".traj" in
      let* l := neb_traj_read w nebfile in
      Ok (slice_last (nreadimg cfg) l) in
  Ok (w, with_neb_images images st, newcalc).

(** The band run and its cross-validation. *)
Definition band_and_validate (env : collaborators) (cfg : settings)
    (st : run_state) (w : files) (label : string) (images : list Atoms)
    (fmax' : Q) : result (files * run_state) :=
  let* (ws, _) := run_neb env cfg st w images false (Some fmax') in
  let '(w, st) := ws in
  let w := clean_dir true w in
  let* path := match traj st with
               | Some p => Ok p
               | None => Raise (AttributeError "traj")
               end in
  let* l := neb_traj_read w path in
  let new_neb_images := slice_last (nreadimg cfg) l in
  let* newcalc := amp_load w (label +:+ ".amp") in
  let* (w, a) :=
    cross_validate env cfg st w new_neb_images (calc cfg) newcalc
                   (metric cfg) in
  let st := with_achieved a st in
  let w := clean_dir true w in
  Ok (w, st).

(** The test that closes a retraining branch. *)
Definition update_final_fmax (cfg : settings) (st : run_state) (fmax' : Q)
  : result run_state :=
  let* a := get_achieved st in
  if Qltb (fst a) (tolerance cfg) && Qltb (snd a) (tolerance cfg)
     && Qle_bool fmax' (fmax cfg)
  then Ok (with_final_fmax true st)
  else Ok st.

(** A retraining branch from the reopening of the training set on. *)
Definition retrain_and_validate (env : collaborators) (cfg : settings)
    (st : run_state) (w : files) (i : Z) (fmax' : Q)
  : result (files * run_state) :=
  let* (ws, newcalc) := retrain env cfg st w i in
  let '(w, st) := ws in
  let calc_name' := class_name newcalc in
  let* (w, images) :=
    set_calculators w (neb_images st) (Some newcalc) calc_name'
                    true false false in
  let st := with_neb_images images st in
  let* (w, st) := band_and_validate env cfg st w (pretty i) images fmax' in
  let* st := update_final_fmax cfg st fmax' in
  Ok (w, st).

Inductive status : Type := EXHAUSTED | CONVERGED.

(** What one pass through the body of [while True] leaves: the loop goes
    on, breaks, exits through [exit()], or an exception escapes. *)
Inductive outcome : Type :=
  | Continue (st : run_state) (w : files) (fmax' : Q)
  | Break (r : status) (st : run_state) (w : files) (fmax' : Q)
  | Exit (st : run_state) (w : files)
  | Raised (e : exn).

Definition lift (r : result (files * run_state)) (fmax' : Q) : outcome :=
  match r with
  | Ok (w, st) => Continue st w fmax'
  | Raise e => Raised e
  end.

(** [step], as the method binds it before the loop *)
Definition get_step (cfg : settings) : Q :=
  match step cfg with
  | None => 1%Q
  | Some s => s
  end.

(** The first block of [accelerate]: iteration 0, run when the object is
    initialized and not yet trained. *)
Definition bootstrap (env : collaborators) (cfg : settings) (st : run_state)
    (w : files) : result (files * run_state) :=
  let fmax' := ifmax cfg in
  let st := with_iteration 0 st in
  let* ts := traj_read "training.traj" (training_traj w) in
  let st := with_training_set ts st in
  let w := log_write "Iteration %s \n" [ArgZ 0] w in
  let w := log_write "Number images to slice from NEB Trajectory is %s. \n"
                     [ArgZ (- Z.of_nat (intermediates cfg + 2))] w in
  let w := log_write "New training set lenght is %s. \n"
                     [ArgN (List.length ts)] w in
  let w := log_write "Starting Training, sit tight... \n" [] w in
  let label := pretty 0%Z in
  let* w := train env w (training_set st) label in
  let w := clean_train_data w in
  let w := log_write "Training process finished. \n" [] w in
  let w := log_write "Step = %s, ifmax = %s, fmax = %s \n"
                     [ArgQ (get_step cfg); ArgQ fmax'; ArgQ (fmax cfg)] w in
  let w := log_write
             "Starting ML-NEB calculation... Go, and grab a cup of coffee :) \n"
             [] w in
  let* newcalc := amp_load w (label +:+ ".amp") in
  let calc_name' := class_name newcalc in
  let* l := traj_read "training.traj" (training_traj w) in
  let st := with_neb_images (slice_0 (nreadimg cfg) l) st in
  let* (w, images) :=
    set_calculators w (neb_images st) (Some newcalc) calc_name'
                    true false false in
  let st := with_neb_images images st in
  let* (ws, _) := run_neb env cfg st w (neb_images st) false (Some fmax') in
  let '(w, st) := ws in
  let w := clean_dir true w in
  let w := log_write "ML-NEB calculation finished... \o/ \n" [] w in
  let* path := match traj st with
               | Some p => Ok p
               | None => Raise (AttributeError "traj")
               end in
  let* l := neb_traj_read w path in
  let ini_neb_images := slice_last (nreadimg cfg) l in
  let w := log_write "New guessed ML-MEP was read from %s \n" [ArgS path] w in
  let* newcalc := amp_load w (label +:+ ".amp") in
  let* (w, a) :=
    cross_validate env cfg st w ini_neb_images (calc cfg) newcalc
                   (metric cfg) in
  let st := with_achieved a st in
  let w := clean_dir true w in
  Ok (w, st).

(** The branch [elif fmax < self.fmax]: it reads [self.calc_write], an
    attribute that is assigned nowhere. *)
Definition retrain_at_target (env : collaborators) (cfg : settings)
    (st : run_state) (w : files) (i : Z) : result (files * run_state) :=
  let* (ws, newcalc) := retrain env cfg st w i in
  Raise (AttributeError "calc_write").

(** The block each retraining branch opens with, and the branch after
    it: the images are added, or the run exits; then the model is trained
    again and the band run and validated.  [at_target] selects the branch
    [elif fmax < self.fmax]. *)
Definition consume_and_retrain (env : collaborators) (cfg : settings)
    (st : run_state) (w : files) (i : Z) (fmax' : Q) (at_target : bool)
    (missing added : string) : outcome :=
  match add_images_from_neb missing w with
  | (w, None) => Exit st w
  | (w, Some n) =>
      let w := log_write added [ArgN n] w in
      if at_target
      then lift (retrain_at_target env cfg st w i) (fmax cfg)
      else lift (retrain_and_validate env cfg st w i fmax') fmax'
  end.

(** One pass through the body of [while True]; [fmax'] is the local
    variable [fmax]. *)
Definition loop_body (env : collaborators) (cfg : settings) (st : run_state)
    (w : files) (fmax' : Q) : outcome :=
  match get_iteration st with
  | Raise e => Raised e
  | Ok i0 =>
    let i := (i0 + 1)%Z in
    let st := with_iteration i st in
    let w := log_write "Iteration %s \n" [ArgZ i] w in
    if Qeq_bool (get_step cfg) 0 then Raised ZeroDivisionError else
    let fmax' := (fmax' / get_step cfg)%Q in
    let '(fmax', w) :=
      if Qltb fmax' (fmax cfg) || Qeq_bool fmax' (fmax cfg)
      then (fmax cfg, w)
      else (fmax', log_write "Step = %s, new ifmax = %s \n"
                             [ArgQ (get_step cfg); ArgQ fmax'] w) in
    match get_achieved st with
    | Raise e => Raised e
    | Ok a =>
      let previous := "neb_" +:+ pretty (i - 1)%Z +:+ ".traj" in
      if Qgtb (fst a) (tolerance cfg) || Qgtb (snd a) (tolerance cfg) then
        if (i - 1 =? 0)%Z then
          let w := log_write "INITIAL\n" [] w in
          consume_and_retrain env cfg st w i fmax' false
            "images_from_neb.traj does not exist\n"
            "I added %s more images to the trainingset \n"
        else
          let w := log_write "Previous NEB Trajectory read from %s\n"
                             [ArgS previous] w in
          consume_and_retrain env cfg st w i fmax' false
            "images_from_neb.traj does notexist\n"
            "I added %s more images to the trainingset\n"
      else if (i =? maxiter cfg)%Z then
        Break EXHAUSTED st
              (log_write "Maximum number of iterations reached" [] w) fmax'
      else if Qeq_bool fmax' (fmax cfg) && final_fmax st then
        let w := log_write "\n" [] w in
        let w := log_write "Calculation converged!\n" [] w in
        let w := log_write "     fmax = %s.\n" [ArgQ fmax'] w in
        let w := log_write "tolerance = %s.\n" [ArgQ (tolerance cfg)] w in
        let w := log_write " Energy error= %s.\n" [ArgQ (fst a)] w in
        let w := log_write " Forces error= %s.\n" [ArgQ (snd a)] w in
        Break CONVERGED st w fmax'
      else
        let w := log_write "Iteration %s \n" [ArgZ i] w in
        let w := log_write "Trajectory to be added %s \n" [ArgS previous] w in
        consume_and_retrain env cfg st w i fmax' (Qltb fmax' (fmax cfg))
          "images_from_neb.traj does not exist\n"
          "I added %s more images to the training set\n"
    end
  end.

(** [n] passes through the loop. *)
Fixpoint accelerate_loop (env : collaborators) (cfg : settings) (n : nat)
    (st : run_state) (w : files) (fmax' : Q) : outcome :=
  match n with
  | O => Continue st w fmax'
  | S n' =>
      match loop_body env cfg st w fmax' with
      | Continue st w fmax' => accelerate_loop env cfg n' st w fmax'
      | o => o
      end
  end.

(** [accelerate], cut after [n] passes through its loop. *)
Definition accelerate (env : collaborators) (cfg : settings) (n : nat)
    (st : run_state) (w : files) : outcome :=
  if initialized st && negb (trained st) then
    match bootstrap env cfg st w with
    | Ok (w, st) => accelerate_loop env cfg n st w (ifmax cfg)
    | Raise e => Raised e
    end
  else accelerate_loop env cfg n st w (ifmax cfg).

(** ** A small concrete world

    One atom per image, moving along the first axis; it is used to run the
    definitions on explicit inputs. *)

Definition atom_at (x : Q) : list vec3 := [(x, 0, 0)%Q].

Definition image_at (x : Q) : Atoms := mkAtoms (atom_at x) None.

(** An image as a trajectory file holds it, with energy [e] and force [f]. *)
Definition labelled (x e : Q) (f : vec3) : Atoms :=
  mkAtoms (atom_at x) (Some (single_point (e, [f]))).

Definition x_of (p : list vec3) : Q :=
  match p with
  | (x, _, _) :: _ => x
  | [] => 0%Q
  end.

(** A calculator that returns the same energy and force everywhere. *)
Definition flat_calc (name : string) (e : Q) (f : vec3) : calculator :=
  {| class_name := name; calculate := fun _ => (e, [f]) |}.

(** Square root to six decimal places. *)
Definition sqrt6 (q : Q) : Q :=
  (Z.sqrt (Qfloor (q * inject_Z (10 ^ 12))) # 1000000)%Q.

(** Collaborators for these runs: interpolation and the optimizer leave the
    band where it is, the band forces are the forces on the interior
    images, and training under a label gives the model [model label]. *)
Definition toy_env (model : string -> calculator) : collaborators := {|
  neb_interpolate := fun images => images;
  neb_get_forces := fun images =>
    let* forces := mapM get_forces (slice_1_m1 images) in
    Ok (concat forces);
  np_sqrt := sqrt6;
  optimizer_run := fun _ images _ _ => Ok images;
  amp_train := fun label _ => Ok (model label)
|}.

Definition toy_settings (maxiter : Z) (tolerance fmax ifmax : Q)
    (step : option Q) (metric : string) (calc : option calculator)
    (neb_optimizer : string) : settings := {|
  maxiter := maxiter;
  tolerance := tolerance;
  fmax := fmax;
  ifmax := ifmax;
  step := step;
  maxrunsteps := None;
  previous_nebfile := false;
  metric := metric;
  calc := calc;
  cores := None;
  neb_optimizer := neb_optimizer;
  calc_name := match calc with
               | Some c => class_name c
               | None => "GPAW"
               end;
  intermediates := 1
|}.

(** The object after [__init__] and a first [initialize]. *)
Definition initialized_state : run_state :=
  mkState true false false None None [] [] None.

(** A working directory holding the training set [ts] only. *)
Definition toy_files (ts : list Atoms) (gpaw : option calculator) : files :=
  mkFiles (Some ts) None None None [] [] gpaw false [] [].

Definition toy_band : list Atoms :=
  [labelled 0 1 (0, 0, 0)%Q; labelled 1 2 (0, 0, 0)%Q; labelled 2 3 (0, 0, 0)%Q].

(** A calculator reading the energy and the force off the first
    coordinate of the atom: one answer at 0, one at 1, one elsewhere. *)
Definition by_position (name : string) (r0 r1 r2 : Q * vec3) : calculator := {|
  class_name := name;
  calculate := fun p =>
    let r := if Qeq_bool (x_of p) 0 then r0
             else if Qeq_bool (x_of p) 1 then r1 else r2 in
    (fst r, [snd r])
|}.

Definition zero3 : vec3 := (0, 0, 0)%Q.

Definition toy_images : list Atoms := [image_at 0; image_at 1; image_at 2].

(** The energies and per-atom force sums the surrogate gives on a band. *)
Definition surrogate_values (amp_calc : calculator) (images : list Atoms)
  : list (Q * list Q) :=
  map (fun a => (fst (calculate amp_calc (positions a)),
                 sum_axis1 (snd (calculate amp_calc (positions a))))) images.

(** The images [cross_validate] takes for the reference side: the first
    image of the training set, what the reference step left in
    [calculator.traj], and the training-set image that follows in rank. *)
Definition reference_interior (cfg : settings) (w : files)
    (amp_calc : calculator) (images : list Atoms) (interior : list Atoms)
  : Prop :=
  (calc_name cfg <> "GPAW"
   /\ interior = map traj_write
                     (map (set_calculator amp_calc) (slice_1_m1 images)))
  \/ (calc_name cfg = "GPAW"
      /\ exists g, gpaw_calc w = Some g
         /\ interior = map (fun a => traj_write (set_calculator g a))
                           (slice_1_m1 images)).

(** A cross-validation scenario: the training set is [toy_band], with
    reference energies 1, 2 and 3; the reference calculator, when it is
    GPAW, answers 2 on the interior image. *)
Definition validation_settings (metric : string) (calc : option calculator)
  : settings :=
  toy_settings 200 (1 # 100) (1 # 20) (1 # 20) None metric calc "BFGS".

Definition validation_state : run_state :=
  with_training_set toy_band initialized_state.

Definition gpaw_two : calculator := flat_calc "GPAW" 2 zero3.

Definition validation_files : files := toy_files toy_band (Some gpaw_two).

(** Surrogates: one with energies 1.1, 1.9 and 3.2 on the three images,
    one that reproduces the reference, one that differs from it on the
    first image only. *)
Definition amp_off : calculator :=
  by_position "Amp" ((11 # 10)%Q, zero3) ((19 # 10)%Q, zero3)
              ((32 # 10)%Q, zero3).

Definition amp_exact : calculator :=
  by_position "Amp" (1%Q, zero3) (2%Q, zero3) (3%Q, zero3).

Definition amp_end : calculator :=
  by_position "Amp" (4%Q, (3, 0, 0)%Q) (2%Q, zero3) (3%Q, zero3).

(** A reference calculator other than GPAW with no force anywhere, and a
    surrogate with a force of norm 5 everywhere. *)
Definition emt_flat : calculator := flat_calc "EMT" 0 zero3.

Definition amp_pull : calculator := flat_calc "Amp" 0 (3, 4, 0)%Q.

(** ** Observations on the working directory *)

(** What a step leaves untouched when it writes scratch files and log
    lines only. *)
Definition keeps_data (w w' : files) : Prop :=
  training_traj w' = training_traj w
  /\ neb_trajs w' = neb_trajs w
  /\ amp_files w' = amp_files w
  /\ gpaw_calc w' = gpaw_calc w
  /\ optimizer_calls w' = optimizer_calls w.

(** The value the loop gives [fmax] at the top of a pass. *)
Definition next_fmax (cfg : settings) (fmax' : Q) : Q :=
  let fmax' := (fmax' / get_step cfg)%Q in
  if Qltb fmax' (fmax cfg) || Qeq_bool fmax' (fmax cfg)
  then fmax cfg else fmax'.

(** [self.achieved[0] > self.tolerance or self.achieved[1] > self.tolerance] *)
Definition exceeds (cfg : settings) (a : Q * Q) : bool :=
  Qgtb (fst a) (tolerance cfg) || Qgtb (snd a) (tolerance cfg).

(** Whether a pass reaches one of the blocks that read
    [images_from_neb.traj]: the report exceeds the tolerance, or it does
    not and neither [break] is taken. *)
Definition consumes_images (cfg : settings) (st : run_state) (fmax' : Q)
  : bool :=
  match iteration st, achieved st with
  | Some i0, Some (Some a) =>
      negb (Qeq_bool (get_step cfg) 0)
      && (exceeds cfg a
          || negb ((i0 + 1 =? maxiter cfg)%Z
                   || (Qeq_bool (next_fmax cfg fmax') (fmax cfg)
                       && final_fmax st)))
  | _, _ => false
  end.

Definition aborting : log_entry := LogLine "Aborting...\n" [].

(** Runs of [accelerate]: settings with one interior image, a reference
    calculator that is not GPAW, the metric [fmax] and the tolerance 1. *)
Definition run_settings (maxiter : Z) (fmax ifmax : Q) (step : option Q)
  : settings :=
  toy_settings maxiter 1 fmax ifmax step "fmax" (Some emt_flat) "BFGS".

Definition run_files : files := toy_files toy_band None.

(** What the loop holds at the end of a run. *)
Definition outcome_state (o : outcome) : option (run_state * files) :=
  match o with
  | Continue st w _ => Some (st, w)
  | Break _ st w _ => Some (st, w)
  | Exit st w => Some (st, w)
  | Raised _ => None
  end.

(** The [fmax] of the recorded band runs, in order. *)
Definition thresholds (w : files) : list (option Q) :=
  map snd (optimizer_calls w).

(** A surrogate with no force anywhere: its report under [fmax] is 0. *)
Definition amp_still : calculator := flat_calc "Amp" 0 zero3.

(** Training whose outcome depends on the label: the model of iteration 1
    has no force, that of iteration 2 a force of norm 1, the others a force
    of norm 2. *)
Definition amp_by_label (label : string) : calculator :=
  if String.eqb label "1" then flat_calc "Amp" 0 zero3
  else if String.eqb label "2" then flat_calc "Amp" 0 (1, 0, 0)%Q
  else flat_calc "Amp" 0 (2, 0, 0)%Q.

(** The flag [final_fmax] tells the truth: when it is raised, the stored
    report is strictly within the tolerance, [fmax] is at its target, and
    the last band was run at the target. *)
Definition flag_sound (cfg : settings) (st : run_state) (w : files) (f : Q)
  : Prop :=
  final_fmax st = true ->
  (exists a, achieved st = Some (Some a)
             /\ (fst a < tolerance cfg)%Q /\ (snd a < tolerance cfg)%Q)
  /\ (f == fmax cfg)%Q
  /\ exists calls name q,
       optimizer_calls w = calls ++ [(name, Some q)] /\ (q == fmax cfg)%Q.

(** A list of thresholds that never rises, starts no higher than [hi] and
    stays at or above [lo]; every band run was given a threshold. *)
Fixpoint descending (lo hi : Q) (l : list (option Q)) : Prop :=
  match l with
  | [] => True
  | Some q :: l' => (lo <= q)%Q /\ (q <= hi)%Q /\ descending lo q l'
  | None :: _ => False
  end.

(** The last threshold of the list, [hi] when there is none. *)
Fixpoint bottom (hi : Q) (l : list (option Q)) : Q :=
  match l with
  | [] => hi
  | Some q :: l' => bottom q l'
  | None :: l' => bottom hi l'
  end.

(** The images of a trajectory file, none when the file is not there. *)
Definition contents (f : option (list Atoms)) : list Atoms :=
  match f with
  | Some l => l
  | None => []
  end.

(** The second file holds the images of the first, in the same order,
    and possibly more after them. *)
Definition grows (f f' : option (list Atoms)) : Prop :=
  exists extra, contents f' = contents f ++ extra.

(** The labels of the models trained in passes [i0 + 1] to [i0 + n], the
    latest first. *)
Fixpoint labels_back (i0 : Z) (n : nat) : list string :=
  match n with
  | O => []
  | S n' => (pretty (i0 + Z.of_nat n)%Z +:+ ".amp") :: labels_back i0 n'
  end.

(** The order [sorted] sorts by: character codes, position by position. *)
Definition str_le (a b : string) : Prop := String.leb a b = true.

(** A directory [initial_runs] holding one saved model, for [set.py]. *)
Definition initial_runs : filesystem := {|
  glob_glob := fun pat =>
    if String.eqb pat "initial_runs/*.amp"
    then ["initial_runs/7-untrained-parameters.amp"] else [];
  isfile := fun n =>
    String.eqb n "initial_runs/7-untrained-parameters.amp"
|}.

(** ** [search.py]

    The script indexes the list that [map] returns, as Python 2 allows; it
    is modelled as run by Python 2.  What it prints along the way is left
    out; the result is the pair of entries it announces as the minimum and
    the maximum error. *)

(** [l[i]] for any integer index: negative indices count from the end. *)
Definition py_getitem {A : Type} (l : list A) (i : Z) : result A :=
  let n := Z.of_nat (List.length l) in
  if (0 <=? i)%Z && (i <? n)%Z then py_index l (Z.to_nat i)
  else if (- n <=? i)%Z && (i <? 0)%Z then py_index l (Z.to_nat (n + i))
  else Raise IndexError.

(** Whitespace for [str.split()]: space, tab, line feed, vertical tab,
    form feed, carriage return. *)
Definition is_space (c : ascii) : bool :=
  let n := nat_of_ascii c in
  (n =? 32)%nat || ((9 <=? n)%nat && (n <=? 13)%nat).

(** [s.split()], with the word being read in [cur]. *)
Fixpoint split_from (cur : string) (s : string) : list string :=
  match s with
  | EmptyString =>
      match cur with
      | EmptyString => []
      | _ => [cur]
      end
  | String c s' =>
      if is_space c then
        match cur with
        | EmptyString => split_from EmptyString s'
        | _ => cur :: split_from EmptyString s'
        end
      else split_from (cur +:+ String c EmptyString) s'
  end.

Definition str_split (s : string) : list string := split_from EmptyString s.

(** The arguments of the command line; [None] is an option left out. *)
Record search_args : Type := {
  arg_metric : option string;
  arg_get : option string;
  arg_directory : option string
}.

(** [x.lower()] on an option of the command line *)
Definition arg_lower (x : option string) : result string :=
  match x with
  | Some s => Ok (str_lower s)
  | None => Raise (AttributeError "lower")
  end.

(** The choice of [arrindex]; [Ok None] is the variable left unbound. *)
Definition choose_arrindex (args : search_args) : result (option Z) :=
  let* get := arg_lower (arg_get args) in
  if String.eqb get "forces" then
    let* metric := arg_lower (arg_metric args) in
    if String.eqb metric "maxresid" then Ok (Some (-2)%Z) else Ok (Some (-4)%Z)
  else if String.eqb get "energy" then
    let* metric := arg_lower (arg_metric args) in
    if String.eqb metric "maxresid" then Ok (Some 5%Z) else Ok (Some 3%Z)
  else Ok None.

(** The entries one file contributes: for every line that holds the
    marker, the file name and the word of rank [arrindex] of the line
    before it. *)
Fixpoint scan_lines (element : string) (f : list string) (arrindex : option Z)
    (index : nat) (rest : list string) : result (list (string * string)) :=
  match rest with
  | [] => Ok []
  | line :: rest' =>
      if py_in "..optimization successful" line then
        let* previous := py_getitem f (Z.of_nat index - 1) in
        let x := str_split previous in
        let* i := match arrindex with
                  | Some i => Ok i
                  | None => Raise (NameError "arrindex")
                  end in
        let* word := py_getitem x i in
        let* more := scan_lines element f arrindex (S index) rest' in
        Ok ((element, word) :: more)
      else scan_lines element f arrindex (S index) rest'
  end.

Fixpoint scan_files (readlines : string -> result (list string))
    (arrindex : option Z) (listing : list string)
  : result (list (string * string)) :=
  match listing with
  | [] => Ok []
  | element :: listing' =>
      let* f := readlines element in
      let* here := scan_lines element f arrindex 0 f in
      let* more := scan_files readlines arrindex listing' in
      Ok (here ++ more)
  end.

(** [min(l)] and [max(l)] on strings: the first least, the first
    greatest. *)
Definition str_min (l : list string) : result string :=
  match l with
  | [] => Raise ValueError
  | x :: l' => Ok (fold_left (fun m y => if String.ltb y m then y else m) l' x)
  end.

Definition str_max (l : list string) : result string :=
  match l with
  | [] => Raise ValueError
  | x :: l' => Ok (fold_left (fun m y => if String.ltb m y then y else m) l' x)
  end.

(** The first entry that holds [v], as file name or as word. *)
Definition first_holding (v : string) (metrics : list (string * string))
  : option (string * string) :=
  List.find (fun e => String.eqb v (fst e) || String.eqb v (snd e)) metrics.

(** The script: the entries collected, and the entries announced as
    minimum and as maximum. *)
Definition search (fs : filesystem)
    (readlines : string -> result (list string)) (args : search_args)
  : result (list (string * string)
            * option (string * string) * option (string * string)) :=
  let directory := match arg_directory args with
                   | Some d => d
                   | None => "."
                   end in
  let listing := glob_glob fs (directory +:+ "/*.txt") in
  let* arrindex := choose_arrindex args in
  let* metrics := scan_files readlines arrindex listing in
  let tofind := map snd metrics in
  let* minimum := str_min tofind in
  let* maximum := str_max tofind in
  Ok (metrics, first_holding minimum metrics, first_holding maximum metrics).

(** Two logs of a training, for [search.py]: the line before the marker
    holds the energy error in its fourth word. *)
Definition newline : string := String (ascii_of_nat 10) EmptyString.

Definition two_logs : filesystem := {|
  glob_glob := fun pat =>
    if String.eqb pat "./*.txt" then ["./a-log.txt"; "./b-log.txt"] else [];
  isfile := fun n => String.eqb n "./a-log.txt" || String.eqb n "./b-log.txt"
|}.

Definition two_logs_lines (path : string) : result (list string) :=
  if String.eqb path "./a-log.txt" then
    Ok ["  10  t  1.2e-03  9.0e-05  C  1.0e-02  2.0e-02  C" +:+ newline;
        "..optimization successful" +:+ newline]
  else if String.eqb path "./b-log.txt" then
    Ok ["  12  t  1.5e-03  1.0e-04  C  1.1e-02  2.1e-02  C" +:+ newline;
        "..optimization successful" +:+ newline]
  else Raise (IOError path).

Definition energy_rmse : search_args :=
  {| arg_metric := Some "rmse"; arg_get := Some "energy";
     arg_directory := None |}.

(** Whether a line of a readable file of the listing holds the marker. *)
Definition marked (readlines : string -> result (list string))
    (listing : list string) : Prop :=
  exists p f line,
    In p listing /\ readlines p = Ok f /\ In line f
    /\ py_in "..optimization successful" line = true.

(** ** Observations for the convergence test *)

(** [fmax] has left the target for good: it lies above the target, and
    dividing it by the step takes it further from the target. *)
Definition escaped (cfg : settings) (f : Q) : Prop :=
  (fmax cfg < f)%Q
  /\ ((0 < f /\ 0 < get_step cfg /\ get_step cfg < 1)
      \/ (f < 0 /\ 1 < get_step cfg))%Q.

(** Once the flag [final_fmax] is raised, either it tells the truth or
    [fmax] has left the target for good. *)
Definition flag_settled (cfg : settings) (st : run_state) (w : files) (f : Q)
  : Prop :=
  final_fmax st = true -> escaped cfg f \/ flag_sound cfg st w f.

(** Training whose model of iteration 0 has a force of norm 1, the models
    of the later iterations none. *)
Definition amp_rough_start (label : string) : calculator :=
  if String.eqb label "0" then flat_calc "Amp" 0 (1, 0, 0)%Q
  else flat_calc "Amp" 0 zero3.

(** ** Observations for [check_files] and [cross_validate] *)

(** The names [check_files] keeps of the [*.txt] listing. *)
Definition kept_log (name : string) : bool :=
  negb (String.eqb name "amp-log.txt") && negb (String.eqb name "out.txt").

(** The image holds the energy [q]. *)
Definition energy_is (a : Atoms) (q : Q) : Prop :=
  exists e, get_potential_energy a = Ok e /\ (e == q)%Q.

(** The energies a calculator gives on a list of images. *)
Definition energies_on (c : calculator) (images : list Atoms) : list Q :=
  map fst (surrogate_values c images).


(** A reference calculator other than GPAW with energies 1, 2 and 3 on the
    three images. *)
Definition emt_steps : calculator :=
  by_position "EMT" (1%Q, zero3) (2%Q, zero3) (3%Q, zero3).


(** The energies and per-atom force sums a reference calculator gives on
    a list of images: the same reading as for the surrogate. *)
Definition reference_values (g : calculator) (images : list Atoms)
  : list (Q * list Q) :=
  surrogate_values g images.


(** * Properties *)

(** ** Strings and lists *)

Lemma prefix_spec (p s : string) :
  String.prefix p s = true <-> exists t, s = p +:+ t.
Proof.
  revert s. induction p as [|c p IH]; intros s.
  - destruct s; simpl; split; eauto.
  - destruct s as [|d s]; simpl.
    + split; [discriminate | intros [t Ht]; discriminate].
    + destruct (ascii_dec c d) as [->|Hne].
      * rewrite IH. split; intros [t Ht]; exists t; [now rewrite Ht | now inversion Ht].
      * split; [discriminate | intros [t Ht]; inversion Ht; congruence].
Qed.

(** [py_in] is Python's substring test. *)
Lemma py_in_spec (sub s : string) :
  py_in sub s = true <-> exists pre post, s = pre +:+ sub +:+ post.
Proof.
  induction s as [|c s IH]; cbn [py_in].
  - rewrite orb_false_r, prefix_spec. split.
    + intros [t Ht]. exists EmptyString, t. exact Ht.
    + intros [pre [post H]]. destruct pre; simpl in H; [eauto | discriminate].
  - rewrite orb_true_iff, IH, prefix_spec. split.
    + intros [[t Ht] | [pre [post H]]].
      * exists EmptyString, t. exact Ht.
      * exists (String c pre), post. simpl. now rewrite H.
    + intros [pre [post H]]. destruct pre as [|d pre]; simpl in H.
      * left. eauto.
      * right. inversion H. eauto.
Qed.

(** ** [set.py] *)

Lemma common_calculations_spec (list1 list2 : list string) (x : string) :
  x ∈ common_calculations list1 list2 <-> x ∈ list1 /\ x ∈ list2.
Proof.
  unfold common_calculations.
  rewrite elem_of_elements, elem_of_intersection, !elem_of_list_to_set.
  reflexivity.
Qed.

(** C10: [trained_calculations] returns, without repetition, exactly the
    paths matched by [<path>/*.amp] that contain [untrained] and do not
    contain [initial]: the intersection with the filtered listing gives
    back the list [failed], as a set. *)
Theorem trained_calculations_returns_failed (fs : filesystem) (path : string) :
  let listing := glob_glob fs (path +:+ "/*.amp") in
  let failed :=
    List.filter (fun e => py_in "untrained" e)
                (List.filter (fun e => negb (py_in "initial" e)) listing) in
  (forall x, x ∈ trained_calculations fs path <->
             x ∈ listing /\ py_in "untrained" x = true
             /\ py_in "initial" x = false)
  /\ (list_to_set (trained_calculations fs path) : gset string)
     = list_to_set failed
  /\ NoDup (trained_calculations fs path).
Proof.
  intros listing failed.
  assert (Hx : forall x, x ∈ trained_calculations fs path <-> x ∈ failed).
  { intros x. unfold trained_calculations. rewrite common_calculations_spec.
    fold listing. subst failed.
    rewrite !list_elem_of_In, !filter_In. tauto. }
  split; [|split].
  - intros x. rewrite Hx. subst failed.
    rewrite !list_elem_of_In, !filter_In, negb_true_iff. tauto.
  - apply set_eq. intros x. rewrite !elem_of_list_to_set. apply Hx.
  - apply NoDup_elements.
Qed.

(** ** [check_files] *)

(** C8: with the files of iterations 0 to 10 in the directory,
    [check_files] answers iteration 9 and its band trajectory, although the
    log and the band trajectory of iteration 10 are there; with iteration
    10 alone it answers the digit 1 and finds no band trajectory.  Only the
    first character of the last name in lexicographic order is read. *)
Theorem check_files_two_digit_iteration :
  check_files
    (flat_dir ["0-log.txt"; "1-log.txt"; "2-log.txt"; "3-log.txt";
               "4-log.txt"; "5-log.txt"; "6-log.txt"; "7-log.txt";
               "8-log.txt"; "9-log.txt"; "10-log.txt"; "amp-log.txt";
               "neb_9.traj"; "neb_10.traj"; "10.amp"; "training.traj"])
  = Ok (Some "neb_9.traj", Some "9")
  /\ check_files
       (flat_dir ["10-log.txt"; "neb_10.traj"; "10.amp"; "training.traj"])
     = Ok (None, Some "1").
Proof. split; vm_compute; reflexivity. Qed.

(** ** [run_neb] *)

(** C9: when the optimizer name is neither [bfgs] nor [fire] once put in
    lower case, a band run raises [UnboundLocalError] for [qn], whatever the
    optimizer would have done: no run is attempted.  A band run therefore
    returns only for those two names. *)
Theorem run_neb_unknown_optimizer (env : collaborators) (cfg : settings)
    (st : run_state) (w : files) (images : list Atoms) (fmax' : option Q)
    (i : Z) :
  iteration st = Some i ->
  str_lower (neb_optimizer cfg) <> "bfgs" ->
  str_lower (neb_optimizer cfg) <> "fire" ->
  run_neb env cfg st w images false fmax' = Raise (UnboundLocalError "qn").
Proof.
  intros Hi Hb Hf. unfold run_neb, get_iteration. rewrite Hi. cbn [bind].
  apply String.eqb_neq in Hb. apply String.eqb_neq in Hf.
  rewrite Hb, Hf. reflexivity.
Qed.

Lemma run_neb_unknown_optimizer_witness :
  run_neb (toy_env (fun _ => flat_calc "Amp" 0 (0, 0, 0)%Q))
          (toy_settings 200 (1 # 100) (1 # 20) (1 # 20) None "fmax" None
                        "LBFGS")
          (with_iteration 0 initialized_state) (toy_files toy_band None)
          toy_band false (Some (1 # 20)%Q)
  = Raise (UnboundLocalError "qn").
Proof.
  apply (run_neb_unknown_optimizer _ _ _ _ _ _ 0%Z);
    [reflexivity | vm_compute; discriminate | vm_compute; discriminate].
Defined.

(** ** The result monad *)

Lemma bind_Ok {A B : Type} (r : result A) (k : A -> result B) (b : B) :
  bind r k = Ok b -> exists a, r = Ok a /\ k a = Ok b.
Proof. destruct r as [a|e]; simpl; [eauto | discriminate]. Qed.

Ltac inv_bind H :=
  let a := fresh "a" in
  let Ha := fresh "Ha" in
  apply bind_Ok in H; destruct H as [a [Ha H]].

Tactic Notation "bind_inv" hyp(H) "as" ident(a) ident(Ha) :=
  apply bind_Ok in H; destruct H as [a [Ha H]].

Lemma mapM_length {A B : Type} (f : A -> result B) (l : list A) (r : list B) :
  mapM f l = Ok r -> List.length r = List.length l.
Proof.
  revert r. induction l as [|a l IH]; intros r H; simpl in H.
  - inversion H. reflexivity.
  - inv_bind H. inv_bind H. inversion H. simpl. f_equal. eauto.
Qed.

Lemma mapM_set_calculator (c : calculator) (l : list Atoms) :
  mapM energy_and_forces (map (set_calculator c) l)
  = Ok (map (fun a => (fst (calculate c (positions a)),
                       sum_axis1 (snd (calculate c (positions a))))) l).
Proof.
  induction l as [|a l IH]; simpl; [reflexivity|].
  rewrite IH. reflexivity.
Qed.

(** ** [set_calculators] *)

(** With a calculator that is not GPAW and no cross-validation flag, every
    image gets the calculator and [calculator.traj] holds them all. *)
Lemma set_calculators_plain (w : files) (images : list Atoms)
    (c : calculator) (name : string) :
  name <> "GPAW" ->
  set_calculators w images (Some c) name false false false
  = Ok (with_calculator
          (Some (map traj_write (map (set_calculator c) images))) w,
        map (set_calculator c) images).
Proof.
  intros Hn. unfold set_calculators.
  apply String.eqb_neq in Hn. rewrite Hn. simpl.
  destruct images; reflexivity.
Qed.

(** The reference step of the cross-validation evaluates the interior
    images only, and leaves them in [calculator.traj]: with the calculator
    it was handed when the reference is not GPAW, with the calculator of
    [gpaw.calc] when it is. *)
Lemma set_calculators_cross_validate (w w' : files) (images r : list Atoms)
    (c : calculator) (name : string) :
  set_calculators w images (Some c) name false false true = Ok (w', r) ->
  training_traj w' = training_traj w
  /\ images_from_neb_traj w' = images_from_neb_traj w
  /\ logfile w' = logfile w
  /\ ((name <> "GPAW"
       /\ calculator_traj w'
          = Some (map traj_write (map (set_calculator c) (slice_1_m1 images))))
      \/ (name = "GPAW"
          /\ exists g, gpaw_calc w = Some g
             /\ calculator_traj w'
                = Some (map (fun a => traj_write (set_calculator g a))
                            (slice_1_m1 images)))).
Proof.
  unfold set_calculators. intros H.
  destruct (String.eqb name "GPAW") eqn:E; simpl in H.
  - apply String.eqb_eq in E. unfold write_gpaw_file, run_gpaw in H.
    destruct (gpaw_calc w) as [g|] eqn:G; simpl in H; [|discriminate].
    rewrite G in H. simpl in H. inversion H; subst. simpl.
    repeat split; try reflexivity. right. split; [reflexivity || assumption|]. eauto.
  - apply String.eqb_neq in E.
    destruct (slice_1_m1 images) eqn:S; simpl in H; inversion H; subst; simpl;
      repeat split; try reflexivity; left; split; auto.
Qed.

Lemma slice_1_m1_map {A B : Type} (f : A -> B) (l : list A) :
  slice_1_m1 (map f l) = map f (slice_1_m1 l).
Proof.
  unfold slice_1_m1. destruct l as [|a l]; [reflexivity|]. simpl.
  induction l as [|b l IH]; [reflexivity|].
  simpl. destruct l as [|c l]; [reflexivity|].
  simpl in *. now rewrite IH.
Qed.

Lemma slice_1_m1_length {A : Type} (l : list A) :
  List.length (slice_1_m1 l) = (List.length l - 2)%nat.
Proof.
  unfold slice_1_m1. destruct l as [|a l]; [reflexivity|]. simpl.
  induction l as [|b l IH]; [reflexivity|].
  destruct l as [|c l]; [reflexivity|].
  change (removelast (b :: c :: l)) with (b :: removelast (c :: l)).
  simpl List.length in *. rewrite IH. lia.
Qed.

(** ** [cross_validate] *)

Lemma cross_validate_anatomy (env : collaborators) (cfg : settings)
    (st : run_state) (w w' : files) (neb_images : list Atoms)
    (calc : option calculator) (amp_calc : calculator) (metric : string)
    (a : option (Q * Q)) :
  class_name amp_calc <> "GPAW" ->
  cross_validate env cfg st w neb_images calc amp_calc metric = Ok (w', a) ->
  exists first interior last dft,
    nth_error (training_set st) 0 = Some first
    /\ nth_error (training_set st) (S (List.length interior)) = Some last
    /\ reference_interior cfg w amp_calc neb_images interior
    /\ mapM energy_and_forces (first :: interior ++ [last]) = Ok dft
    /\ images_from_neb_traj w'
       = Some (map traj_write (first :: interior ++ [last]))
    /\ training_traj w' = training_traj w
    /\ (metric = "fmax" ->
        exists v, get_fmax env (first :: interior ++ [last]) = Ok v
                  /\ a = Some (v, v))
    /\ (metric <> "fmax" -> str_lower metric = "mae" ->
        exists e f,
          a = Some (e, f)
          /\ mean_absolute_error
               (map fst dft) (map fst (surrogate_values amp_calc neb_images))
             = Ok e
          /\ mean_absolute_error_multi
               (map snd dft) (map snd (surrogate_values amp_calc neb_images))
             = Ok f)
    /\ (metric <> "fmax" -> str_lower metric <> "mae" -> a = None).
Proof.
  intros Hamp H. unfold cross_validate in H.
  rewrite (set_calculators_plain _ _ _ _ Hamp) in H. cbn [bind] in H.
  rewrite mapM_set_calculator in H. cbn [bind] in H.
  fold (surrogate_values amp_calc neb_images) in H.
  bind_inv H as p2 Hsc. destruct p2 as [w2 r2].
  apply set_calculators_cross_validate in Hsc.
  destruct Hsc as (Ht & Hi & Hl & Hc).
  bind_inv H as first Hfirst.
  bind_inv H as interior Hinterior.
  bind_inv H as last Hlast.
  bind_inv H as dft Hdft.
  exists first, interior, last, dft.
  unfold py_index in Hfirst, Hlast.
  destruct (nth_error (training_set st) 0) eqn:E0; inversion Hfirst; subst.
  simpl List.length in Hlast.
  destruct (nth_error (training_set st) (S (List.length interior))) eqn:E1;
    inversion Hlast; subst.
  assert (Hint : reference_interior cfg w amp_calc neb_images interior).
  { unfold traj_read in Hinterior. unfold reference_interior.
    destruct Hc as [[Hn Hc]|[Hn [g [Hg Hc]]]]; rewrite Hc in Hinterior;
      inversion Hinterior; subst interior.
    - left. split; [assumption|].
      rewrite slice_1_m1_map, !map_map. reflexivity.
    - right. split; [assumption|]. exists g. split; [exact Hg|].
      rewrite slice_1_m1_map, map_map. reflexivity. }
  change (([first] ++ interior) ++ [last]) with (first :: interior ++ [last])
    in *.
  simpl in Ht, Hi, Hl.
  repeat split; try assumption; try reflexivity.
  - destruct (String.eqb metric "fmax"); [inv_bind H|];
      [|destruct (String.eqb (str_lower metric) "mae");
        [inv_bind H; inv_bind H|]];
      inversion H; subst; reflexivity.
  - destruct (String.eqb metric "fmax"); [inv_bind H|];
      [|destruct (String.eqb (str_lower metric) "mae");
        [inv_bind H; inv_bind H|]];
      inversion H; subst; simpl; congruence.
  - intros Hm. rewrite Hm in H. simpl in H. inv_bind H.
    inversion H; subst. eauto.
  - intros Hm Hl'. apply String.eqb_neq in Hm. rewrite Hm in H.
    rewrite Hl' in H. simpl in H. inv_bind H. inv_bind H.
    inversion H; subst. eauto.
  - intros Hm Hl'. apply String.eqb_neq in Hm. apply String.eqb_neq in Hl'.
    rewrite Hm, Hl' in H. inversion H. reflexivity.
Qed.

Lemma mean_absolute_error_length (y_true y_pred : list Q) (e : Q) :
  mean_absolute_error y_true y_pred = Ok e ->
  List.length y_true = List.length y_pred /\ y_true <> [].
Proof.
  unfold mean_absolute_error. intros H.
  destruct (List.length y_true =? List.length y_pred)%nat eqn:E;
    simpl in H; [|discriminate].
  apply Nat.eqb_eq in E. split; [exact E|].
  intros ->. simpl in H. discriminate.
Qed.

Lemma mapM_app {A B : Type} (f : A -> result B) (l1 l2 : list A) :
  mapM f (l1 ++ l2)
  = let* r1 := mapM f l1 in let* r2 := mapM f l2 in Ok (r1 ++ r2).
Proof.
  induction l1 as [|a l1 IH]; simpl.
  - destruct (mapM f l2); reflexivity.
  - destruct (f a); simpl; [|reflexivity]. rewrite IH.
    destruct (mapM f l1); simpl; [|reflexivity].
    destruct (mapM f l2); reflexivity.
Qed.

Lemma mapM_written_calculator (c : calculator) (l : list Atoms) :
  mapM energy_and_forces (map (fun a => traj_write (set_calculator c a)) l)
  = Ok (surrogate_values c l).
Proof.
  induction l as [|a l IH]; simpl; [reflexivity|].
  rewrite IH. reflexivity.
Qed.

(** The values on the reference side: those of the two training-set
    images, and between them those of the calculator that evaluated the
    interior images. *)
Lemma reference_side_values (c : calculator) (l : list Atoms)
    (first last : Atoms) (dft : list (Q * list Q)) :
  mapM energy_and_forces
       (first :: map (fun a => traj_write (set_calculator c a)) l ++ [last])
  = Ok dft ->
  exists r0 rn,
    energy_and_forces first = Ok r0
    /\ energy_and_forces last = Ok rn
    /\ dft = r0 :: surrogate_values c l ++ [rn].
Proof.
  intros H. cbn [mapM] in H.
  destruct (energy_and_forces first) as [r0|x] eqn:E0; [|discriminate].
  cbn [bind] in H. rewrite mapM_app, mapM_written_calculator in H.
  cbn [bind mapM] in H.
  destruct (energy_and_forces last) as [rn|x] eqn:En; [|discriminate].
  cbn [bind] in H. inversion H. eauto.
Qed.

(** C4 (as the code has it): with GPAW as the reference, every image of
    the band is scored under [mae], the two end images included.  The
    reference side holds the values of the first training-set image, the
    values GPAW gives on the interior images, and the values of the
    training-set image of the rank of the last image; the surrogate side
    holds the surrogate on all the images.  Both errors are means over the
    whole band. *)
Theorem cross_validate_mae_scores_all_images (env : collaborators)
    (cfg : settings) (st : run_state) (w w' : files)
    (neb_images : list Atoms) (calc : option calculator)
    (amp_calc : calculator) (metric : string) (e f : Q) :
  class_name amp_calc <> "GPAW" ->
  calc_name cfg = "GPAW" ->
  metric <> "fmax" ->
  str_lower metric = "mae" ->
  cross_validate env cfg st w neb_images calc amp_calc metric
  = Ok (w', Some (e, f)) ->
  exists g first last r0 rn,
    gpaw_calc w = Some g
    /\ (2 <= List.length neb_images)%nat
    /\ nth_error (training_set st) 0 = Some first
    /\ nth_error (training_set st) (List.length neb_images - 1) = Some last
    /\ energy_and_forces first = Ok r0
    /\ energy_and_forces last = Ok rn
    /\ let dft := r0 :: reference_values g (slice_1_m1 neb_images) ++ [rn] in
       List.length dft = List.length neb_images
       /\ mean_absolute_error
            (map fst dft) (map fst (surrogate_values amp_calc neb_images))
          = Ok e
       /\ mean_absolute_error_multi
            (map snd dft) (map snd (surrogate_values amp_calc neb_images))
          = Ok f.
Proof.
  intros Hamp Hg Hm Hl H. unfold reference_values.
  destruct (cross_validate_anatomy _ _ _ _ _ _ _ _ _ _ Hamp H)
    as (first & interior & last & dft & H0 & H1 & Hint & Hdft & _ & _ & _
        & Hmae & _).
  destruct (Hmae Hm Hl) as (e' & f' & Ha & He & Hf).
  inversion Ha; subst e' f'.
  destruct Hint as [[Hn _]|[_ (g & Hgc & Hi)]]; [congruence|].
  subst interior.
  destruct (reference_side_values _ _ _ _ _ Hdft) as (r0 & rn & E0 & En & Ed).
  subst dft.
  assert (Hlen : List.length (r0 :: surrogate_values g (slice_1_m1 neb_images)
                                 ++ [rn])
                 = List.length neb_images).
  { apply mean_absolute_error_length in He. destruct He as [He _].
    unfold surrogate_values in He. rewrite !length_map in He.
    unfold surrogate_values. simpl. rewrite length_app, length_map.
    simpl in He. rewrite length_app, length_map in He. exact He. }
  assert (Hn : (2 <= List.length neb_images)%nat).
  { rewrite <- Hlen. simpl. rewrite length_app. simpl. lia. }
  exists g, first, last, r0, rn.
  repeat split; try assumption.
  rewrite length_map, slice_1_m1_length in H1.
  replace (List.length neb_images - 1)%nat
    with (S (List.length neb_images - 2)) by lia.
  exact H1.
Qed.

Lemma cross_validate_mae_scores_all_images_witness :
  exists w' e f,
    cross_validate (toy_env (fun _ => amp_off)) (validation_settings "mae" None)
                   validation_state validation_files toy_images None amp_off
                   "mae" = Ok (w', Some (e, f))
    /\ exists g first last r0 rn,
      gpaw_calc validation_files = Some g
      /\ (2 <= List.length toy_images)%nat
      /\ nth_error (training_set validation_state) 0 = Some first
      /\ nth_error (training_set validation_state)
                   (List.length toy_images - 1) = Some last
      /\ energy_and_forces first = Ok r0
      /\ energy_and_forces last = Ok rn
      /\ let dft := r0 :: reference_values g (slice_1_m1 toy_images) ++ [rn] in
         List.length dft = List.length toy_images
         /\ mean_absolute_error
              (map fst dft) (map fst (surrogate_values amp_off toy_images))
            = Ok e
         /\ mean_absolute_error_multi
              (map snd dft) (map snd (surrogate_values amp_off toy_images))
            = Ok f.
Proof.
  destruct (cross_validate (toy_env (fun _ => amp_off))
                           (validation_settings "mae" None) validation_state
                           validation_files toy_images None amp_off "mae")
    as [[w' [[e f]|]]|x] eqn:E;
    [|vm_compute in E; discriminate|vm_compute in E; discriminate].
  exists w', e, f. split; [reflexivity|].
  apply (cross_validate_mae_scores_all_images
           (toy_env (fun _ => amp_off)) (validation_settings "mae" None)
           validation_state validation_files w' toy_images None amp_off
           "mae" e f);
    [vm_compute; discriminate | reflexivity | discriminate | reflexivity
     | exact E].
Defined.

(** C4 (as stated) fails: two surrogates that agree on the interior image
    and differ on the first image only get different errors, for the
    energies and for the forces. *)
Lemma cross_validate_mae_endpoint_counts :
  calculate amp_exact (atom_at 1) = calculate amp_end (atom_at 1)
  /\ exists w1 w2 e1 f1 e2 f2,
       cross_validate (toy_env (fun _ => amp_exact))
                      (validation_settings "mae" None) validation_state
                      validation_files toy_images None amp_exact "mae"
       = Ok (w1, Some (e1, f1))
       /\ cross_validate (toy_env (fun _ => amp_end))
                         (validation_settings "mae" None) validation_state
                         validation_files toy_images None amp_end "mae"
          = Ok (w2, Some (e2, f2))
       /\ ~ (e1 == e2)%Q /\ ~ (f1 == f2)%Q.
Proof.
  split; [reflexivity|].
  do 6 eexists.
  split; [vm_compute; reflexivity|].
  split; [vm_compute; reflexivity|].
  split; intros H; vm_compute in H; discriminate.
Qed.

Lemma energy_and_forces_energy (a : Atoms) (r : Q * list Q) (q : Q) :
  energy_and_forces a = Ok r -> energy_is a q -> (fst r == q)%Q.
Proof.
  unfold energy_and_forces. intros H (e & He & Hq).
  rewrite He in H. cbn [bind] in H.
  destruct (get_forces a); cbn [bind] in H; inversion H. exact Hq.
Qed.

Lemma mean_absolute_error_three (t0 t1 t2 p0 p1 p2 e : Q) :
  mean_absolute_error [t0; t1; t2] [p0; p1; p2] = Ok e ->
  (e == (Qabs (p0 - t0) + Qabs (p1 - t1) + Qabs (p2 - t2)) / 3)%Q.
Proof.
  unfold mean_absolute_error. simpl. intros H. inversion H.
  unfold np_average, Qsum. simpl.
  change (inject_Z 3) with 3%Q. field.
Qed.

(** C5 (as the code has it): on a band of three images with surrogate
    energies 1.1, 1.9 and 3.2, and with the energies 1.0 and 3.0 held by
    the training-set images of rank 0 and 2, the energy error under [mae]
    is 2/15, the mean of 0.1, 0.1 and 0.2, when the reference is GPAW and
    gives 2.0 on the interior image; with any other reference calculator
    it is 0.1, the interior image adding nothing, whatever that calculator
    would give there. *)
Theorem cross_validate_mae_scenario (env : collaborators) (cfg : settings)
    (st : run_state) (w w' : files) (neb_images : list Atoms)
    (calc : option calculator) (amp_calc : calculator) (metric : string)
    (first last : Atoms) (e f : Q) :
  class_name amp_calc <> "GPAW" ->
  metric <> "fmax" ->
  str_lower metric = "mae" ->
  Forall2 Qeq (energies_on amp_calc neb_images)
          [11 # 10; 19 # 10; 32 # 10]%Q ->
  nth_error (training_set st) 0 = Some first -> energy_is first 1 ->
  nth_error (training_set st) 2 = Some last -> energy_is last 3 ->
  cross_validate env cfg st w neb_images calc amp_calc metric
  = Ok (w', Some (e, f)) ->
  (calc_name cfg = "GPAW" ->
   forall g, gpaw_calc w = Some g ->
             Forall2 Qeq (energies_on g (slice_1_m1 neb_images)) [2%Q] ->
             (e == 2 # 15)%Q)
  /\ (calc_name cfg <> "GPAW" -> (e == 1 # 10)%Q).
Proof.
  intros Hamp Hm Hl Hs Hf0 He0 Hf2 He2 H.
  destruct (cross_validate_anatomy _ _ _ _ _ _ _ _ _ _ Hamp H)
    as (first' & interior & last' & dft & H0 & H1 & Hint & Hdft & _ & _ & _
        & Hmae & _).
  destruct (Hmae Hm Hl) as (e' & f' & Ha & He & _).
  inversion Ha; subst e' f'. clear Ha Hmae.
  rewrite Hf0 in H0. inversion H0; subst first'. clear H0.
  destruct neb_images as [|a0 [|a1 [|a2 [|a3 rest]]]];
    unfold energies_on in Hs; simpl in Hs;
    try (inversion Hs; fail);
    try (inversion Hs as [|? ? ? ? _ Hs1]; inversion Hs1; fail);
    try (inversion Hs as [|? ? ? ? _ Hs1];
         inversion Hs1 as [|? ? ? ? _ Hs2]; inversion Hs2; fail);
    try (inversion Hs as [|? ? ? ? _ Hs1];
         inversion Hs1 as [|? ? ? ? _ Hs2];
         inversion Hs2 as [|? ? ? ? _ Hs3]; inversion Hs3; fail).
  inversion Hs as [|? ? ? ? S0 Hs1]; subst.
  inversion Hs1 as [|? ? ? ? S1 Hs2]; subst.
  inversion Hs2 as [|? ? ? ? S2 _]; subst. clear Hs Hs1 Hs2.
  assert (Hside : forall c,
             interior = map (fun a => traj_write (set_calculator c a)) [a1] ->
             (e == (Qabs (fst (calculate amp_calc (positions a0)) - 1)
                    + Qabs (fst (calculate amp_calc (positions a1))
                            - fst (calculate c (positions a1)))
                    + Qabs (fst (calculate amp_calc (positions a2)) - 3))
                   / 3)%Q).
  { intros c Hi. subst interior.
    change (nth_error (training_set st) 2 = Some last') in H1.
    rewrite Hf2 in H1. inversion H1; subst last'.
    destruct (reference_side_values _ _ _ _ _ Hdft)
      as (r0 & rn & E0 & En & Ed).
    subst dft. simpl in He.
    apply mean_absolute_error_three in He.
    rewrite (energy_and_forces_energy _ _ _ E0 He0) in He.
    rewrite (energy_and_forces_energy _ _ _ En He2) in He.
    exact He. }
  split.
  - intros Hg g Hgc Hg2.
    destruct Hint as [[Hn _]|[_ (g' & Hgc' & Hi)]]; [congruence|].
    rewrite Hgc in Hgc'. inversion Hgc'; subst g'.
    rewrite (Hside g Hi).
    unfold energies_on in Hg2. simpl in Hg2.
    inversion Hg2 as [|? ? ? ? G1 _]; subst.
    rewrite S0, S1, S2, G1. reflexivity.
  - intros Hn.
    destruct Hint as [[_ Hi]|[Hg _]]; [|congruence].
    rewrite map_map in Hi.
    rewrite (Hside amp_calc Hi).
    rewrite S0, S1, S2. reflexivity.
Qed.

Lemma cross_validate_mae_scenario_witness :
  (exists w' e f,
      cross_validate (toy_env (fun _ => amp_off))
                     (validation_settings "mae" None) validation_state
                     validation_files toy_images None amp_off "mae"
      = Ok (w', Some (e, f))
      /\ (e == 2 # 15)%Q)
  /\ (exists w' e f,
         cross_validate (toy_env (fun _ => amp_off))
                        (validation_settings "mae" (Some emt_steps))
                        validation_state validation_files toy_images
                        (Some emt_steps) amp_off "mae"
         = Ok (w', Some (e, f))
         /\ (e == 1 # 10)%Q).
Proof.
  split.
  - destruct (cross_validate (toy_env (fun _ => amp_off))
                             (validation_settings "mae" None)
                             validation_state validation_files toy_images
                             None amp_off "mae")
      as [[w' [[e f]|]]|x] eqn:E;
      [|vm_compute in E; discriminate|vm_compute in E; discriminate].
    exists w', e, f. split; [reflexivity|].
    refine (proj1 (cross_validate_mae_scenario
                     (toy_env (fun _ => amp_off))
                     (validation_settings "mae" None) validation_state
                     validation_files w' toy_images None amp_off "mae"
                     (labelled 0 1 zero3) (labelled 2 3 zero3) e f
                     _ _ _ _ _ _ _ _ E) eq_refl gpaw_two eq_refl _).
    + vm_compute; discriminate.
    + discriminate.
    + reflexivity.
    + repeat constructor.
    + reflexivity.
    + exists 1%Q. split; reflexivity.
    + reflexivity.
    + exists 3%Q. split; reflexivity.
    + repeat constructor.
  - destruct (cross_validate (toy_env (fun _ => amp_off))
                             (validation_settings "mae" (Some emt_steps))
                             validation_state validation_files toy_images
                             (Some emt_steps) amp_off "mae")
      as [[w' [[e f]|]]|x] eqn:E;
      [|vm_compute in E; discriminate|vm_compute in E; discriminate].
    exists w', e, f. split; [reflexivity|].
    refine (proj2 (cross_validate_mae_scenario
                     (toy_env (fun _ => amp_off))
                     (validation_settings "mae" (Some emt_steps))
                     validation_state validation_files w' toy_images
                     (Some emt_steps) amp_off "mae"
                     (labelled 0 1 zero3) (labelled 2 3 zero3) e f
                     _ _ _ _ _ _ _ _ E) _).
    + vm_compute; discriminate.
    + discriminate.
    + reflexivity.
    + repeat constructor.
    + reflexivity.
    + exists 1%Q. split; reflexivity.
    + reflexivity.
    + exists 3%Q. split; reflexivity.
    + vm_compute; discriminate.
Defined.

(** C5 (as stated) fails: the energy error of that scenario is not 0.1. *)
Lemma cross_validate_mae_scenario_not_one_tenth :
  exists w' e f,
    cross_validate (toy_env (fun _ => amp_off))
                   (validation_settings "mae" None) validation_state
                   validation_files toy_images None amp_off "mae"
    = Ok (w', Some (e, f))
    /\ ~ (e == 1 # 10)%Q.
Proof.
  do 3 eexists. split; [vm_compute; reflexivity|].
  intros H. vm_compute in H. discriminate.
Qed.

(** C6: under [fmax] the two errors are one and the same number, the
    [get_fmax] of the first training image, the interior images and the
    training image ranked last.  When the reference calculator is not
    GPAW, those interior images carry the energies and forces of the
    surrogate [amp_calc]: the reference calculator is never consulted. *)
Theorem cross_validate_fmax_scores_surrogate (env : collaborators)
    (cfg : settings) (st : run_state) (w w' : files)
    (neb_images : list Atoms) (calc : option calculator)
    (amp_calc : calculator) (a : option (Q * Q)) :
  class_name amp_calc <> "GPAW" ->
  calc_name cfg <> "GPAW" ->
  cross_validate env cfg st w neb_images calc amp_calc "fmax" = Ok (w', a) ->
  exists first last v,
    let interior :=
      map traj_write (map (set_calculator amp_calc) (slice_1_m1 neb_images)) in
    nth_error (training_set st) 0 = Some first
    /\ nth_error (training_set st) (S (List.length interior)) = Some last
    /\ get_fmax env (first :: interior ++ [last]) = Ok v
    /\ a = Some (v, v).
Proof.
  intros Hamp Hc H.
  destruct (cross_validate_anatomy _ _ _ _ _ _ _ _ _ _ Hamp H)
    as (first & interior & last & dft & H0 & H1 & Hint & _ & _ & _ & Hf & _).
  destruct (Hf eq_refl) as (v & Hv & Ha).
  destruct Hint as [[_ Hi]|[Hg _]]; [|contradiction].
  subst interior. exists first, last, v. cbv zeta. auto.
Qed.

Lemma cross_validate_fmax_scores_surrogate_witness :
  exists w' a,
    cross_validate (toy_env (fun _ => amp_pull))
                   (validation_settings "fmax" (Some emt_flat))
                   validation_state validation_files toy_images
                   (Some emt_flat) amp_pull "fmax"
    = Ok (w', a)
    /\ get_forces (set_calculator emt_flat (image_at 1)) = Ok [zero3]
    /\ exists first last v,
      let interior :=
        map traj_write (map (set_calculator amp_pull) (slice_1_m1 toy_images))
      in
      nth_error (training_set validation_state) 0 = Some first
      /\ nth_error (training_set validation_state) (S (List.length interior))
         = Some last
      /\ get_fmax (toy_env (fun _ => amp_pull)) (first :: interior ++ [last])
         = Ok v
      /\ a = Some (v, v).
Proof.
  do 2 eexists. split; [vm_compute; reflexivity|].
  split; [reflexivity|].
  eapply (cross_validate_fmax_scores_surrogate
            (toy_env (fun _ => amp_pull))
            (validation_settings "fmax" (Some emt_flat)) validation_state
            validation_files _ toy_images (Some emt_flat) amp_pull);
    [vm_compute; discriminate | vm_compute; discriminate
     | vm_compute; reflexivity].
Defined.

(** The same run, evaluated: the reference has no force on the interior
    image, the surrogate a force of norm 5, and 5 is what comes back. *)
Example cross_validate_fmax_returns_surrogate_force :
  get_forces (set_calculator emt_flat (image_at 1)) = Ok [zero3]
  /\ exists w' v,
       cross_validate (toy_env (fun _ => amp_pull))
                      (validation_settings "fmax" (Some emt_flat))
                      validation_state validation_files toy_images
                      (Some emt_flat) amp_pull "fmax"
       = Ok (w', Some (v, v))
       /\ (v == 5)%Q.
Proof.
  split; [reflexivity|].
  do 2 eexists. split; [vm_compute; reflexivity|]. reflexivity.
Qed.

(** ** Frame properties *)

Ltac crunch H :=
  first
    [ discriminate H
    | match type of H with
      | Ok _ = Ok _ => inversion H; subst; clear H
      | bind _ _ = Ok _ =>
          let a := fresh "a" in
          let Ha := fresh "Ha" in
          apply bind_Ok in H; destruct H as [a [Ha H]]; crunch Ha; crunch H
      | context [let '(_, _) := ?p in _] => destruct p; crunch H
      | context [if ?b then _ else _] => destruct b eqn:?; crunch H
      | context [match ?x with _ => _ end] => destruct x eqn:?; crunch H
      end
    | idtac ].

Lemma keeps_data_refl (w : files) : keeps_data w w.
Proof. unfold keeps_data. auto 10. Qed.

Lemma keeps_data_trans (w1 w2 w3 : files) :
  keeps_data w1 w2 -> keeps_data w2 w3 -> keeps_data w1 w3.
Proof. unfold keeps_data. intuition congruence. Qed.

Lemma keeps_data_log (t : string) (a : list log_arg) (w : files) :
  keeps_data w (log_write t a w).
Proof. unfold keeps_data. simpl. auto 10. Qed.

Lemma keeps_data_clean_dir (b : bool) (w : files) :
  keeps_data w (clean_dir b w).
Proof. destruct b; [apply keeps_data_log | apply keeps_data_refl]. Qed.

(** [set_calculators] that does not write the training set touches
    [calculator.traj], [input.traj], the script and the log only. *)
Lemma set_calculators_keeps_data (w w' : files) (images r : list Atoms)
    (c : option calculator) (name : string) (lg cv : bool) :
  set_calculators w images c name lg false cv = Ok (w', r) ->
  keeps_data w w' /\ images_from_neb_traj w' = images_from_neb_traj w.
Proof.
  unfold set_calculators, write_gpaw_file, run_gpaw. intros H.
  crunch H; unfold keeps_data; destruct lg; simpl; auto 10.
Qed.

(** [cross_validate] leaves the training set, the models and the band
    trajectories alone, and always writes [images_from_neb.traj]. *)
Lemma cross_validate_keeps_data (env : collaborators) (cfg : settings)
    (st : run_state) (w w' : files) (neb_images : list Atoms)
    (calc : option calculator) (amp_calc : calculator) (metric : string)
    (a : option (Q * Q)) :
  cross_validate env cfg st w neb_images calc amp_calc metric = Ok (w', a) ->
  keeps_data w w' /\ exists l, images_from_neb_traj w' = Some l.
Proof.
  unfold cross_validate. intros H.
  bind_inv H as p1 H1. destruct p1 as [w1 r1].
  bind_inv H as amp Hamp.
  bind_inv H as p2 H2. destruct p2 as [w2 r2].
  apply set_calculators_keeps_data in H1. destruct H1 as [H1 _].
  apply set_calculators_keeps_data in H2. destruct H2 as [H2 _].
  assert (K : keeps_data w w2).
  { eapply keeps_data_trans; [|exact H2].
    eapply keeps_data_trans; [|exact H1]. apply keeps_data_log. }
  crunch H; (split; [|simpl; eauto]);
    (eapply keeps_data_trans; [exact K|]);
    unfold keeps_data; simpl; auto 10.
Qed.

Lemma train_keeps (env : collaborators) (w w' : files)
    (ts : list Atoms) (label : string) :
  train env w ts label = Ok w' ->
  training_traj w' = training_traj w
  /\ images_from_neb_traj w' = images_from_neb_traj w
  /\ neb_trajs w' = neb_trajs w
  /\ optimizer_calls w' = optimizer_calls w
  /\ exists model, amp_train env label ts = Ok model
     /\ amp_files w' = (label +:+ ".amp", model) :: amp_files w.
Proof.
  unfold train. intros H. crunch H. simpl. eauto 10.
Qed.

(** A band run adds one entry to the record of optimizer calls, under the
    name of the current iteration and with the [fmax] it was given. *)
Lemma run_neb_band (env : collaborators) (cfg : settings) (st st' : run_state)
    (w w' : files) (images : list Atoms) (fmax' : option Q)
    (r : option (list Atoms)) :
  run_neb env cfg st w images false fmax' = Ok (w', st', r) ->
  exists i,
    iteration st = Some i
    /\ st' = with_traj ("neb_" +:+ pretty i +:+ ".traj") st
    /\ optimizer_calls w'
       = optimizer_calls w ++ [("neb_" +:+ pretty i +:+ ".traj", fmax')]
    /\ training_traj w' = training_traj w
    /\ images_from_neb_traj w' = images_from_neb_traj w
    /\ amp_files w' = amp_files w.
Proof.
  unfold run_neb, get_iteration. intros H. crunch H; simpl; eauto 10.
Qed.

(** What a retraining branch does once the images are in the training
    set: the training set on disk stays as it is, one model is saved, one
    band run is recorded at the current [fmax], a fresh report is stored,
    and the flag [final_fmax] is raised when the report is strictly within
    the tolerance at an [fmax] no larger than the target. *)
Lemma retrain_and_validate_inv (env : collaborators) (cfg : settings)
    (st st' : run_state) (w w' : files) (i : Z) (fmax' : Q) :
  retrain_and_validate env cfg st w i fmax' = Ok (w', st') ->
  iteration st' = iteration st
  /\ initialized st' = initialized st
  /\ trained st' = trained st
  /\ (exists a,
        achieved st' = Some (Some a)
        /\ final_fmax st'
           = final_fmax st
             || (Qltb (fst a) (tolerance cfg) && Qltb (snd a) (tolerance cfg)
                 && Qle_bool fmax' (fmax cfg)))
  /\ (exists j,
        iteration st = Some j
        /\ optimizer_calls w'
           = optimizer_calls w
             ++ [("neb_" +:+ pretty j +:+ ".traj", Some fmax')])
  /\ training_traj w' = training_traj w
  /\ training_traj w = Some (training_set st')
  /\ (exists l, images_from_neb_traj w' = Some l)
  /\ (exists model,
        amp_train env (pretty i) (training_set st') = Ok model
        /\ amp_files w' = (pretty i +:+ ".amp", model) :: amp_files w).
Proof.
  unfold retrain_and_validate, retrain, clean_train_data. intros H.
  bind_inv H as p1 H1. destruct p1 as [[w1 st1] newcalc].
  bind_inv H1 as ts Hts. bind_inv H1 as w0 Htrain.
  bind_inv H1 as c0 Hload. bind_inv H1 as imgs Himgs.
  inversion H1; subst w1 st1 newcalc; clear H1.
  apply train_keeps in Htrain.
  destruct Htrain as (T1 & T2 & T3 & T4 & model & Tm & T5).
  simpl in T1, T2, T3, T4, T5, Tm.
  bind_inv H as p2 H2. destruct p2 as [w2 images].
  apply set_calculators_keeps_data in H2. destruct H2 as [K2 I2].
  bind_inv H as p3 H3. destruct p3 as [w3 st3].
  bind_inv H as st4 H4.
  inversion H; subst w' st'; clear H.
  unfold band_and_validate in H3.
  bind_inv H3 as p5 H5. destruct p5 as [[w5 st5] r5].
  apply run_neb_band in H5.
  destruct H5 as (j & Hj & Hst5 & Hcalls & R1 & R2 & R3).
  bind_inv H3 as path Hpath. bind_inv H3 as l Hl.
  bind_inv H3 as c1 Hc1. bind_inv H3 as p6 H6. destruct p6 as [w6 a6].
  apply cross_validate_keeps_data in H6. destruct H6 as [K6 [l6 I6]].
  inversion H3; subst w3 st3; clear H3.
  unfold update_final_fmax, get_achieved in H4. simpl in H4.
  destruct a6 as [a|]; simpl in H4; [|discriminate].
  unfold keeps_data in *. simpl in *.
  destruct K2 as (K21 & K22 & K23 & K24 & K25).
  destruct K6 as (K61 & K62 & K63 & K64 & K65).
  unfold traj_read in Hts. destruct (training_traj w) as [ts0|] eqn:Ets;
    inversion Hts; subst ts0.
  assert (Hfr : iteration st4 = iteration st
                /\ initialized st4 = initialized st
                /\ trained st4 = trained st
                /\ achieved st4 = Some (Some a)
                /\ training_set st4 = ts
                /\ final_fmax st4
                   = final_fmax st
                     || (Qltb (fst a) (tolerance cfg)
                         && Qltb (snd a) (tolerance cfg)
                         && Qle_bool fmax' (fmax cfg))).
  { destruct (Qltb (fst a) (tolerance cfg) && Qltb (snd a) (tolerance cfg)
              && Qle_bool fmax' (fmax cfg));
      inversion H4; subst st4 st5; simpl;
      rewrite ?orb_true_r, ?orb_false_r; auto 10. }
  destruct Hfr as (F1 & F2 & F3 & F4 & F5 & F6).
  repeat split; try assumption.
  - exists a. split; assumption.
  - exists j. simpl in Hj. split; [exact Hj|].
    rewrite K65, Hcalls, K25, T4. reflexivity.
  - rewrite K61, R1, K21. exact T1.
  - rewrite F5. reflexivity.
  - rewrite I6. eauto.
  - exists model. rewrite F5. split; [exact Tm|].
    rewrite K63, R3, K23. exact T5.
Qed.

(** ** One pass through the loop *)

Lemma add_images_from_neb_missing (msg : string) (w : files) :
  images_from_neb_traj w = None ->
  add_images_from_neb msg w
  = (log_write "Aborting...\n" [] (log_write msg [] w), None).
Proof. unfold add_images_from_neb. intros ->. reflexivity. Qed.

Lemma add_images_from_neb_present (msg : string) (w : files)
    (l : list Atoms) :
  images_from_neb_traj w = Some l ->
  add_images_from_neb msg w
  = (with_training (traj_append (training_traj w) (slice_1_m1 l)) w,
     Some (List.length (slice_1_m1 l))).
Proof. unfold add_images_from_neb. intros ->. reflexivity. Qed.


Lemma consume_and_retrain_exit (env : collaborators) (cfg : settings)
    (st st' : run_state) (w w' : files) (i : Z) (fmax' : Q) (b : bool)
    (missing added : string) :
  consume_and_retrain env cfg st w i fmax' b missing added = Exit st' w' ->
  images_from_neb_traj w = None /\ st' = st
  /\ w' = log_write "Aborting...\n" [] (log_write missing [] w).
Proof.
  unfold consume_and_retrain, add_images_from_neb, lift. intros H.
  destruct (images_from_neb_traj w); [|inversion H; auto].
  destruct b;
    [destruct (retrain_at_target _ _ _ _ _) as [[? ?]|]
    |destruct (retrain_and_validate _ _ _ _ _ _) as [[? ?]|]];
    discriminate H.
Qed.

Lemma retrain_at_target_raises (env : collaborators) (cfg : settings)
    (st : run_state) (w : files) (i : Z) :
  exists e, retrain_at_target env cfg st w i = Raise e.
Proof.
  unfold retrain_at_target.
  destruct (retrain env cfg st w i) as [[[? ?] ?]|e]; simpl; eauto.
Qed.

Lemma consume_and_retrain_continue (env : collaborators) (cfg : settings)
    (st st' : run_state) (w w' : files) (i : Z) (fmax' f' : Q) (b : bool)
    (missing added : string) :
  consume_and_retrain env cfg st w i fmax' b missing added
  = Continue st' w' f' ->
  exists l,
    images_from_neb_traj w = Some l /\ b = false /\ f' = fmax'
    /\ retrain_and_validate env cfg st
         (log_write added [ArgN (List.length (slice_1_m1 l))]
            (with_training (traj_append (training_traj w) (slice_1_m1 l)) w))
         i fmax' = Ok (w', st').
Proof.
  unfold consume_and_retrain, add_images_from_neb, lift. intros H.
  destruct (images_from_neb_traj w) as [l|]; [|discriminate H].
  exists l. destruct b.
  - destruct (retrain_at_target_raises env cfg st
                (log_write added [ArgN (List.length (slice_1_m1 l))]
                   (with_training
                      (traj_append (training_traj w) (slice_1_m1 l)) w)) i)
      as [e He].
    rewrite He in H. discriminate H.
  - destruct (retrain_and_validate _ _ _ _ _ _) as [[w1 st1]|];
      inversion H; subst. auto.
Qed.

Lemma consume_and_retrain_no_break (env : collaborators) (cfg : settings)
    (st st' : run_state) (w w' : files) (i : Z) (fmax' f' : Q) (b : bool)
    (missing added : string) (r : status) :
  consume_and_retrain env cfg st w i fmax' b missing added
  <> Break r st' w' f'.
Proof.
  unfold consume_and_retrain, add_images_from_neb, lift. intros H.
  destruct (images_from_neb_traj w); [|discriminate H].
  destruct b;
    [destruct (retrain_at_target _ _ _ _ _) as [[? ?]|]
    |destruct (retrain_and_validate _ _ _ _ _ _) as [[? ?]|]];
    discriminate H.
Qed.

Lemma get_achieved_Ok (st : run_state) (a : Q * Q) :
  get_achieved st = Ok a <-> achieved st = Some (Some a).
Proof.
  unfold get_achieved. destruct (achieved st) as [[b|]|];
    split; intros H; inversion H; reflexivity.
Qed.

Lemma get_iteration_Ok (st : run_state) (i : Z) :
  get_iteration st = Ok i <-> iteration st = Some i.
Proof.
  unfold get_iteration. destruct (iteration st);
    split; intros H; inversion H; reflexivity.
Qed.

Ltac split_body H :=
  repeat (cbv beta iota zeta in H;
          match type of H with
          | context [if ?b then _ else _] => destruct b eqn:?
          | context [match ?x with _ => _ end] => destruct x eqn:?
          end);
  cbv beta iota zeta in H.

(** A pass that breaks out of the loop ran nothing: the report it read
    does not exceed the tolerance, and the files other than the log are as
    before.  [EXHAUSTED] is reached at iteration [maxiter]; [CONVERGED]
    with [fmax] at its target and the flag [final_fmax] raised. *)
Lemma loop_body_break (env : collaborators) (cfg : settings)
    (st st' : run_state) (w w' : files) (fmax' f' : Q) (r : status) :
  loop_body env cfg st w fmax' = Break r st' w' f' ->
  exists i0 a,
    iteration st = Some i0
    /\ achieved st = Some (Some a)
    /\ st' = with_iteration (i0 + 1) st
    /\ f' = next_fmax cfg fmax'
    /\ exceeds cfg a = false
    /\ keeps_data w w'
    /\ images_from_neb_traj w' = images_from_neb_traj w
    /\ match r with
       | EXHAUSTED => (i0 + 1)%Z = maxiter cfg
       | CONVERGED => (i0 + 1)%Z <> maxiter cfg
                      /\ Qeq_bool f' (fmax cfg) = true
                      /\ final_fmax st = true
       end.
Proof.
  unfold loop_body. intros H.
  split_body H; try discriminate H;
    try (exfalso; eapply consume_and_retrain_no_break; exact H);
    inversion H; subst; clear H;
    match goal with
    | Hi : get_iteration _ = Ok ?i, Ha : get_achieved _ = Ok ?a |- _ =>
        apply get_iteration_Ok in Hi; apply get_achieved_Ok in Ha;
        exists i, a
    end;
    unfold next_fmax, exceeds, keeps_data;
    repeat match goal with
           | E : _ = _ |- _ => rewrite E
           end;
    simpl;
    repeat split; auto;
    try (apply Z.eqb_eq; assumption);
    try (apply Z.eqb_neq; assumption);
    try (apply andb_true_iff in Heqb3; tauto).
Qed.

(** A pass after which the loop goes on has added the interior images of
    [images_from_neb.traj] to the training set and run one retraining
    branch at the new [fmax]. *)
Lemma loop_body_continue (env : collaborators) (cfg : settings)
    (st st' : run_state) (w w' : files) (fmax' f' : Q) :
  loop_body env cfg st w fmax' = Continue st' w' f' ->
  exists i0 a l wmid,
    iteration st = Some i0
    /\ achieved st = Some (Some a)
    /\ Qeq_bool (get_step cfg) 0 = false
    /\ f' = next_fmax cfg fmax'
    /\ (exceeds cfg a = true
        \/ (exceeds cfg a = false
            /\ (i0 + 1)%Z <> maxiter cfg
            /\ Qeq_bool f' (fmax cfg) && final_fmax st = false))
    /\ images_from_neb_traj w = Some l
    /\ training_traj wmid = traj_append (training_traj w) (slice_1_m1 l)
    /\ optimizer_calls wmid = optimizer_calls w
    /\ amp_files wmid = amp_files w
    /\ retrain_and_validate env cfg (with_iteration (i0 + 1) st) wmid
                            (i0 + 1) f' = Ok (w', st').
Proof.
  unfold loop_body. intros H.
  split_body H; try discriminate H;
    apply consume_and_retrain_continue in H;
    destruct H as (l & Hl & Hb & Hf & H); subst f';
    match goal with
    | Hi : get_iteration _ = Ok ?i, Ha : get_achieved _ = Ok ?a |- _ =>
        apply get_iteration_Ok in Hi; apply get_achieved_Ok in Ha;
        simpl in Ha; exists i, a, l
    end;
    match type of H with
    | retrain_and_validate _ _ _ ?wm _ _ = _ => exists wm
    end;
    simpl in Hl; repeat split; try assumption; try reflexivity;
    try (unfold next_fmax;
         repeat match goal with
                | E : _ || _ = _ |- _ => rewrite E
                end; reflexivity);
    unfold exceeds; simpl;
    first [left; assumption
          | right; repeat split;
            [assumption | apply Z.eqb_neq; assumption | assumption]].
Qed.

(** A pass that ends in [exit()] has found [images_from_neb.traj]
    missing; the training set, the models and the record of band runs are
    as before, and the last line of the log is the abort message. *)
Lemma loop_body_exit (env : collaborators) (cfg : settings)
    (st st' : run_state) (w w' : files) (fmax' : Q) :
  loop_body env cfg st w fmax' = Exit st' w' ->
  images_from_neb_traj w = None
  /\ images_from_neb_traj w' = None
  /\ keeps_data w w'
  /\ training_set st' = training_set st
  /\ exists before, logfile w' = before ++ [aborting].
Proof.
  unfold loop_body. intros H.
  split_body H; try discriminate H;
    apply consume_and_retrain_exit in H;
    destruct H as (Hn & -> & ->); simpl in Hn;
    unfold keeps_data; simpl; rewrite ?Hn; repeat split; eauto.
Qed.

Lemma consume_and_retrain_missing (env : collaborators) (cfg : settings)
    (st : run_state) (w : files) (i : Z) (fmax' : Q) (b : bool)
    (missing added : string) :
  images_from_neb_traj w = None ->
  consume_and_retrain env cfg st w i fmax' b missing added
  = Exit st (log_write "Aborting...\n" [] (log_write missing [] w)).
Proof.
  intros H. unfold consume_and_retrain.
  rewrite (add_images_from_neb_missing _ _ H). reflexivity.
Qed.

(** C7: when a pass reaches a block that reads [images_from_neb.traj] and
    the file is not there, the run exits at once: the abort message is the
    last line of the log, nothing is added to the training set, no model is
    trained and no band is run. *)
Theorem missing_images_file_aborts (env : collaborators) (cfg : settings)
    (st : run_state) (w : files) (fmax' : Q) :
  images_from_neb_traj w = None ->
  consumes_images cfg st fmax' = true ->
  exists st' w',
    loop_body env cfg st w fmax' = Exit st' w'
    /\ training_traj w' = training_traj w
    /\ training_set st' = training_set st
    /\ amp_files w' = amp_files w
    /\ optimizer_calls w' = optimizer_calls w
    /\ exists before, logfile w' = before ++ [aborting].
Proof.
  intros Hn Hc.
  assert (E : exists st' w', loop_body env cfg st w fmax' = Exit st' w').
  { unfold consumes_images in Hc.
    destruct (iteration st) as [i0|] eqn:Hi; [|discriminate].
    destruct (achieved st) as [[a|]|] eqn:Ha; try discriminate.
    apply andb_true_iff in Hc. destruct Hc as [Hs Hc].
    apply negb_true_iff in Hs.
    unfold loop_body, get_iteration, get_achieved. rewrite Hi. simpl.
    rewrite Hs, Ha. unfold next_fmax, exceeds in Hc.
    destruct (Qltb (fmax' / get_step cfg) (fmax cfg)
              || Qeq_bool (fmax' / get_step cfg) (fmax cfg)); cbv iota;
      (destruct (Qgtb (fst a) (tolerance cfg) || Qgtb (snd a) (tolerance cfg));
       [destruct (i0 + 1 - 1 =? 0)%Z;
        rewrite consume_and_retrain_missing by exact Hn; eauto
       |simpl in Hc; apply negb_true_iff, orb_false_iff in Hc;
        destruct Hc as [Hm Hf]; rewrite Hm, Hf;
        rewrite consume_and_retrain_missing by exact Hn; eauto]). }
  destruct E as (st' & w' & E). exists st', w'.
  split; [exact E|].
  apply loop_body_exit in E.
  destruct E as (_ & _ & (K1 & K2 & K3 & K4 & K5) & Hts & Hlog).
  auto 10.
Qed.

Lemma missing_images_file_aborts_witness :
  exists st' w',
    loop_body (toy_env (fun _ => amp_pull))
              (validation_settings "fmax" (Some emt_flat))
              (with_achieved (Some (1, 1)%Q)
                 (with_iteration 0 validation_state))
              validation_files (1 # 20)
    = Exit st' w'
    /\ training_traj w' = training_traj validation_files
    /\ training_set st' = training_set validation_state
    /\ amp_files w' = amp_files validation_files
    /\ optimizer_calls w' = optimizer_calls validation_files
    /\ exists before, logfile w' = before ++ [aborting].
Proof.
  apply (missing_images_file_aborts
           (toy_env (fun _ => amp_pull))
           (validation_settings "fmax" (Some emt_flat))
           (with_achieved (Some (1, 1)%Q) (with_iteration 0 validation_state))
           validation_files (1 # 20)); reflexivity.
Defined.

(** ** The loop *)

(** C1: with [maxiter] at 2 and a surrogate whose report is 5 against a
    tolerance of 1 at every iteration, the loop is still running after 5
    passes: it is at iteration 5, has run 6 bands, and the report still
    exceeds the tolerance.  The test on [maxiter] is never reached. *)
Theorem accelerate_runs_past_maxiter :
  maxiter (run_settings 2 (1 # 20) (1 # 20) None) = 2%Z
  /\ exists st w f,
       accelerate (toy_env (fun _ => amp_pull))
                  (run_settings 2 (1 # 20) (1 # 20) None) 5
                  initialized_state run_files
       = Continue st w f
       /\ iteration st = Some 5%Z
       /\ List.length (optimizer_calls w) = 6%nat
       /\ exists a, achieved st = Some (Some a)
                    /\ exceeds (run_settings 2 (1 # 20) (1 # 20) None) a = true.
Proof.
  split; [reflexivity|].
  do 3 eexists. split; [vm_compute; reflexivity|].
  split; [reflexivity|]. split; [reflexivity|].
  eexists. split; [reflexivity|]. vm_compute. reflexivity.
Qed.

Lemma Qltb_lt (x y : Q) : Qltb x y = true <-> (x < y)%Q.
Proof.
  unfold Qltb. rewrite negb_true_iff. split.
  - intros H. apply Qnot_le_lt. intros Hle.
    apply Qle_bool_iff in Hle. congruence.
  - intros H. destruct (Qle_bool y x) eqn:E; [|reflexivity].
    apply Qle_bool_iff in E. exfalso. exact (Qlt_not_le _ _ H E).
Qed.

Lemma Qltb_ge (x y : Q) : Qltb x y = false <-> (y <= x)%Q.
Proof.
  unfold Qltb. rewrite negb_false_iff. apply Qle_bool_iff.
Qed.

(** The clamp: [fmax] never goes below the target. *)
Lemma next_fmax_ge (cfg : settings) (f : Q) :
  (fmax cfg <= next_fmax cfg f)%Q.
Proof.
  unfold next_fmax.
  destruct (Qltb (f / get_step cfg) (fmax cfg)
            || Qeq_bool (f / get_step cfg) (fmax cfg)) eqn:E.
  - apply Qle_refl.
  - apply orb_false_iff in E. destruct E as [E _].
    apply Qltb_ge. exact E.
Qed.

Lemma next_fmax_clamped (cfg : settings) (f : Q) :
  (f / get_step cfg <= fmax cfg)%Q -> next_fmax cfg f = fmax cfg.
Proof.
  intros H. unfold next_fmax.
  destruct (Qltb (f / get_step cfg) (fmax cfg)) eqn:E1; [reflexivity|].
  destruct (Qeq_bool (f / get_step cfg) (fmax cfg)) eqn:E2; [reflexivity|].
  exfalso. apply Qltb_ge in E1.
  assert (Heq : (f / get_step cfg == fmax cfg)%Q) by (apply Qle_antisym; assumption).
  apply Qeq_bool_iff in Heq. congruence.
Qed.

Lemma next_fmax_free (cfg : settings) (f : Q) :
  (fmax cfg < f / get_step cfg)%Q ->
  next_fmax cfg f = (f / get_step cfg)%Q.
Proof.
  intros H. unfold next_fmax.
  destruct (Qltb (f / get_step cfg) (fmax cfg)) eqn:E1.
  - apply Qltb_lt in E1. exfalso.
    exact (Qlt_irrefl _ (Qlt_trans _ _ _ H E1)).
  - destruct (Qeq_bool (f / get_step cfg) (fmax cfg)) eqn:E2; [|reflexivity].
    apply Qeq_bool_iff in E2. rewrite E2 in H.
    exfalso. exact (Qlt_irrefl _ H).
Qed.

(** Induction over the passes of the loop: a property of the loop state
    that every pass keeps holds where the run stands after [n] passes, and
    held where the last pass started when the run has stopped. *)
Lemma accelerate_loop_invariant (env : collaborators) (cfg : settings)
    (P : run_state -> files -> Q -> Prop) :
  (forall st w f st' w' f',
      P st w f -> loop_body env cfg st w f = Continue st' w' f' ->
      P st' w' f') ->
  forall n st w f,
    P st w f ->
    match accelerate_loop env cfg n st w f with
    | Continue st' w' f' => P st' w' f'
    | Break r st' w' f' =>
        exists st0 w0 f0,
          P st0 w0 f0 /\ loop_body env cfg st0 w0 f0 = Break r st' w' f'
    | Exit st' w' =>
        exists st0 w0 f0,
          P st0 w0 f0 /\ loop_body env cfg st0 w0 f0 = Exit st' w'
    | Raised _ => True
    end.
Proof.
  intros Hstep n. induction n as [|n IH]; intros st w f HP; simpl.
  - exact HP.
  - destruct (loop_body env cfg st w f) as [st1 w1 f1|r st1 w1 f1|st1 w1|e] eqn:E.
    + apply IH. eapply Hstep; eassumption.
    + eauto.
    + eauto.
    + exact I.
Qed.

(** Iteration 0: the model is trained on the training set as it stands,
    one band is run at [ifmax], and a first report is stored; the flag
    [final_fmax] is not touched. *)
Lemma bootstrap_inv (env : collaborators) (cfg : settings)
    (st st' : run_state) (w w' : files) :
  bootstrap env cfg st w = Ok (w', st') ->
  iteration st' = Some 0%Z
  /\ final_fmax st' = final_fmax st
  /\ (exists a, achieved st' = Some a)
  /\ optimizer_calls w'
     = optimizer_calls w ++ [("neb_0.traj", Some (ifmax cfg))]
  /\ training_traj w' = training_traj w
  /\ training_traj w = Some (training_set st')
  /\ (exists l, images_from_neb_traj w' = Some l)
  /\ (exists model,
        amp_train env "0" (training_set st') = Ok model
        /\ amp_files w' = ("0.amp", model) :: amp_files w).
Proof.
  unfold bootstrap, clean_train_data. intros H.
  bind_inv H as ts Hts. bind_inv H as w0 Htrain.
  bind_inv H as c0 Hload. bind_inv H as l0 Hl0.
  bind_inv H as p2 H2. destruct p2 as [w2 images].
  bind_inv H as p5 H5. destruct p5 as [[w5 st5] r5].
  bind_inv H as path Hpath. bind_inv H as l Hl.
  bind_inv H as c1 Hc1. bind_inv H as p6 H6. destruct p6 as [w6 a6].
  inversion H; subst w' st'; clear H.
  apply train_keeps in Htrain.
  destruct Htrain as (T1 & T2 & T3 & T4 & model & Tm & T5).
  apply set_calculators_keeps_data in H2. destruct H2 as [K2 I2].
  apply run_neb_band in H5.
  destruct H5 as (j & Hj & Hst5 & Hcalls & R1 & R2 & R3).
  apply cross_validate_keeps_data in H6. destruct H6 as [K6 [l6 I6]].
  unfold keeps_data in *. simpl in *.
  destruct K2 as (K21 & K22 & K23 & K24 & K25).
  destruct K6 as (K61 & K62 & K63 & K64 & K65).
  unfold traj_read in Hts. destruct (training_traj w) as [ts0|] eqn:Ets;
    inversion Hts; subst ts0.
  inversion Hj; subst j. subst st5. simpl.
  repeat split; try reflexivity.
  - eauto.
  - rewrite K65, Hcalls, K25, T4. reflexivity.
  - rewrite K61, R1, K21. exact T1.
  - rewrite I6. eauto.
  - exists model. split; [exact Tm|]. rewrite K63, R3, K23. exact T5.
Qed.

Lemma exceeds_not_within (cfg : settings) (a : Q * Q) :
  exceeds cfg a = true ->
  (fst a < tolerance cfg)%Q -> (snd a < tolerance cfg)%Q -> False.
Proof.
  unfold exceeds, Qgtb. intros H H1 H2.
  apply orb_true_iff in H. destruct H as [H|H]; apply Qltb_lt in H.
  - exact (Qlt_irrefl _ (Qlt_trans _ _ _ H H1)).
  - exact (Qlt_irrefl _ (Qlt_trans _ _ _ H H2)).
Qed.

(** Arithmetic of the clamp once [fmax] is at the target. *)
Lemma Qdiv_zero (t s : Q) : (s == 0)%Q -> (t / s == 0)%Q.
Proof.
  intros Hs. unfold Qdiv. rewrite Hs.
  change (/ 0)%Q with 0%Q. apply Qmult_0_r.
Qed.

Lemma Qdiv_escape (t f s : Q) :
  (0 <= t \/ 0 < s)%Q -> (f == t)%Q -> (t < f / s)%Q ->
  ((0 < f / s /\ 0 < s /\ s < 1) \/ (f / s < 0 /\ 1 < s))%Q.
Proof.
  intros Hpos Hf Hlt.
  destruct (Q_dec s 0) as [[Hs|Hs]|Hs].
  - exfalso.
    assert (Hm : (s * (f / s) == f)%Q)
      by (apply Qmult_div_r; intros E; rewrite E in Hs;
          exact (Qlt_irrefl _ Hs)).
    set (d := (f / s)%Q) in *.
    destruct Hpos as [Hpos|Hpos]; [nra|lra].
  - assert (Hm : (s * (f / s) == f)%Q)
      by (apply Qmult_div_r; intros E; rewrite E in Hs;
          exact (Qlt_irrefl _ Hs)).
    set (d := (f / s)%Q) in *.
    destruct (Qlt_le_dec t 0) as [Ht|Ht].
    + right. split; [nra|].
      destruct (Qlt_le_dec 1 s) as [H1|H1]; [exact H1|]. exfalso. nra.
    + left. split; [lra|]. split; [exact Hs|].
      destruct (Qlt_le_dec s 1) as [H1|H1]; [exact H1|]. exfalso. nra.
  - exfalso. rewrite (Qdiv_zero f s Hs) in Hlt.
    destruct Hpos as [Hpos|Hpos]; [lra|].
    rewrite Hs in Hpos. exact (Qlt_irrefl _ Hpos).
Qed.

Lemma escaped_next (cfg : settings) (f : Q) :
  escaped cfg f ->
  escaped cfg (f / get_step cfg) /\ next_fmax cfg f = (f / get_step cfg)%Q.
Proof.
  unfold escaped. intros [Hf Hm].
  assert (Hs : (0 < get_step cfg)%Q) by (destruct Hm as [?|?]; lra).
  assert (Hd : (get_step cfg * (f / get_step cfg) == f)%Q)
    by (apply Qmult_div_r; intros E; rewrite E in Hs;
        exact (Qlt_irrefl _ Hs)).
  assert (Hup : (f < f / get_step cfg)%Q).
  { set (d := (f / get_step cfg)%Q) in *. set (s := get_step cfg) in *.
    destruct Hm as [(H0 & H1 & H2)|(H0 & H1)]; nra. }
  assert (Hgt : (fmax cfg < f / get_step cfg)%Q) by lra.
  split; [|apply next_fmax_free; exact Hgt].
  split; [exact Hgt|].
  set (d := (f / get_step cfg)%Q) in *. set (s := get_step cfg) in *.
  destruct Hm as [(H0 & H1 & H2)|(H0 & H1)].
  - left. repeat split; [lra|assumption|assumption].
  - right. split; [nra|assumption].
Qed.

Lemma next_fmax_off_target (cfg : settings) (f : Q) :
  Qeq_bool (next_fmax cfg f) (fmax cfg) = false ->
  (fmax cfg < f / get_step cfg)%Q
  /\ next_fmax cfg f = (f / get_step cfg)%Q.
Proof.
  unfold next_fmax. intros H.
  destruct (Qltb (f / get_step cfg) (fmax cfg)) eqn:E1; simpl in H.
  - exfalso. assert (Ht : Qeq_bool (fmax cfg) (fmax cfg) = true)
      by (apply Qeq_bool_iff; reflexivity). congruence.
  - destruct (Qeq_bool (f / get_step cfg) (fmax cfg)) eqn:E2.
    + exfalso. assert (Ht : Qeq_bool (fmax cfg) (fmax cfg) = true)
        by (apply Qeq_bool_iff; reflexivity). congruence.
    + split; [|reflexivity].
      apply Qltb_ge in E1. apply Qle_lt_or_eq in E1.
      destruct E1 as [E1|E1]; [exact E1|].
      exfalso. symmetry in E1. apply Qeq_bool_iff in E1. congruence.
Qed.

(** With a target that is not negative, or a positive step, every pass
    keeps the flag settled. *)
Lemma flag_settled_step (env : collaborators) (cfg : settings)
    (st st' : run_state) (w w' : files) (f f' : Q) :
  (0 <= fmax cfg \/ 0 < get_step cfg)%Q ->
  flag_settled cfg st w f ->
  loop_body env cfg st w f = Continue st' w' f' ->
  flag_settled cfg st' w' f'.
Proof.
  intros Hpos HP H.
  apply loop_body_continue in H.
  destruct H as (i0 & a & l & wmid & Hi & Ha & Hs & Hf & Hc & Hl & Ht & Ho
                 & Hamp & H).
  apply retrain_and_validate_inv in H.
  destruct H as (_ & _ & _ & (a' & Ha' & Hfin) & (j & Hj & Hcalls) & _).
  simpl in Hfin.
  destruct (final_fmax st) eqn:Eflag.
  - intros _. left.
    destruct (HP Eflag) as [Hesc|Hsound].
    + destruct (escaped_next cfg f Hesc) as [He Hn].
      rewrite Hf, Hn. exact He.
    + destruct (Hsound Eflag) as ((a0 & Ha0 & H1 & H2) & Hq & _).
      rewrite Ha in Ha0. inversion Ha0; subst a0.
      destruct Hc as [Hc|(_ & _ & Hc)].
      * exfalso. exact (exceeds_not_within _ _ Hc H1 H2).
      * rewrite andb_true_r in Hc. rewrite Hf in Hc.
        destruct (next_fmax_off_target cfg f Hc) as [Hgt Hn].
        rewrite Hf, Hn. split; [exact Hgt|].
        apply (Qdiv_escape (fmax cfg)); assumption.
  - simpl in Hfin. intros Hset. right. intros _.
    rewrite Hset in Hfin. symmetry in Hfin.
    apply andb_true_iff in Hfin. destruct Hfin as [Hfin Hle].
    apply andb_true_iff in Hfin. destruct Hfin as [H1 H2].
    apply Qltb_lt in H1. apply Qltb_lt in H2. apply Qle_bool_iff in Hle.
    assert (Hq : (f' == fmax cfg)%Q).
    { apply Qle_antisym; [exact Hle|]. rewrite Hf. apply next_fmax_ge. }
    split; [exists a'; auto|]. split; [exact Hq|].
    exists (optimizer_calls wmid), ("neb_" +:+ pretty j +:+ ".traj"), f'.
    split; [exact Hcalls | exact Hq].
Qed.

(** C2 (as the code has it): when the flag [final_fmax] is down as the
    call starts, as it is at the first call on an object, and the target
    is not negative or the step is positive, the loop declares convergence
    only with a report strictly within the tolerance for the energies and
    for the forces, with [fmax] at its target, and the last band was run
    at the target. *)
Theorem converged_requires_joint_condition (env : collaborators)
    (cfg : settings) (n : nat) (st st' : run_state) (w w' : files) (f' : Q) :
  final_fmax st = false ->
  (0 <= fmax cfg \/ 0 < get_step cfg)%Q ->
  accelerate env cfg n st w = Break CONVERGED st' w' f' ->
  exists a calls name q,
    achieved st' = Some (Some a)
    /\ (fst a < tolerance cfg)%Q /\ (snd a < tolerance cfg)%Q
    /\ (f' == fmax cfg)%Q
    /\ optimizer_calls w' = calls ++ [(name, Some q)]
    /\ (q == fmax cfg)%Q.
Proof.
  intros Hfin Hpos H.
  assert (Hloop : exists st1 w1, final_fmax st1 = false
            /\ accelerate_loop env cfg n st1 w1 (ifmax cfg)
               = Break CONVERGED st' w' f').
  { unfold accelerate in H.
    destruct (initialized st && negb (trained st)); [|eauto].
    destruct (bootstrap env cfg st w) as [[w1 st1]|e] eqn:B; [|discriminate].
    apply bootstrap_inv in B. destruct B as (_ & B & _).
    exists st1, w1. split; [congruence|exact H]. }
  destruct Hloop as (st1 & w1 & Hfin1 & Hloop).
  pose proof (accelerate_loop_invariant env cfg (flag_settled cfg)
                (fun st w f st' w' f' HP Hb =>
                   flag_settled_step env cfg st st' w w' f f' Hpos HP Hb)
                n st1 w1 (ifmax cfg)) as Hinv.
  rewrite Hloop in Hinv.
  destruct Hinv as (st0 & w0 & f0 & HP & Hb).
  { intros Habs. congruence. }
  apply loop_body_break in Hb.
  destruct Hb as (i0 & a & Hi & Ha & Hst & Hf & Hex & Hk & _ & _ & Hq & Hflag).
  destruct (HP Hflag) as [Hesc|Hsound].
  { exfalso. destruct (escaped_next cfg f0 Hesc) as [[Hgt _] Hn].
    rewrite Hf, Hn in Hq. apply Qeq_bool_iff in Hq. rewrite Hq in Hgt.
    exact (Qlt_irrefl _ Hgt). }
  destruct (Hsound Hflag)
    as ((a0 & Ha0 & H1 & H2) & _ & calls & name & q & Hc & Hq').
  rewrite Ha in Ha0. inversion Ha0; subst a0.
  exists a, calls, name, q. subst st'. simpl.
  destruct Hk as (_ & _ & _ & _ & Hk).
  repeat split; try assumption.
  - apply Qeq_bool_iff. exact Hq.
  - rewrite Hk. exact Hc.
Qed.

Lemma converged_requires_joint_condition_witness :
  exists st' w' f',
    accelerate (toy_env amp_rough_start)
               (run_settings 200 (1 # 20) (1 # 10) (Some 2%Q)) 2
               initialized_state run_files
    = Break CONVERGED st' w' f'
    /\ exists a calls name q,
         achieved st' = Some (Some a)
         /\ (fst a < tolerance (run_settings 200 (1 # 20) (1 # 10)
                                             (Some 2%Q)))%Q
         /\ (snd a < tolerance (run_settings 200 (1 # 20) (1 # 10)
                                             (Some 2%Q)))%Q
         /\ (f' == fmax (run_settings 200 (1 # 20) (1 # 10) (Some 2%Q)))%Q
         /\ optimizer_calls w' = calls ++ [(name, Some q)]
         /\ (q == fmax (run_settings 200 (1 # 20) (1 # 10) (Some 2%Q)))%Q.
Proof.
  do 3 eexists. split; [vm_compute; reflexivity|].
  eapply (converged_requires_joint_condition
            (toy_env amp_rough_start)
            (run_settings 200 (1 # 20) (1 # 10) (Some 2%Q)) 2
            initialized_state _ run_files);
    [reflexivity | left; vm_compute; discriminate | vm_compute; reflexivity].
Defined.

(** C2 (as stated) fails when [accelerate] is called again on the object:
    the flag [final_fmax] is never lowered.  With a target of 0.05, a first
    [fmax] of 0.1, a step of 2 and a tolerance of 1, the first call
    converges after two passes and leaves the flag raised; the second call
    trains and runs its band of iteration 0 at 0.1, whose report equals the
    tolerance, and its first pass declares convergence on that report. *)
Lemma converged_on_second_call :
  exists st1 w1 f1 st2 w2 f2 a,
    final_fmax initialized_state = false
    /\ accelerate (toy_env amp_rough_start)
                  (run_settings 200 (1 # 20) (1 # 10) (Some 2%Q)) 2
                  initialized_state run_files
       = Break CONVERGED st1 w1 f1
    /\ accelerate (toy_env amp_rough_start)
                  (run_settings 200 (1 # 20) (1 # 10) (Some 2%Q)) 1
                  st1 w1
       = Break CONVERGED st2 w2 f2
    /\ achieved st2 = Some (Some a)
    /\ ~ (fst a < tolerance (run_settings 200 (1 # 20) (1 # 10)
                                          (Some 2%Q)))%Q
    /\ ~ (snd a < tolerance (run_settings 200 (1 # 20) (1 # 10)
                                          (Some 2%Q)))%Q
    /\ (f2 == 1 # 20)%Q
    /\ exists calls name q,
         optimizer_calls w2 = calls ++ [(name, Some q)] /\ (q == 1 # 10)%Q.
Proof.
  do 7 eexists. split; [reflexivity|].
  split; [vm_compute; reflexivity|].
  split; [vm_compute; reflexivity|].
  split; [reflexivity|].
  split; [intros H; vm_compute in H; discriminate|].
  split; [intros H; vm_compute in H; discriminate|].
  split; [vm_compute; reflexivity|].
  eexists [_; _], _, _. split; [vm_compute; reflexivity|].
  vm_compute. reflexivity.
Qed.

(** The condition on the target and the step is needed: with a target of
    -1, a step of -1, a first [fmax] of 1 and a tolerance of 1, a first
    call declares convergence at its third pass on a report equal to the
    tolerance, which the band of iteration 2 produced at an [fmax] of 1. *)
Lemma negative_target_and_step_converge :
  exists st' w' f' a,
    accelerate (toy_env amp_by_label)
               (run_settings 200 (-1) 1 (Some (-1)%Q)) 3
               initialized_state run_files
    = Break CONVERGED st' w' f'
    /\ achieved st' = Some (Some a)
    /\ ~ (fst a < tolerance (run_settings 200 (-1) 1 (Some (-1)%Q)))%Q
    /\ ~ (snd a < tolerance (run_settings 200 (-1) 1 (Some (-1)%Q)))%Q
    /\ thresholds w' = [Some 1%Q; Some (-1)%Q; Some 1%Q].
Proof.
  do 4 eexists. split; [vm_compute; reflexivity|].
  split; [reflexivity|].
  split; [intros H; vm_compute in H; discriminate|].
  split; [intros H; vm_compute in H; discriminate|].
  vm_compute. reflexivity.
Qed.

Lemma descending_app (lo hi q : Q) (l : list (option Q)) :
  descending lo hi l -> (lo <= q)%Q -> (q <= bottom hi l)%Q ->
  descending lo hi (l ++ [Some q]) /\ bottom hi (l ++ [Some q]) = q.
Proof.
  revert hi. induction l as [|[x|] l IH]; intros hi Hd Hlo Hq; simpl in *.
  - auto using Qle_refl.
  - destruct Hd as (H1 & H2 & H3).
    destruct (IH x H3 Hlo Hq) as [IH1 IH2]. auto.
  - contradiction.
Qed.

(** With a step of at least 1 and a target that is not negative, a pass
    never raises [fmax]. *)
Lemma next_fmax_le (cfg : settings) (f : Q) :
  (1 <= get_step cfg)%Q -> (0 <= fmax cfg)%Q -> (fmax cfg <= f)%Q ->
  (next_fmax cfg f <= f)%Q.
Proof.
  intros Hs H0 Hf. unfold next_fmax.
  destruct (Qltb (f / get_step cfg) (fmax cfg)
            || Qeq_bool (f / get_step cfg) (fmax cfg)); [exact Hf|].
  apply Qle_shift_div_r; [lra|].
  assert (H : (0 <= f)%Q) by lra.
  nra.
Qed.

(** The loop state behind C3: the thresholds recorded so far descend from
    [ifmax] to the target, and [fmax] lies between the target and the last
    of them. *)
Lemma thresholds_step (env : collaborators) (cfg : settings)
    (st st' : run_state) (w w' : files) (f f' : Q) :
  (1 <= get_step cfg)%Q -> (0 <= fmax cfg)%Q ->
  descending (fmax cfg) (ifmax cfg) (thresholds w)
  /\ (fmax cfg <= f)%Q /\ (f <= bottom (ifmax cfg) (thresholds w))%Q ->
  loop_body env cfg st w f = Continue st' w' f' ->
  descending (fmax cfg) (ifmax cfg) (thresholds w')
  /\ (fmax cfg <= f')%Q /\ (f' <= bottom (ifmax cfg) (thresholds w'))%Q.
Proof.
  intros Hs H0 (Hd & Hlo & Hhi) H.
  apply loop_body_continue in H.
  destruct H as (i0 & a & l & wmid & _ & _ & _ & Hf & _ & _ & _ & Ho & _ & H).
  apply retrain_and_validate_inv in H.
  destruct H as (_ & _ & _ & _ & (j & _ & Hcalls) & _).
  assert (Hge : (fmax cfg <= f')%Q) by (rewrite Hf; apply next_fmax_ge).
  assert (Hle : (f' <= f)%Q) by (rewrite Hf; apply next_fmax_le; assumption).
  unfold thresholds in *. rewrite Hcalls, Ho, map_app. simpl.
  destruct (descending_app (fmax cfg) (ifmax cfg) f'
              (map snd (optimizer_calls w)) Hd Hge) as [D B].
  { eapply Qle_trans; eassumption. }
  rewrite B. split; [exact D|]. split; [exact Hge|apply Qle_refl].
Qed.

(** C3 (as the code has it): with a step of at least 1, a target that is
    not negative and a first [fmax] that is not below the target, the
    thresholds of the band runs of [accelerate] never rise from one run to
    the next, start at [ifmax] or below and stay at or above the target. *)
Theorem fmax_thresholds_descend (env : collaborators) (cfg : settings)
    (n : nat) (st st' : run_state) (w w' : files) :
  (1 <= get_step cfg)%Q ->
  (0 <= fmax cfg)%Q ->
  (fmax cfg <= ifmax cfg)%Q ->
  optimizer_calls w = [] ->
  outcome_state (accelerate env cfg n st w) = Some (st', w') ->
  descending (fmax cfg) (ifmax cfg) (thresholds w').
Proof.
  intros Hs H0 Hi Hw H.
  set (P := fun (_ : run_state) (w : files) (f : Q) =>
              descending (fmax cfg) (ifmax cfg) (thresholds w)
              /\ (fmax cfg <= f)%Q
              /\ (f <= bottom (ifmax cfg) (thresholds w))%Q).
  assert (Hloop : exists st1 w1,
            P st1 w1 (ifmax cfg)
            /\ outcome_state (accelerate_loop env cfg n st1 w1 (ifmax cfg))
               = Some (st', w')).
  { unfold accelerate in H.
    destruct (initialized st && negb (trained st)).
    - destruct (bootstrap env cfg st w) as [[w1 st1]|e] eqn:B;
        [|discriminate].
      apply bootstrap_inv in B. destruct B as (_ & _ & _ & B & _).
      exists st1, w1. split; [|exact H].
      unfold P, thresholds. rewrite B, Hw. simpl.
      repeat split; try assumption; apply Qle_refl.
    - exists st, w. split; [|exact H].
      unfold P, thresholds. rewrite Hw. simpl.
      repeat split; try assumption; apply Qle_refl. }
  destruct Hloop as (st1 & w1 & HP & Hloop).
  pose proof (accelerate_loop_invariant env cfg P
                (fun st w f st' w' f' HP Hb =>
                   thresholds_step env cfg st st' w w' f f' Hs H0 HP Hb)
                n st1 w1 (ifmax cfg) HP) as Hinv.
  destruct (accelerate_loop env cfg n st1 w1 (ifmax cfg))
    as [st2 w2 f2|r st2 w2 f2|st2 w2|e]; simpl in Hloop;
    inversion Hloop; subst st2 w2.
  - exact (proj1 Hinv).
  - destruct Hinv as (st0 & w0 & f0 & (Hd & _) & Hb).
    apply loop_body_break in Hb.
    destruct Hb as (? & ? & _ & _ & _ & _ & _ & Hk & _).
    destruct Hk as (_ & _ & _ & _ & Hk).
    unfold thresholds in *. rewrite Hk. exact Hd.
  - destruct Hinv as (st0 & w0 & f0 & (Hd & _) & Hb).
    apply loop_body_exit in Hb.
    destruct Hb as (_ & _ & Hk & _).
    destruct Hk as (_ & _ & _ & _ & Hk).
    unfold thresholds in *. rewrite Hk. exact Hd.
Qed.

Lemma fmax_thresholds_descend_witness :
  exists st' w',
    outcome_state
      (accelerate (toy_env (fun _ => amp_pull))
                  (run_settings 200 (1 # 20) (1 # 5) (Some 2%Q)) 3
                  initialized_state run_files)
    = Some (st', w')
    /\ List.length (thresholds w') = 4%nat
    /\ descending (fmax (run_settings 200 (1 # 20) (1 # 5) (Some 2%Q)))
                  (ifmax (run_settings 200 (1 # 20) (1 # 5) (Some 2%Q)))
                  (thresholds w').
Proof.
  do 2 eexists. split; [vm_compute; reflexivity|].
  split; [reflexivity|].
  eapply (fmax_thresholds_descend
            (toy_env (fun _ => amp_pull))
            (run_settings 200 (1 # 20) (1 # 5) (Some 2%Q)) 3
            initialized_state _ run_files);
    [vm_compute; discriminate | vm_compute; discriminate
     | vm_compute; discriminate | reflexivity | vm_compute; reflexivity].
Defined.

(** C3 (as stated) fails: with a step of 1/2 the second band is run at
    twice the threshold of the first. *)
Lemma fmax_threshold_rises_with_small_step :
  exists st w f q0 q1,
    accelerate (toy_env (fun _ => amp_pull))
               (run_settings 200 (1 # 20) (1 # 20) (Some (1 # 2)%Q)) 1
               initialized_state run_files
    = Continue st w f
    /\ thresholds w = [Some q0; Some q1]
    /\ ~ (q1 <= q0)%Q.
Proof.
  do 5 eexists. split; [vm_compute; reflexivity|].
  split; [vm_compute; reflexivity|].
  intros H. vm_compute in H. apply H. reflexivity.
Qed.

(** ** Further properties of the loop *)

(** X1: the loop breaks, for either reason, only on a report that does
    not exceed the tolerance in either component; the exit for the maximum
    number of iterations is taken at iteration [maxiter] exactly. *)
Theorem break_only_within_tolerance (env : collaborators) (cfg : settings)
    (n : nat) (st st' : run_state) (w w' : files) (f f' : Q) (r : status) :
  accelerate_loop env cfg n st w f = Break r st' w' f' ->
  exists a,
    achieved st' = Some (Some a)
    /\ (fst a <= tolerance cfg)%Q /\ (snd a <= tolerance cfg)%Q
    /\ (r = EXHAUSTED -> iteration st' = Some (maxiter cfg)).
Proof.
  intros H.
  pose proof (accelerate_loop_invariant env cfg (fun _ _ _ => True)
                (fun _ _ _ _ _ _ _ _ => I) n st w f I) as Hinv.
  rewrite H in Hinv. destruct Hinv as (st0 & w0 & f0 & _ & Hb).
  apply loop_body_break in Hb.
  destruct Hb as (i0 & a & Hi & Ha & Hst & _ & Hex & _ & _ & Hr).
  exists a. subst st'. simpl.
  unfold exceeds, Qgtb in Hex. apply orb_false_iff in Hex.
  destruct Hex as [H1 H2]. apply Qltb_ge in H1. apply Qltb_ge in H2.
  repeat split; try assumption.
  intros ->. congruence.
Qed.

Lemma break_only_within_tolerance_witness :
  exists st' w' f' a,
    accelerate_loop (toy_env (fun _ => amp_still))
                    (run_settings 1 (1 # 20) (1 # 20) None) 1
                    (with_achieved (Some (0, 0)%Q)
                       (with_iteration 0 initialized_state))
                    run_files (1 # 20)
    = Break EXHAUSTED st' w' f'
    /\ achieved st' = Some (Some a)
    /\ (fst a <= tolerance (run_settings 1 (1 # 20) (1 # 20) None))%Q
    /\ (snd a <= tolerance (run_settings 1 (1 # 20) (1 # 20) None))%Q
    /\ (EXHAUSTED = EXHAUSTED ->
        iteration st' = Some (maxiter (run_settings 1 (1 # 20) (1 # 20) None))).
Proof.
  do 3 eexists.
  assert (H : accelerate_loop (toy_env (fun _ => amp_still))
                (run_settings 1 (1 # 20) (1 # 20) None) 1
                (with_achieved (Some (0, 0)%Q)
                   (with_iteration 0 initialized_state))
                run_files (1 # 20)
              = Break EXHAUSTED _ _ _) by (vm_compute; reflexivity).
  destruct (break_only_within_tolerance _ _ _ _ _ _ _ _ _ _ H)
    as (a & Ha). exists a. split; [exact H|exact Ha].
Defined.

Lemma grows_refl (f : option (list Atoms)) : grows f f.
Proof. exists []. now rewrite app_nil_r. Qed.

Lemma grows_trans (f1 f2 f3 : option (list Atoms)) :
  grows f1 f2 -> grows f2 f3 -> grows f1 f3.
Proof.
  intros [e1 H1] [e2 H2]. exists (e1 ++ e2).
  rewrite H2, H1. now rewrite app_assoc.
Qed.

Lemma grows_append (f : option (list Atoms)) (l : list Atoms) :
  grows f (traj_append f l).
Proof. exists (map traj_write l). destruct f; reflexivity. Qed.

(** X2: whatever way a run of [accelerate] ends, short of an uncaught
    exception, [training.traj] holds afterwards the images it held before,
    in the same order, followed by those the run added: the training set
    never shrinks and is never reordered. *)
Theorem training_set_only_grows (env : collaborators) (cfg : settings)
    (n : nat) (st st' : run_state) (w w' : files) :
  outcome_state (accelerate env cfg n st w) = Some (st', w') ->
  grows (training_traj w) (training_traj w').
Proof.
  intros H.
  set (P := fun (_ : run_state) (w1 : files) (_ : Q) =>
              grows (training_traj w) (training_traj w1)).
  assert (Hstep : forall st w0 f st' w' f',
             P st w0 f -> loop_body env cfg st w0 f = Continue st' w' f' ->
             P st' w' f').
  { intros st0 w0 f0 st1 w1 f1 HP Hb. unfold P in *.
    apply loop_body_continue in Hb.
    destruct Hb as (i0 & a & l & wmid & _ & _ & _ & _ & _ & _ & Ht & _ & _ & Hb).
    apply retrain_and_validate_inv in Hb.
    destruct Hb as (_ & _ & _ & _ & _ & Hk & _).
    rewrite Hk, Ht. eapply grows_trans; [exact HP|apply grows_append]. }
  assert (Hloop : exists st1 w1,
            P st1 w1 (ifmax cfg)
            /\ outcome_state (accelerate_loop env cfg n st1 w1 (ifmax cfg))
               = Some (st', w')).
  { unfold accelerate in H.
    destruct (initialized st && negb (trained st)).
    - destruct (bootstrap env cfg st w) as [[w1 st1]|e] eqn:B;
        [|discriminate].
      apply bootstrap_inv in B. destruct B as (_ & _ & _ & _ & B & _).
      exists st1, w1. split; [|exact H]. unfold P. rewrite B.
      apply grows_refl.
    - exists st, w. split; [apply grows_refl|exact H]. }
  destruct Hloop as (st1 & w1 & HP & Hloop).
  pose proof (accelerate_loop_invariant env cfg P Hstep n st1 w1 (ifmax cfg)
                HP) as Hinv.
  destruct (accelerate_loop env cfg n st1 w1 (ifmax cfg))
    as [st2 w2 f2|r st2 w2 f2|st2 w2|e]; simpl in Hloop;
    inversion Hloop; subst st2 w2.
  - exact Hinv.
  - destruct Hinv as (st0 & w0 & f0 & Hd & Hb).
    apply loop_body_break in Hb.
    destruct Hb as (? & ? & _ & _ & _ & _ & _ & Hk & _).
    destruct Hk as (Hk & _). unfold P in Hd. rewrite Hk. exact Hd.
  - destruct Hinv as (st0 & w0 & f0 & Hd & Hb).
    apply loop_body_exit in Hb.
    destruct Hb as (_ & _ & Hk & _).
    destruct Hk as (Hk & _). unfold P in Hd. rewrite Hk. exact Hd.
Qed.

Lemma training_set_only_grows_witness :
  exists st' w',
    outcome_state
      (accelerate (toy_env (fun _ => amp_pull))
                  (run_settings 200 (1 # 20) (1 # 5) (Some 2%Q)) 3
                  initialized_state run_files)
    = Some (st', w')
    /\ List.length (contents (training_traj w')) = 6%nat
    /\ grows (training_traj run_files) (training_traj w').
Proof.
  do 2 eexists. split; [vm_compute; reflexivity|].
  split; [reflexivity|].
  eapply (training_set_only_grows
            (toy_env (fun _ => amp_pull))
            (run_settings 200 (1 # 20) (1 # 5) (Some 2%Q)) 3
            initialized_state _ run_files).
  vm_compute. reflexivity.
Defined.

Lemma string_length_app (a b : string) :
  String.length (a +:+ b) = (String.length a + String.length b)%nat.
Proof. induction a as [|c a IH]; simpl; [reflexivity|now rewrite IH]. Qed.

Lemma string_app_inj_r (a b s : string) : a +:+ s = b +:+ s -> a = b.
Proof.
  revert b. induction a as [|c a IH]; intros [|d b] H.
  - reflexivity.
  - apply (f_equal String.length) in H.
    rewrite !string_length_app in H. simpl in H. lia.
  - apply (f_equal String.length) in H.
    rewrite !string_length_app in H. simpl in H. lia.
  - inversion H. f_equal. now apply IH.
Qed.

Lemma labels_back_shift (i0 : Z) (n : nat) :
  labels_back i0 (S n)
  = labels_back (i0 + 1) n ++ [pretty (i0 + 1)%Z +:+ ".amp"].
Proof.
  induction n as [|n IH].
  - reflexivity.
  - change (labels_back i0 (S (S n)))
      with ((pretty (i0 + Z.of_nat (S (S n)))%Z +:+ ".amp")
              :: labels_back i0 (S n)).
    change (labels_back (i0 + 1) (S n))
      with ((pretty (i0 + 1 + Z.of_nat (S n))%Z +:+ ".amp")
              :: labels_back (i0 + 1) n).
    rewrite IH.
    replace (i0 + Z.of_nat (S (S n)))%Z with (i0 + 1 + Z.of_nat (S n))%Z
      by lia.
    reflexivity.
Qed.

Lemma labels_back_In (i0 : Z) (n : nat) (x : string) :
  In x (labels_back i0 n) ->
  exists k, (1 <= k <= n)%nat /\ x = pretty (i0 + Z.of_nat k)%Z +:+ ".amp".
Proof.
  induction n as [|n IH]; simpl; [contradiction|].
  intros [H|H].
  - exists (S n). split; [lia|]. symmetry. exact H.
  - destruct (IH H) as (k & Hk & Hx). exists k. split; [lia|exact Hx].
Qed.

Lemma labels_back_NoDup (i0 : Z) (n : nat) : NoDup (labels_back i0 n).
Proof.
  induction n as [|n IH]; simpl; constructor; [|exact IH].
  rewrite list_elem_of_In. intros H. apply labels_back_In in H.
  destruct H as (k & Hk & Hx).
  apply string_app_inj_r in Hx. apply (inj pretty) in Hx. lia.
Qed.

(** X3: after [n] passes that leave the loop running, the iteration
    counter has advanced by [n] and the passes have saved one model each,
    under the labels of their iterations; no label is used twice. *)
Theorem models_labelled_by_iteration (env : collaborators) (cfg : settings)
    (n : nat) (st st' : run_state) (w w' : files) (f f' : Q) (i0 : Z) :
  iteration st = Some i0 ->
  accelerate_loop env cfg n st w f = Continue st' w' f' ->
  iteration st' = Some (i0 + Z.of_nat n)%Z
  /\ map fst (amp_files w') = labels_back i0 n ++ map fst (amp_files w)
  /\ NoDup (labels_back i0 n).
Proof.
  intros Hi H. split; [|split; [|apply labels_back_NoDup]].
  - revert st w f i0 Hi H. induction n as [|n IH]; intros st w f i0 Hi H.
    + simpl in H. inversion H; subst. rewrite Hi. f_equal. lia.
    + simpl in H.
      destruct (loop_body env cfg st w f) as [st1 w1 f1| | |] eqn:E;
        try discriminate H.
      apply loop_body_continue in E.
      destruct E as (j & a & l & wmid & Hj & _ & _ & _ & _ & _ & _ & _ & _ & E).
      apply retrain_and_validate_inv in E. destruct E as (E & _).
      simpl in E. rewrite Hi in Hj. inversion Hj; subst j.
      rewrite (IH _ _ _ _ E H). f_equal. lia.
  - revert st w f i0 Hi H. induction n as [|n IH]; intros st w f i0 Hi H.
    + simpl in H. inversion H; subst. reflexivity.
    + simpl in H.
      destruct (loop_body env cfg st w f) as [st1 w1 f1| | |] eqn:E;
        try discriminate H.
      apply loop_body_continue in E.
      destruct E as (j & a & l & wmid & Hj & _ & _ & _ & _ & _ & _ & _ & Ha & E).
      apply retrain_and_validate_inv in E.
      destruct E as (E & _ & _ & _ & _ & _ & _ & _ & model & _ & Hm).
      simpl in E. rewrite Hi in Hj. inversion Hj; subst j.
      rewrite (IH _ _ _ _ E H), Hm, Ha, labels_back_shift.
      simpl. rewrite <- app_assoc. reflexivity.
Qed.

Lemma models_labelled_by_iteration_witness :
  exists st' w' f',
    accelerate_loop (toy_env (fun _ => amp_pull))
                    (run_settings 200 (1 # 20) (1 # 5) (Some 2%Q)) 3
                    (with_achieved (Some (5, 5)%Q)
                       (with_iteration 7 validation_state))
                    (with_images_from_neb (Some toy_band) run_files) (1 # 5)
    = Continue st' w' f'
    /\ iteration st' = Some (7 + Z.of_nat 3)%Z
    /\ map fst (amp_files w')
       = labels_back 7 3
         ++ map fst (amp_files
                       (with_images_from_neb (Some toy_band) run_files))
    /\ NoDup (labels_back 7 3).
Proof.
  do 3 eexists. split; [vm_compute; reflexivity|].
  eapply (models_labelled_by_iteration
            (toy_env (fun _ => amp_pull))
            (run_settings 200 (1 # 20) (1 # 5) (Some 2%Q)) 3
            (with_achieved (Some (5, 5)%Q) (with_iteration 7 validation_state))
            _ (with_images_from_neb (Some toy_band) run_files) _ (1 # 5) _
            7%Z);
    [reflexivity | vm_compute; reflexivity].
Defined.

(** X4: whatever the step, every band the loop runs is given a threshold
    at or above the target: the passes add to the record of band runs only
    thresholds that the clamp has bounded from below. *)
Theorem loop_thresholds_at_least_target (env : collaborators)
    (cfg : settings) (n : nat) (st st' : run_state) (w w' : files) (f : Q) :
  outcome_state (accelerate_loop env cfg n st w f) = Some (st', w') ->
  exists new,
    thresholds w' = thresholds w ++ map Some new
    /\ Forall (fun q => (fmax cfg <= q)%Q) new.
Proof.
  intros H.
  set (P := fun (_ : run_state) (w1 : files) (_ : Q) =>
              exists new,
                thresholds w1 = thresholds w ++ map Some new
                /\ Forall (fun q => (fmax cfg <= q)%Q) new).
  assert (Hstep : forall st w0 f st' w' f',
             P st w0 f -> loop_body env cfg st w0 f = Continue st' w' f' ->
             P st' w' f').
  { intros st0 w0 f0 st1 w1 f1 (new & Hn & Hall) Hb.
    apply loop_body_continue in Hb.
    destruct Hb as (i0 & a & l & wmid & _ & _ & _ & Hf & _ & _ & _ & Ho & _ & Hb).
    apply retrain_and_validate_inv in Hb.
    destruct Hb as (_ & _ & _ & _ & (j & _ & Hcalls) & _).
    exists (new ++ [f1]). unfold thresholds in *.
    rewrite Hcalls, Ho, !map_app, Hn, <- app_assoc. split; [reflexivity|].
    apply Forall_app. split; [exact Hall|].
    constructor; [|constructor]. rewrite Hf. apply next_fmax_ge. }
  assert (HP : P st w f).
  { exists []. simpl. rewrite app_nil_r. split; [reflexivity|constructor]. }
  pose proof (accelerate_loop_invariant env cfg P Hstep n st w f HP) as Hinv.
  destruct (accelerate_loop env cfg n st w f)
    as [st2 w2 f2|r st2 w2 f2|st2 w2|e]; simpl in H;
    inversion H; subst st2 w2.
  - exact Hinv.
  - destruct Hinv as (st0 & w0 & f0 & Hd & Hb).
    apply loop_body_break in Hb.
    destruct Hb as (? & ? & _ & _ & _ & _ & _ & Hk & _).
    destruct Hk as (_ & _ & _ & _ & Hk).
    unfold P, thresholds in *. rewrite Hk. exact Hd.
  - destruct Hinv as (st0 & w0 & f0 & Hd & Hb).
    apply loop_body_exit in Hb.
    destruct Hb as (_ & _ & Hk & _).
    destruct Hk as (_ & _ & _ & _ & Hk).
    unfold P, thresholds in *. rewrite Hk. exact Hd.
Qed.

Lemma loop_thresholds_at_least_target_witness :
  exists st' w' new,
    outcome_state
      (accelerate_loop (toy_env (fun _ => amp_pull))
         (run_settings 200 (1 # 20) (1 # 20) (Some (1 # 2)%Q)) 2
         (with_achieved (Some (5, 5)%Q) (with_iteration 0 validation_state))
         (with_images_from_neb (Some toy_band) run_files) (1 # 50))
    = Some (st', w')
    /\ List.length new = 2%nat
    /\ thresholds w'
       = thresholds (with_images_from_neb (Some toy_band) run_files)
         ++ map Some new
    /\ Forall (fun q => (fmax (run_settings 200 (1 # 20) (1 # 20)
                                            (Some (1 # 2)%Q)) <= q)%Q) new.
Proof.
  assert (H : exists st' w',
             outcome_state
               (accelerate_loop (toy_env (fun _ => amp_pull))
                  (run_settings 200 (1 # 20) (1 # 20) (Some (1 # 2)%Q)) 2
                  (with_achieved (Some (5, 5)%Q)
                     (with_iteration 0 validation_state))
                  (with_images_from_neb (Some toy_band) run_files) (1 # 50))
             = Some (st', w')
             /\ List.length (thresholds w') = 2%nat).
  { do 2 eexists. split; [vm_compute; reflexivity|reflexivity]. }
  destruct H as (st' & w' & H & Hlen).
  destruct (loop_thresholds_at_least_target _ _ _ _ _ _ _ _ H)
    as (new & Hn & Hall).
  exists st', w', new. split; [exact H|].
  split; [|split; [exact Hn|exact Hall]].
  rewrite Hn in Hlen. simpl in Hlen. rewrite length_map in Hlen. exact Hlen.
Defined.

(** X5: with a step of 1, which is what [step=None] stands for, and a
    first [fmax] above the target, [fmax] stays where it started and the
    flag [final_fmax] is never raised: the run cannot end with
    "Calculation converged", whatever the reports are. *)
Theorem no_convergence_without_step (env : collaborators) (cfg : settings)
    (n : nat) (st : run_state) (w : files) :
  (get_step cfg == 1)%Q ->
  (fmax cfg < ifmax cfg)%Q ->
  final_fmax st = false ->
  forall st' w' f', accelerate env cfg n st w <> Break CONVERGED st' w' f'.
Proof.
  intros Hs Hlt Hfin st' w' f' H.
  set (P := fun (st : run_state) (_ : files) (f : Q) =>
              final_fmax st = false /\ (f == ifmax cfg)%Q).
  assert (Hstep : forall st w0 f st' w' f',
             P st w0 f -> loop_body env cfg st w0 f = Continue st' w' f' ->
             P st' w' f').
  { intros st0 w0 f0 st1 w1 f1 (Hf0 & Hq) Hb.
    apply loop_body_continue in Hb.
    destruct Hb as (i0 & a & l & wmid & _ & _ & _ & Hf & _ & _ & _ & _ & _ & Hb).
    apply retrain_and_validate_inv in Hb.
    destruct Hb as (_ & _ & _ & (a' & _ & Hfin') & _).
    simpl in Hfin'.
    assert (Hdiv : (f0 / get_step cfg == ifmax cfg)%Q).
    { rewrite Hq, Hs. field. }
    assert (Hn : next_fmax cfg f0 = (f0 / get_step cfg)%Q).
    { apply next_fmax_free. rewrite Hdiv. exact Hlt. }
    assert (Hq1 : (f1 == ifmax cfg)%Q) by (rewrite Hf, Hn; exact Hdiv).
    split; [|exact Hq1].
    rewrite Hfin', Hf0. simpl.
    assert (Hle : Qle_bool f1 (fmax cfg) = false).
    { destruct (Qle_bool f1 (fmax cfg)) eqn:E; [|reflexivity].
      apply Qle_bool_iff in E. rewrite Hq1 in E.
      exfalso. exact (Qlt_not_le _ _ Hlt E). }
    rewrite Hle. apply andb_false_r. }
  assert (Hloop : exists st1 w1,
            P st1 w1 (ifmax cfg)
            /\ accelerate_loop env cfg n st1 w1 (ifmax cfg)
               = Break CONVERGED st' w' f').
  { unfold accelerate in H.
    destruct (initialized st && negb (trained st)).
    - destruct (bootstrap env cfg st w) as [[w1 st1]|e] eqn:B;
        [|discriminate].
      apply bootstrap_inv in B. destruct B as (_ & B & _).
      exists st1, w1. split; [|exact H].
      split; [congruence|reflexivity].
    - exists st, w. split; [|exact H]. split; [exact Hfin|reflexivity]. }
  destruct Hloop as (st1 & w1 & HP & Hloop).
  pose proof (accelerate_loop_invariant env cfg P Hstep n st1 w1 (ifmax cfg)
                HP) as Hinv.
  rewrite Hloop in Hinv. destruct Hinv as (st0 & w0 & f0 & (Hf0 & _) & Hb).
  apply loop_body_break in Hb.
  destruct Hb as (? & ? & _ & _ & _ & _ & _ & _ & _ & _ & _ & Hflag).
  congruence.
Qed.

Lemma no_convergence_without_step_witness :
  (fmax (run_settings 200 (1 # 20) (1 # 5) None)
   < ifmax (run_settings 200 (1 # 20) (1 # 5) None))%Q
  /\ forall st' w' f',
       accelerate (toy_env (fun _ => amp_still))
                  (run_settings 200 (1 # 20) (1 # 5) None) 50
                  initialized_state run_files
       <> Break CONVERGED st' w' f'.
Proof.
  split; [reflexivity|].
  apply (no_convergence_without_step
           (toy_env (fun _ => amp_still))
           (run_settings 200 (1 # 20) (1 # 5) None) 50
           initialized_state run_files);
    [reflexivity | reflexivity | reflexivity].
Defined.

(** ** The metric *)

Lemma cross_validate_unknown_metric (env : collaborators) (cfg : settings)
    (st : run_state) (w w' : files) (neb_images : list Atoms)
    (calc : option calculator) (amp_calc : calculator) (metric : string)
    (a : option (Q * Q)) :
  metric <> "fmax" -> str_lower metric <> "mae" ->
  cross_validate env cfg st w neb_images calc amp_calc metric = Ok (w', a) ->
  a = None.
Proof.
  intros Hm Hl H. unfold cross_validate in H.
  apply String.eqb_neq in Hm. apply String.eqb_neq in Hl.
  rewrite Hm, Hl in H.
  bind_inv H as p1 H1. destruct p1 as [w1 r1].
  bind_inv H as amp Hamp.
  bind_inv H as p2 H2. destruct p2 as [w2 r2].
  bind_inv H as first Hfirst. bind_inv H as interior Hinterior.
  bind_inv H as last Hlast. bind_inv H as dft Hdft.
  inversion H. reflexivity.
Qed.

Lemma bootstrap_unknown_metric (env : collaborators) (cfg : settings)
    (st st' : run_state) (w w' : files) :
  metric cfg <> "fmax" -> str_lower (metric cfg) <> "mae" ->
  bootstrap env cfg st w = Ok (w', st') ->
  achieved st' = Some None.
Proof.
  intros Hm Hl H. unfold bootstrap in H.
  bind_inv H as ts Hts. bind_inv H as w0 Htrain.
  bind_inv H as c0 Hload. bind_inv H as l0 Hl0.
  bind_inv H as p2 H2. destruct p2 as [w2 images].
  bind_inv H as p5 H5. destruct p5 as [[w5 st5] r5].
  bind_inv H as path Hpath. bind_inv H as l Hl'.
  bind_inv H as c1 Hc1. bind_inv H as p6 H6. destruct p6 as [w6 a6].
  inversion H; subst w' st'; clear H.
  apply (cross_validate_unknown_metric _ _ _ _ _ _ _ _ _ _ Hm Hl) in H6.
  subst a6. reflexivity.
Qed.

(** X6: a metric other than [fmax], spelled so, or [mae] in any case makes
    [cross_validate] return [None]; [accelerate] then trains the first
    model, runs the first band, and stops in its first pass on an
    exception, a [TypeError] when the step is not 0.  The name [FMAX] is
    such a metric. *)
Theorem unknown_metric_raises (env : collaborators) (cfg : settings)
    (n : nat) (st : run_state) (w : files) :
  metric cfg <> "fmax" -> str_lower (metric cfg) <> "mae" ->
  initialized st = true -> trained st = false ->
  exists e,
    accelerate env cfg (S n) st w = Raised e
    /\ (forall w1 st1, bootstrap env cfg st w = Ok (w1, st1) ->
        Qeq_bool (get_step cfg) 0 = false -> e = TypeError).
Proof.
  intros Hm Hl Hi Ht. unfold accelerate. rewrite Hi, Ht. simpl andb.
  cbv iota.
  destruct (bootstrap env cfg st w) as [[w1 st1]|e] eqn:B.
  - pose proof (bootstrap_unknown_metric _ _ _ _ _ _ Hm Hl B) as Ha.
    apply bootstrap_inv in B. destruct B as (B0 & _).
    cbn [accelerate_loop]. unfold loop_body, get_iteration.
    rewrite B0.
    destruct (Qeq_bool (get_step cfg) 0) eqn:Hs.
    + exists ZeroDivisionError. split; [reflexivity|].
      intros ? ? _ Habs. discriminate Habs.
    + exists TypeError. split; [|reflexivity].
      destruct (Qltb (ifmax cfg / get_step cfg) (fmax cfg)
                || Qeq_bool (ifmax cfg / get_step cfg) (fmax cfg));
        cbv iota; unfold get_achieved; simpl; rewrite Ha; reflexivity.
  - exists e. split; [reflexivity|]. intros ? ? Habs. discriminate Habs.
Qed.

Lemma unknown_metric_raises_witness :
  accelerate (toy_env (fun _ => amp_pull))
             (toy_settings 200 1 (1 # 20) (1 # 20) None "FMAX"
                           (Some emt_flat) "BFGS")
             (S 0) initialized_state run_files
  = Raised TypeError
  /\ exists e,
    accelerate (toy_env (fun _ => amp_pull))
               (toy_settings 200 1 (1 # 20) (1 # 20) None "FMAX"
                             (Some emt_flat) "BFGS")
               (S 0) initialized_state run_files
    = Raised e
    /\ (forall w1 st1,
          bootstrap (toy_env (fun _ => amp_pull))
                    (toy_settings 200 1 (1 # 20) (1 # 20) None "FMAX"
                                  (Some emt_flat) "BFGS")
                    initialized_state run_files = Ok (w1, st1) ->
          Qeq_bool (get_step (toy_settings 200 1 (1 # 20) (1 # 20) None "FMAX"
                                           (Some emt_flat) "BFGS")) 0 = false ->
          e = TypeError).
Proof.
  split; [vm_compute; reflexivity|].
  apply (unknown_metric_raises
           (toy_env (fun _ => amp_pull))
           (toy_settings 200 1 (1 # 20) (1 # 20) None "FMAX" (Some emt_flat)
                         "BFGS")
           0 initialized_state run_files);
    [vm_compute; discriminate | vm_compute; discriminate
     | reflexivity | reflexivity].
Defined.

(** ** What the next pass adds to the training set *)

Lemma slice_1_m1_ends {A : Type} (a b : A) (l : list A) :
  slice_1_m1 (a :: l ++ [b]) = l.
Proof.
  unfold slice_1_m1. simpl. apply removelast_last.
Qed.

Lemma traj_write_idempotent (a : Atoms) :
  traj_write (traj_write a) = traj_write a.
Proof. destruct a as [p [c|]]; reflexivity. Qed.

(** X7: the images the loop adds to the training set at the start of a
    pass are those the reference step of the last cross-validation left in
    [calculator.traj], as many as the band has interior images: the two
    end images of [images_from_neb.traj] are dropped. *)
Theorem next_pass_adds_interior_images (env : collaborators) (cfg : settings)
    (st : run_state) (w w' : files) (neb_images : list Atoms)
    (calc : option calculator) (amp_calc : calculator) (metric : string)
    (a : option (Q * Q)) (missing : string) :
  class_name amp_calc <> "GPAW" ->
  cross_validate env cfg st w neb_images calc amp_calc metric = Ok (w', a) ->
  exists interior,
    reference_interior cfg w amp_calc neb_images interior
    /\ List.length interior = (List.length neb_images - 2)%nat
    /\ add_images_from_neb missing w'
       = (with_training (Some (contents (training_traj w) ++ interior)) w',
          Some (List.length neb_images - 2)%nat).
Proof.
  intros Hamp H.
  destruct (cross_validate_anatomy _ _ _ _ _ _ _ _ _ _ Hamp H)
    as (first & interior & last & dft & _ & _ & Hint & _ & Hifn & Ht & _).
  exists interior.
  assert (Hlen : List.length interior = (List.length neb_images - 2)%nat).
  { destruct Hint as [[_ ->]|[_ (g & _ & ->)]];
      rewrite ?length_map; apply slice_1_m1_length. }
  assert (Hw : map traj_write interior = interior).
  { destruct Hint as [[_ ->]|[_ (g & _ & ->)]]; rewrite ?map_map;
      apply map_ext; intros x; apply traj_write_idempotent. }
  split; [exact Hint|]. split; [exact Hlen|].
  rewrite (add_images_from_neb_present _ _ _ Hifn).
  change (map traj_write (first :: interior ++ [last]))
    with (traj_write first :: map traj_write (interior ++ [last])).
  rewrite map_app. change (map traj_write [last]) with [traj_write last].
  rewrite !slice_1_m1_ends, length_map, Hlen, Ht.
  unfold traj_append. rewrite map_map.
  assert (Hw2 : map (fun x => traj_write (traj_write x)) interior = interior).
  { rewrite <- Hw at 2. apply map_ext. intros x. apply traj_write_idempotent. }
  rewrite Hw2. destruct (training_traj w); reflexivity.
Qed.

Lemma next_pass_adds_interior_images_witness :
  exists w' a interior,
    cross_validate (toy_env (fun _ => amp_off)) (validation_settings "mae" None)
                   validation_state validation_files toy_images None amp_off
                   "mae" = Ok (w', a)
    /\ reference_interior (validation_settings "mae" None) validation_files
                          amp_off toy_images interior
    /\ List.length interior = (List.length toy_images - 2)%nat
    /\ add_images_from_neb "missing" w'
       = (with_training
            (Some (contents (training_traj validation_files) ++ interior)) w',
          Some (List.length toy_images - 2)%nat).
Proof.
  assert (H : exists w' a,
             cross_validate (toy_env (fun _ => amp_off))
                            (validation_settings "mae" None) validation_state
                            validation_files toy_images None amp_off "mae"
             = Ok (w', a)).
  { do 2 eexists. vm_compute. reflexivity. }
  destruct H as (w' & a & H).
  destruct (next_pass_adds_interior_images
              (toy_env (fun _ => amp_off)) (validation_settings "mae" None)
              validation_state validation_files w' toy_images None amp_off
              "mae" a "missing") as (interior & Hi);
    [vm_compute; discriminate | exact H |].
  exists w', a, interior. split; [exact H|exact Hi].
Defined.

(** ** Band runs, interpolation and training *)

Lemma positions_traj_write (a : Atoms) :
  positions (traj_write a) = positions a.
Proof. destruct a as [p [c|]]; reflexivity. Qed.

Lemma Forall_map_calc (f : Atoms -> Atoms) (l : list Atoms) :
  (forall a, calc_of (f a) <> None) ->
  Forall (fun a => calc_of a <> None) (map f l).
Proof.
  intros H. induction l as [|a l IH]; simpl; constructor; auto.
Qed.

(** [set_calculators] asked to write the training set: the images it
    evaluates, all of them or the interior ones, are appended to
    [training.traj] with their results, in order. *)
Lemma set_calculators_write_training_set (w w' : files)
    (images r : list Atoms) (c : option calculator) (name : string)
    (lg cv : bool) :
  set_calculators w images c name lg true cv = Ok (w', r) ->
  exists evaluated,
    training_traj w' = Some (contents (training_traj w) ++ evaluated)
    /\ calculator_traj w' = Some evaluated
    /\ map positions evaluated
       = map positions (if cv then slice_1_m1 images else images)
    /\ Forall (fun a => calc_of a <> None) evaluated
    /\ map positions r
       = map positions (if negb (String.eqb name "GPAW") && cv
                        then slice_1_m1 images else images)
    /\ optimizer_calls w' = optimizer_calls w
    /\ neb_trajs w' = neb_trajs w
    /\ amp_files w' = amp_files w.
Proof.
  unfold set_calculators. intros H. cbv iota in H.
  set (w0 := match training_traj w with
             | Some _ => w
             | None => with_training (Some []) w
             end) in H.
  assert (F0 : training_traj w0 = Some (contents (training_traj w))
               /\ gpaw_calc w0 = gpaw_calc w
               /\ optimizer_calls w0 = optimizer_calls w
               /\ neb_trajs w0 = neb_trajs w
               /\ amp_files w0 = amp_files w).
  { unfold w0. destruct (training_traj w) eqn:E; simpl; rewrite ?E; auto. }
  clearbody w0. destruct F0 as (F1 & F2 & F3 & F4 & F5).
  bind_inv H as p1 H1. destruct p1 as [w1 imgs1].
  bind_inv H as w2 H2. bind_inv H2 as to_dump Hd.
  inversion H2; subst w2; clear H2.
  assert (Hw' : training_traj w'
                = traj_append (training_traj w1) to_dump
                /\ calculator_traj w' = calculator_traj w1
                /\ optimizer_calls w' = optimizer_calls w1
                /\ neb_trajs w' = neb_trajs w1
                /\ amp_files w' = amp_files w1
                /\ r = imgs1).
  { destruct lg; inversion H; subst; simpl; auto 10. }
  assert (H1' : training_traj w1 = training_traj w0
                /\ optimizer_calls w1 = optimizer_calls w0
                /\ neb_trajs w1 = neb_trajs w0
                /\ amp_files w1 = amp_files w0
                /\ map positions to_dump
                   = map positions (if cv then slice_1_m1 images else images)
                /\ Forall (fun a => calc_of a <> None) to_dump
                /\ map traj_write to_dump = to_dump
                /\ map positions imgs1
                   = map positions (if negb (String.eqb name "GPAW") && cv
                                    then slice_1_m1 images else images)).
  { unfold traj_read in Hd.
    destruct (String.eqb name "GPAW") eqn:En; simpl negb in H1;
      cbv iota in H1; simpl andb.
    - unfold write_gpaw_file, run_gpaw in H1.
      destruct (gpaw_calc w0) as [g|] eqn:Eg; [|discriminate H1].
      cbn [bind] in H1.
      assert (Hc : calculator_traj w1
                   = Some (map (fun a => traj_write (set_calculator g a))
                               (if cv then slice_1_m1 images else images))
                   /\ training_traj w1 = training_traj w0
                   /\ optimizer_calls w1 = optimizer_calls w0
                   /\ neb_trajs w1 = neb_trajs w0
                   /\ amp_files w1 = amp_files w0
                   /\ imgs1 = images).
      { destruct cv; simpl in H1; rewrite Eg in H1; simpl in H1;
          inversion H1; subst; simpl; auto 10. }
      destruct Hc as (Hc & T & O & N & A & I).
      rewrite Hc in Hd. inversion Hd; subst to_dump.
      rewrite !map_map. simpl.
      repeat split; try assumption; try reflexivity.
      + apply Forall_map_calc. intros x. discriminate.
      + subst imgs1. reflexivity.
    - destruct (if cv then slice_1_m1 images else images) as [|a l] eqn:Ei.
      + inversion H1; subst w1 imgs1. simpl in Hd. inversion Hd; subst.
        simpl. repeat split; try reflexivity; try constructor.
      + destruct c as [c0|]; [|discriminate H1].
        inversion H1; subst w1 imgs1. simpl in Hd. inversion Hd; subst.
        simpl. rewrite !map_map. simpl.
        repeat split; try reflexivity.
        constructor; [discriminate|].
        apply Forall_map_calc. intros x. discriminate. }
  destruct H1' as (T & O & N & A & Hp & Hall & Hid & Hr).
  destruct Hw' as (Ht & Hc & Ho & Hn & Ha & ->).
  exists to_dump.
  unfold traj_read in Hd. destruct (calculator_traj w1) eqn:Ec;
    inversion Hd; subst.
  repeat split; try assumption; try congruence.
  rewrite Ht, T, F1. simpl. rewrite Hid. reflexivity.
Qed.

(** X8: on the interpolation path [run_neb] runs no optimizer and leaves
    the object as it is; it evaluates every image of the interpolated band
    and appends them all, in order and with their results, to
    [training.traj], which it creates when missing, and it returns the band
    with the same geometries. *)
Theorem run_neb_interpolate_commits_band (env : collaborators)
    (cfg : settings) (st st' : run_state) (w w' : files)
    (images : list Atoms) (fmax' : option Q) (r : option (list Atoms)) :
  run_neb env cfg st w images true fmax' = Ok (w', st', r) ->
  st' = st
  /\ optimizer_calls w' = optimizer_calls w
  /\ neb_trajs w' = neb_trajs w
  /\ exists added imgs,
       training_traj w' = Some (contents (training_traj w) ++ added)
       /\ map positions added = map positions (neb_interpolate env images)
       /\ Forall (fun a => calc_of a <> None) added
       /\ r = Some imgs
       /\ map positions imgs = map positions (neb_interpolate env images).
Proof.
  unfold run_neb. intros H.
  bind_inv H as p H1. destruct p as [w1 imgs].
  inversion H; subst w' st' r; clear H.
  apply set_calculators_write_training_set in H1.
  destruct H1 as (added & Ht & _ & Hp & Hall & Hr & Ho & Hn & _).
  rewrite andb_false_r in Hr.
  repeat split; try assumption.
  exists added, imgs. auto.
Qed.

Lemma run_neb_interpolate_commits_band_witness :
  exists w' st' r,
    run_neb (toy_env (fun _ => amp_still))
            (validation_settings "fmax" (Some emt_flat)) initialized_state
            (toy_files [] None) toy_images true None
    = Ok (w', st', r)
    /\ List.length (contents (training_traj w')) = 3%nat
    /\ st' = initialized_state
    /\ optimizer_calls w' = optimizer_calls (toy_files [] None)
    /\ neb_trajs w' = neb_trajs (toy_files [] None)
    /\ exists added imgs,
         training_traj w'
         = Some (contents (training_traj (toy_files [] None)) ++ added)
         /\ map positions added
            = map positions
                (neb_interpolate (toy_env (fun _ => amp_still)) toy_images)
         /\ Forall (fun a => calc_of a <> None) added
         /\ r = Some imgs
         /\ map positions imgs
            = map positions
                (neb_interpolate (toy_env (fun _ => amp_still)) toy_images).
Proof.
  do 3 eexists. split; [vm_compute; reflexivity|].
  split; [reflexivity|].
  eapply (run_neb_interpolate_commits_band
            (toy_env (fun _ => amp_still))
            (validation_settings "fmax" (Some emt_flat)) initialized_state _
            (toy_files [] None) _ toy_images None).
  vm_compute. reflexivity.
Defined.

Lemma assoc_head {A : Type} (k : string) (v : A) (l : list (string * A)) :
  assoc k ((k, v) :: l) = Some v.
Proof. simpl. now rewrite String.eqb_refl. Qed.

(** X9: a band run that returns has run the optimizer the setting names,
    [BFGS] or [FIRE], once; the trajectory it wrote is found again under
    the name kept in [self.traj], which is [neb_<iteration>.traj], and
    holds the images of the optimizer; nothing is added to the training
    set. *)
Theorem run_neb_writes_what_is_read_back (env : collaborators)
    (cfg : settings) (st st' : run_state) (w w' : files)
    (images : list Atoms) (fmax' : option Q) (r : option (list Atoms)) :
  run_neb env cfg st w images false fmax' = Ok (w', st', r) ->
  exists i qn frames,
    iteration st = Some i
    /\ traj st' = Some ("neb_" +:+ pretty i +:+ ".traj")
    /\ (qn = "BFGS" \/ qn = "FIRE")
    /\ str_lower qn = str_lower (neb_optimizer cfg)
    /\ optimizer_run env qn images fmax' (maxrunsteps cfg) = Ok frames
    /\ neb_traj_read w' ("neb_" +:+ pretty i +:+ ".traj")
       = Ok (map traj_write frames)
    /\ training_traj w' = training_traj w
    /\ r = None.
Proof.
  unfold run_neb, get_iteration. intros H.
  destruct (iteration st) as [i|] eqn:Hi; [|discriminate H].
  cbn [bind] in H.
  destruct (String.eqb (str_lower (neb_optimizer cfg)) "bfgs") eqn:Eb.
  - cbn [bind] in H. bind_inv H as frames Hf. inversion H; subst; clear H.
    exists i, "BFGS", frames. apply String.eqb_eq in Eb.
    unfold neb_traj_read. simpl neb_trajs. rewrite assoc_head.
    repeat split; auto; symmetry; exact Eb.
  - destruct (String.eqb (str_lower (neb_optimizer cfg)) "fire") eqn:Ef;
      [|discriminate H].
    cbn [bind] in H. bind_inv H as frames Hf. inversion H; subst; clear H.
    exists i, "FIRE", frames. apply String.eqb_eq in Ef.
    unfold neb_traj_read. simpl neb_trajs. rewrite assoc_head.
    repeat split; auto; symmetry; exact Ef.
Qed.

Lemma run_neb_writes_what_is_read_back_witness :
  exists w' st' r i qn frames,
    run_neb (toy_env (fun _ => amp_still))
            (toy_settings 200 1 (1 # 20) (1 # 20) None "fmax" None "Fire")
            (with_iteration 12 initialized_state) run_files toy_band false
            (Some (1 # 20)%Q)
    = Ok (w', st', r)
    /\ iteration (with_iteration 12 initialized_state) = Some i
    /\ traj st' = Some ("neb_" +:+ pretty i +:+ ".traj")
    /\ (qn = "BFGS" \/ qn = "FIRE")
    /\ str_lower qn
       = str_lower (neb_optimizer
                      (toy_settings 200 1 (1 # 20) (1 # 20) None "fmax" None
                                    "Fire"))
    /\ optimizer_run (toy_env (fun _ => amp_still)) qn toy_band
                     (Some (1 # 20)%Q)
                     (maxrunsteps
                        (toy_settings 200 1 (1 # 20) (1 # 20) None "fmax" None
                                      "Fire"))
       = Ok frames
    /\ neb_traj_read w' ("neb_" +:+ pretty i +:+ ".traj")
       = Ok (map traj_write frames)
    /\ training_traj w' = training_traj run_files
    /\ r = None.
Proof.
  assert (H : exists w' st' r,
             run_neb (toy_env (fun _ => amp_still))
                     (toy_settings 200 1 (1 # 20) (1 # 20) None "fmax" None
                                   "Fire")
                     (with_iteration 12 initialized_state) run_files toy_band
                     false (Some (1 # 20)%Q)
             = Ok (w', st', r)).
  { do 3 eexists. vm_compute. reflexivity. }
  destruct H as (w' & st' & r & H).
  destruct (run_neb_writes_what_is_read_back _ _ _ _ _ _ _ _ _ H)
    as (i & qn & frames & Hc).
  exists w', st', r, i, qn, frames. split; [exact H|exact Hc].
Defined.

(** ** Order on strings and [sorted] *)

Lemma ascii_compare_N (a b : ascii) :
  Ascii.compare a b = N.compare (N_of_ascii a) (N_of_ascii b).
Proof. reflexivity. Qed.

Lemma str_le_cons (c d : ascii) (s t : string) :
  str_le (String c s) (String d t) <->
  (N_of_ascii c < N_of_ascii d)%N \/ (c = d /\ str_le s t).
Proof.
  unfold str_le, String.leb. simpl. rewrite ascii_compare_N.
  destruct (N.compare_spec (N_of_ascii c) (N_of_ascii d)) as [E|L|G].
  - assert (Hcd : c = d).
    { rewrite <- (ascii_N_embedding c), <- (ascii_N_embedding d).
      now rewrite E. }
    split; [intros H; right; auto|].
    intros [H|[_ H]]; [rewrite E in H; lia|exact H].
  - split; [intros _; left; exact L|reflexivity].
  - split; [discriminate|].
    intros [H|[-> _]]; lia.
Qed.

Lemma str_le_trans (a b c : string) : str_le a b -> str_le b c -> str_le a c.
Proof.
  revert b c. induction a as [|x a IH]; intros [|y b] [|z c] H1 H2;
    try reflexivity; try discriminate.
  apply str_le_cons in H1. apply str_le_cons in H2. apply str_le_cons.
  destruct H1 as [H1|[-> H1]]; destruct H2 as [H2|[-> H2]].
  - left. lia.
  - left. exact H1.
  - left. exact H2.
  - right. split; [reflexivity|]. eapply IH; eassumption.
Qed.

Lemma insert_sorted_In (x y : string) (l : list string) :
  In y (insert_sorted x l) <-> y = x \/ In y l.
Proof.
  induction l as [|z l IH]; simpl.
  - intuition.
  - destruct (String.leb x z); simpl; [intuition|].
    rewrite IH. intuition.
Qed.

Lemma sorted_In (y : string) (l : list string) : In y (sorted l) <-> In y l.
Proof.
  induction l as [|x l IH]; simpl; [reflexivity|].
  rewrite insert_sorted_In, IH. intuition.
Qed.

Lemma insert_sorted_sorted (x : string) (l : list string) :
  StronglySorted str_le l -> StronglySorted str_le (insert_sorted x l).
Proof.
  induction 1 as [|z l Hs IH Hall]; simpl.
  - constructor; constructor.
  - destruct (String.leb x z) eqn:E.
    + constructor; [constructor; assumption|].
      constructor; [exact E|].
      eapply List.Forall_impl; [|exact Hall].
      intros a Ha. eapply str_le_trans; [exact E|exact Ha].
    + constructor; [exact IH|].
      apply List.Forall_forall. intros a Ha.
      apply insert_sorted_In in Ha. destruct Ha as [->|Ha].
      * destruct (String.leb_total x z) as [H|H]; [congruence|exact H].
      * rewrite List.Forall_forall in Hall. auto.
Qed.

Lemma sorted_sorted (l : list string) : StronglySorted str_le (sorted l).
Proof.
  induction l as [|x l IH]; simpl; [constructor|].
  apply insert_sorted_sorted. exact IH.
Qed.

Lemma list_remove_In (x y : string) (l : list string) :
  (In y (list_remove x l) -> In y l)
  /\ (In y l -> y <> x -> In y (list_remove x l)).
Proof.
  induction l as [|z l [IH1 IH2]]; simpl; [tauto|].
  destruct (String.eqb x z) eqn:E.
  - apply String.eqb_eq in E. subst z. split; [auto|].
    intros [H|H] Hn; [congruence|exact H].
  - simpl. split; [intuition|]. intros [H|H] Hn; auto.
Qed.

Lemma list_remove_sorted (x : string) (l : list string) :
  StronglySorted str_le l -> StronglySorted str_le (list_remove x l).
Proof.
  induction 1 as [|z l Hs IH Hall]; simpl; [constructor|].
  destruct (String.eqb x z); [exact Hs|].
  constructor; [exact IH|].
  apply List.Forall_forall. intros a Ha.
  apply (proj1 (list_remove_In x a l)) in Ha.
  rewrite List.Forall_forall in Hall. auto.
Qed.

Lemma str_le_refl (a : string) : str_le a a.
Proof. destruct (String.leb_total a a); assumption. Qed.

Lemma sorted_last_greatest (l : list string) (d : string) :
  StronglySorted str_le l -> l <> [] ->
  In (List.last l d) l /\ forall x, In x l -> str_le x (List.last l d).
Proof.
  induction 1 as [|z l Hs IH Hall]; intros Hne; [congruence|].
  destruct l as [|y l].
  - simpl. split; [auto|]. intros x [->|[]]. apply str_le_refl.
  - destruct IH as [IH1 IH2]; [discriminate|].
    change (List.last (z :: y :: l) d) with (List.last (y :: l) d).
    split; [right; exact IH1|].
    intros x [->|Hx]; [|auto].
    rewrite List.Forall_forall in Hall. apply Hall. exact IH1.
Qed.

Lemma conditional_remove (x : string) (l : list string) :
  let l' := if list_mem x l then list_remove x l else l in
  (StronglySorted str_le l -> StronglySorted str_le l')
  /\ (forall y, In y l' -> In y l)
  /\ (forall y, In y l -> y <> x -> In y l').
Proof.
  simpl. destruct (list_mem x l).
  - split; [apply list_remove_sorted|].
    split; intros y; apply list_remove_In.
  - auto.
Qed.

Lemma insert_sorted_NoDup (x : string) (l : list string) :
  ~ In x l -> List.NoDup l -> List.NoDup (insert_sorted x l).
Proof.
  induction l as [|z l IH]; simpl; intros Hx Hl.
  - constructor; [exact Hx|constructor].
  - destruct (String.leb x z).
    + constructor; [exact Hx|exact Hl].
    + inversion Hl as [|? ? Hz Hl']; subst.
      constructor.
      * intros Hin. apply (proj1 (insert_sorted_In x z l)) in Hin.
        destruct Hin as [->|Hin]; [apply Hx; left; reflexivity|].
        exact (Hz Hin).
      * apply IH; [|exact Hl']. intros Hin. apply Hx. right. exact Hin.
Qed.

Lemma sorted_NoDup (l : list string) : List.NoDup l -> List.NoDup (sorted l).
Proof.
  induction 1 as [|x l Hx Hl IH]; simpl; [constructor|].
  apply insert_sorted_NoDup; [|exact IH].
  intros Hin. apply (proj1 (sorted_In x l)) in Hin. exact (Hx Hin).
Qed.

Lemma list_remove_NoDup (x : string) (l : list string) :
  List.NoDup l -> List.NoDup (list_remove x l) /\ ~ In x (list_remove x l).
Proof.
  induction 1 as [|z l Hz Hl [IH1 IH2]]; simpl.
  - split; [constructor|tauto].
  - destruct (String.eqb x z) eqn:E.
    + apply String.eqb_eq in E. subst z. split; assumption.
    + apply String.eqb_neq in E. split.
      * constructor; [|exact IH1]. intros Hin.
        apply (proj1 (list_remove_In x z l)) in Hin. exact (Hz Hin).
      * intros [Hin|Hin]; [congruence|exact (IH2 Hin)].
Qed.

(** On a listing without repetition, [if x in l: l.remove(x)] leaves the
    names other than [x]. *)
Lemma conditional_remove_NoDup (x : string) (l : list string) :
  List.NoDup l ->
  let l' := if list_mem x l then list_remove x l else l in
  List.NoDup l' /\ forall y, In y l' <-> In y l /\ y <> x.
Proof.
  intros Hl. simpl. destruct (list_mem x l) eqn:E.
  - destruct (list_remove_NoDup x l Hl) as [H1 H2].
    split; [exact H1|]. intros y. split.
    + intros Hy. split; [apply (proj1 (list_remove_In x y l)); exact Hy|].
      intros ->. exact (H2 Hy).
    + intros [Hy Hn]. apply list_remove_In; assumption.
  - split; [exact Hl|]. intros y. split; [|tauto].
    intros Hy. split; [exact Hy|]. intros ->.
    unfold list_mem in E.
    assert (Ht : existsb (String.eqb x) l = true).
    { apply existsb_exists. exists x. split; [exact Hy|].
      apply String.eqb_refl. }
    congruence.
Qed.

Lemma kept_log_In (y : string) (l : list string) :
  In y (List.filter kept_log l)
  <-> In y l /\ y <> "amp-log.txt" /\ y <> "out.txt".
Proof.
  rewrite List.filter_In. unfold kept_log.
  rewrite andb_true_iff, !negb_true_iff, !String.eqb_neq. tauto.
Qed.

Lemma str_le_antisym (a b : string) : str_le a b -> str_le b a -> a = b.
Proof. unfold str_le. apply String.leb_antisym. Qed.

(** ** [check_files] *)

(** X11: what [check_files] answers on a listing without repetition, as
    [glob] gives it.  The names that count are those of [*.txt] other than
    [amp-log.txt] and [out.txt].  When there is none the answer is
    [(False, None)].  Otherwise one of them is the greatest in the order
    of the character codes, and the answer is read off that name alone:
    the digit is its first character, and the band trajectory is
    [neb_<digit>.traj] when that file exists, [False] when it does not. *)
Theorem check_files_reads_greatest_name (fs : filesystem) :
  List.NoDup (glob_glob fs "*.txt") ->
  let remaining := List.filter kept_log (glob_glob fs "*.txt") in
  (remaining = [] -> check_files fs = Ok (None, None))
  /\ (remaining <> [] ->
      exists name,
        In name remaining
        /\ forall other, In other remaining -> str_le other name)
  /\ forall name,
       In name remaining ->
       (forall other, In other remaining -> str_le other name) ->
       check_files fs
       = match name with
         | EmptyString => Raise IndexError
         | String c _ =>
             let digit := String c EmptyString in
             let nebfile := "neb_" +:+ digit +:+ ".traj" in
             Ok (if isfile fs nebfile then Some nebfile else None,
                 Some digit)
         end.
Proof.
  intros Hnd remaining.
  unfold check_files.
  pose proof (sorted_sorted (glob_glob fs "*.txt")) as S0.
  pose proof (sorted_NoDup _ Hnd) as N0.
  set (l0 := sorted (glob_glob fs "*.txt")) in *.
  destruct (conditional_remove "amp-log.txt" l0) as (S1 & _ & _).
  destruct (conditional_remove_NoDup "amp-log.txt" l0 N0) as (N1 & M1).
  set (l1 := if list_mem "amp-log.txt" l0
             then list_remove "amp-log.txt" l0 else l0) in *.
  destruct (conditional_remove "out.txt" l1) as (S2 & _ & _).
  destruct (conditional_remove_NoDup "out.txt" l1 N1) as (_ & M2).
  set (l2 := if list_mem "out.txt" l1
             then list_remove "out.txt" l1 else l1) in *.
  assert (Hmem : forall y, In y l2 <-> In y remaining).
  { intros y. unfold remaining. rewrite kept_log_In, M2, M1.
    unfold l0. rewrite sorted_In. tauto. }
  assert (Hlast : l2 <> [] ->
                  In (List.last l2 EmptyString) remaining
                  /\ forall other, In other remaining ->
                                   str_le other (List.last l2 EmptyString)).
  { intros Hne.
    destruct (sorted_last_greatest l2 EmptyString (S2 (S1 S0)) Hne)
      as [Hl Hmax].
    split; [apply Hmem; exact Hl|].
    intros other Ho. apply Hmax. apply Hmem. exact Ho. }
  split; [|split].
  - intros Hr. destruct l2 as [|z l2']; [reflexivity|].
    exfalso. assert (Hz : In z remaining) by (apply Hmem; left; reflexivity).
    rewrite Hr in Hz. exact Hz.
  - intros Hr. exists (List.last l2 EmptyString). apply Hlast.
    intros Hl2. apply Hr.
    destruct remaining as [|z r]; [reflexivity|].
    exfalso. assert (Hz : In z l2) by (apply Hmem; left; reflexivity).
    rewrite Hl2 in Hz. exact Hz.
  - intros name Hin Hmax.
    assert (Hne : l2 <> []).
    { intros Hl2. apply Hmem in Hin. rewrite Hl2 in Hin. exact Hin. }
    destruct (Hlast Hne) as [Hl Hg].
    assert (Heq : List.last l2 EmptyString = name).
    { apply str_le_antisym; [apply Hmax; exact Hl|apply Hg; exact Hin]. }
    rewrite Heq.
    destruct l2 as [|z l2']; [congruence|].
    cbn [List.length Nat.eqb negb].
    destruct name as [|c rest]; [reflexivity|].
    cbv zeta.
    destruct (isfile fs ("neb_" +:+ String c EmptyString +:+ ".traj"));
      reflexivity.
Qed.

Lemma check_files_reads_greatest_name_witness :
  check_files (flat_dir ["0-log.txt"; "amp-log.txt"; "neb_0.traj"])
  = Ok (Some "neb_0.traj", Some "0").
Proof.
  refine (proj2 (proj2 (check_files_reads_greatest_name
                          (flat_dir ["0-log.txt"; "amp-log.txt";
                                     "neb_0.traj"]) _))
                "0-log.txt" _ _).
  - vm_compute. repeat constructor; simpl; intuition discriminate.
  - vm_compute. left. reflexivity.
  - intros other Ho. vm_compute in Ho.
    destruct Ho as [<-|[]]. reflexivity.
Defined.

(** ** More on [set.py] *)

Lemma string_app_assoc (a b c : string) : (a +:+ b) +:+ c = a +:+ (b +:+ c).
Proof.
  induction a as [|x a IH]; [reflexivity|].
  change (String x ((a +:+ b) +:+ c) = String x (a +:+ (b +:+ c))).
  now rewrite IH.
Qed.

Lemma py_in_prefix (sub p x : string) :
  String.prefix p x = true -> py_in sub p = true -> py_in sub x = true.
Proof.
  intros Hp Hs. apply prefix_spec in Hp. destruct Hp as [t ->].
  apply py_in_spec in Hs. destruct Hs as (pre & post & ->).
  apply py_in_spec. exists pre, (post +:+ t).
  now rewrite !string_app_assoc.
Qed.

(** X12: the test for [initial] reads the whole path of a model, not its
    file name: when the directory handed to [trained_calculations] has
    [initial] in its own name, every model is filtered out and the result
    is empty. *)
Theorem trained_calculations_initial_directory (fs : filesystem)
    (path : string) :
  (forall x, In x (glob_glob fs (path +:+ "/*.amp")) ->
             String.prefix path x = true) ->
  py_in "initial" path = true ->
  trained_calculations fs path = [].
Proof.
  intros Hglob Hp. unfold trained_calculations.
  assert (E : List.filter (fun element => negb (py_in "initial" element))
                          (glob_glob fs (path +:+ "/*.amp")) = []).
  { induction (glob_glob fs (path +:+ "/*.amp")) as [|x l IH];
      [reflexivity|].
    simpl. rewrite (py_in_prefix "initial" path x); simpl.
    - apply IH. intros y Hy. apply Hglob. right. exact Hy.
    - apply Hglob. left. reflexivity.
    - exact Hp. }
  rewrite E. reflexivity.
Qed.

Lemma trained_calculations_initial_directory_witness :
  glob_glob initial_runs ("initial_runs" +:+ "/*.amp")
  = ["initial_runs/7-untrained-parameters.amp"]
  /\ trained_calculations initial_runs "initial_runs" = [].
Proof.
  split; [reflexivity|].
  apply (trained_calculations_initial_directory initial_runs "initial_runs");
    [|reflexivity].
  intros x [<-|[]]. reflexivity.
Defined.

(** X13: [common_calculations] returns the names that are in both lists,
    each once, whatever the order and the repetitions of its arguments;
    exchanging the arguments gives the same names. *)
Theorem common_calculations_intersection (list1 list2 : list string) :
  (forall x, In x (common_calculations list1 list2)
             <-> In x list1 /\ In x list2)
  /\ NoDup (common_calculations list1 list2)
  /\ (list_to_set (common_calculations list1 list2) : gset string)
     = list_to_set (common_calculations list2 list1).
Proof.
  assert (H : forall l1 l2 x, In x (common_calculations l1 l2)
                              <-> In x l1 /\ In x l2).
  { intros l1 l2 x. unfold common_calculations.
    rewrite <- !list_elem_of_In, elem_of_elements, elem_of_intersection,
      !elem_of_list_to_set. reflexivity. }
  split; [apply H|]. split; [apply NoDup_elements|].
  apply set_eq. intros x.
  rewrite !elem_of_list_to_set, !list_elem_of_In, !H. tauto.
Qed.

(** ** Sizes [cross_validate] needs *)

(** X14: [cross_validate] returns only when the training set has at least
    two images and at least as many as the band; under [mae] the band must
    have two images or more, and the images written to
    [images_from_neb.traj] are as many as the band has. *)
Theorem cross_validate_needs_training_set (env : collaborators)
    (cfg : settings) (st : run_state) (w w' : files)
    (neb_images : list Atoms) (calc : option calculator)
    (amp_calc : calculator) (metric : string) (a : option (Q * Q)) :
  class_name amp_calc <> "GPAW" ->
  cross_validate env cfg st w neb_images calc amp_calc metric = Ok (w', a) ->
  (2 <= List.length (training_set st))%nat
  /\ (List.length neb_images <= List.length (training_set st))%nat
  /\ (metric <> "fmax" -> str_lower metric = "mae" ->
      (2 <= List.length neb_images)%nat
      /\ exists l, images_from_neb_traj w' = Some l
                   /\ List.length l = List.length neb_images).
Proof.
  intros Hamp H.
  destruct (cross_validate_anatomy _ _ _ _ _ _ _ _ _ _ Hamp H)
    as (first & interior & last & dft & _ & H1 & Hint & Hdft & Hifn & _ & _
        & Hmae & _).
  assert (Hlen : List.length interior = (List.length neb_images - 2)%nat).
  { destruct Hint as [[_ ->]|[_ (g & _ & ->)]];
      rewrite ?length_map; apply slice_1_m1_length. }
  assert (Hts : (S (List.length interior) < List.length (training_set st))%nat).
  { apply nth_error_Some. congruence. }
  split; [lia|]. split; [lia|].
  intros Hm Hl. destruct (Hmae Hm Hl) as (e & f & _ & He & _).
  apply mean_absolute_error_length in He. destruct He as [He _].
  unfold surrogate_values in He. rewrite !length_map in He.
  apply mapM_length in Hdft. rewrite He in Hdft.
  simpl in Hdft. rewrite length_app in Hdft. simpl in Hdft.
  split; [lia|].
  exists (map traj_write (first :: interior ++ [last])).
  split; [exact Hifn|].
  rewrite length_map. simpl. rewrite length_app. simpl. lia.
Qed.

Lemma cross_validate_needs_training_set_witness :
  exists w' a,
    cross_validate (toy_env (fun _ => amp_off)) (validation_settings "mae" None)
                   validation_state validation_files toy_images None amp_off
                   "mae" = Ok (w', a)
    /\ (2 <= List.length (training_set validation_state))%nat
    /\ (List.length toy_images <= List.length (training_set validation_state))%nat
    /\ ("mae" <> "fmax" -> str_lower "mae" = "mae" ->
        (2 <= List.length toy_images)%nat
        /\ exists l, images_from_neb_traj w' = Some l
                     /\ List.length l = List.length toy_images).
Proof.
  do 2 eexists. split; [vm_compute; reflexivity|].
  eapply (cross_validate_needs_training_set
            (toy_env (fun _ => amp_off)) (validation_settings "mae" None)
            validation_state validation_files _ toy_images None amp_off "mae");
    [vm_compute; discriminate | vm_compute; reflexivity].
Defined.

(** ** Runs that start from scratch *)

(** X15: in a run that starts from scratch (initialized, not yet
    trained) the exit for a missing [images_from_neb.traj] is never taken:
    the cross-validation of iteration 0 and that of every pass write the
    file before the next pass reads it. *)
Theorem fresh_run_never_misses_images (env : collaborators) (cfg : settings)
    (n : nat) (st : run_state) (w : files) :
  initialized st = true -> trained st = false ->
  forall st' w', accelerate env cfg n st w <> Exit st' w'.
Proof.
  intros Hi Ht st' w' H. unfold accelerate in H. rewrite Hi, Ht in H.
  simpl in H.
  destruct (bootstrap env cfg st w) as [[w1 st1]|e] eqn:B; [|discriminate].
  apply bootstrap_inv in B.
  destruct B as (_ & _ & _ & _ & _ & _ & (l & Hl) & _).
  set (P := fun (_ : run_state) (w : files) (_ : Q) =>
              exists l, images_from_neb_traj w = Some l).
  assert (Hstep : forall st w0 f st' w' f',
             P st w0 f -> loop_body env cfg st w0 f = Continue st' w' f' ->
             P st' w' f').
  { intros st0 w0 f0 st2 w2 f2 _ Hb.
    apply loop_body_continue in Hb.
    destruct Hb as (i0 & a & l' & wmid & _ & _ & _ & _ & _ & _ & _ & _ & _ & Hb).
    apply retrain_and_validate_inv in Hb.
    destruct Hb as (_ & _ & _ & _ & _ & _ & _ & Hb & _). exact Hb. }
  pose proof (accelerate_loop_invariant env cfg P Hstep n st1 w1 (ifmax cfg)
                (ex_intro _ l Hl)) as Hinv.
  rewrite H in Hinv. destruct Hinv as (st0 & w0 & f0 & (l0 & Hl0) & Hb).
  apply loop_body_exit in Hb. destruct Hb as (Hb & _). congruence.
Qed.

Lemma fresh_run_never_misses_images_witness :
  initialized initialized_state = true
  /\ forall st' w',
       accelerate (toy_env (fun _ => amp_pull))
                  (run_settings 200 (1 # 20) (1 # 5) (Some 2%Q)) 30
                  initialized_state run_files
       <> Exit st' w'.
Proof.
  split; [reflexivity|].
  apply (fresh_run_never_misses_images
           (toy_env (fun _ => amp_pull))
           (run_settings 200 (1 # 20) (1 # 5) (Some 2%Q)) 30
           initialized_state run_files); reflexivity.
Defined.

(** X16: a step of 0 is not refused when the object is built: a run from
    scratch trains the first model and runs the first band, and its first
    pass then stops on the division. *)
Theorem zero_step_raises_after_first_band (env : collaborators)
    (cfg : settings) (n : nat) (st : run_state) (w w1 : files)
    (st1 : run_state) :
  (get_step cfg == 0)%Q ->
  initialized st = true -> trained st = false ->
  bootstrap env cfg st w = Ok (w1, st1) ->
  accelerate env cfg (S n) st w = Raised ZeroDivisionError
  /\ optimizer_calls w1
     = optimizer_calls w ++ [("neb_0.traj", Some (ifmax cfg))]
  /\ exists model, amp_files w1 = ("0.amp", model) :: amp_files w.
Proof.
  intros Hs Hi Ht B. unfold accelerate. rewrite Hi, Ht, B. simpl andb.
  cbv iota. apply bootstrap_inv in B.
  destruct B as (B0 & _ & _ & Bc & _ & _ & _ & model & _ & Bm).
  split; [|split; [exact Bc|eauto]].
  cbn [accelerate_loop]. unfold loop_body, get_iteration. rewrite B0.
  apply Qeq_bool_iff in Hs. rewrite Hs. reflexivity.
Qed.

Lemma zero_step_raises_after_first_band_witness :
  exists w1 st1,
    bootstrap (toy_env (fun _ => amp_pull))
              (run_settings 200 (1 # 20) (1 # 5) (Some 0%Q))
              initialized_state run_files = Ok (w1, st1)
    /\ accelerate (toy_env (fun _ => amp_pull))
                  (run_settings 200 (1 # 20) (1 # 5) (Some 0%Q)) (S 4)
                  initialized_state run_files
       = Raised ZeroDivisionError
    /\ optimizer_calls w1
       = optimizer_calls run_files
         ++ [("neb_0.traj",
              Some (ifmax (run_settings 200 (1 # 20) (1 # 5) (Some 0%Q))))]
    /\ exists model, amp_files w1 = ("0.amp", model) :: amp_files run_files.
Proof.
  do 2 eexists. split; [vm_compute; reflexivity|].
  eapply (zero_step_raises_after_first_band
            (toy_env (fun _ => amp_pull))
            (run_settings 200 (1 # 20) (1 # 5) (Some 0%Q)) 4
            initialized_state run_files);
    [reflexivity | reflexivity | reflexivity | vm_compute; reflexivity].
Defined.

(** ** [set_calculators] and [get_fmax] *)

(** X17: what [set_calculators] hands back.  With a calculator that is
    not GPAW the images returned carry the calculator, and are the interior
    images only under [cross_validate]; with GPAW the images come back as
    they were given, all of them, and the results are in [calculator.traj]
    only, for the interior images under [cross_validate]. *)
Theorem set_calculators_returns (w w' : files) (images r : list Atoms)
    (c : calculator) (name : string) (lg wts cv : bool) :
  set_calculators w images (Some c) name lg wts cv = Ok (w', r) ->
  let evaluated := if cv then slice_1_m1 images else images in
  (name <> "GPAW" ->
   r = map (set_calculator c) evaluated
   /\ calculator_traj w'
      = Some (map traj_write (map (set_calculator c) evaluated)))
  /\ (name = "GPAW" ->
      r = images
      /\ exists g,
           gpaw_calc w = Some g
           /\ calculator_traj w'
              = Some (map (fun a => traj_write (set_calculator g a))
                          evaluated)
           /\ input_traj w' = Some (map traj_write evaluated)).
Proof.
  intros H evaluated. subst evaluated. split; intros Hn.
  - apply String.eqb_neq in Hn.
    unfold set_calculators, traj_read in H. rewrite Hn in H. simpl negb in H.
    cbv iota in H.
    destruct (if cv then slice_1_m1 images else images) as [|a l] eqn:Ei;
      destruct wts; destruct lg;
      destruct (training_traj w); simpl in H; inversion H; subst;
      simpl; auto.
  - subst name.
    unfold set_calculators, write_gpaw_file, run_gpaw, traj_read in H.
    simpl negb in H. cbv iota in H.
    assert (Hg : exists g, gpaw_calc w = Some g).
    { destruct (gpaw_calc w) as [g|] eqn:Eg; [eauto|].
      destruct wts; destruct (training_traj w); simpl in H;
        rewrite ?Eg in H; discriminate H. }
    destruct Hg as (g & Eg).
    destruct cv; destruct wts; destruct lg;
      destruct (training_traj w); simpl in H; rewrite ?Eg in H;
      simpl in H; rewrite ?Eg in H; simpl in H; inversion H; subst;
      (split; [reflexivity|]); exists g; simpl; auto.
Qed.

Lemma set_calculators_returns_witness :
  exists w' r,
    set_calculators validation_files toy_images (Some amp_off) "GPAW"
                    false false true = Ok (w', r)
    /\ ("GPAW" <> "GPAW" ->
        r = map (set_calculator amp_off) (slice_1_m1 toy_images)
        /\ calculator_traj w'
           = Some (map traj_write
                       (map (set_calculator amp_off) (slice_1_m1 toy_images))))
    /\ ("GPAW" = "GPAW" ->
        r = toy_images
        /\ exists g,
             gpaw_calc validation_files = Some g
             /\ calculator_traj w'
                = Some (map (fun a => traj_write (set_calculator g a))
                            (slice_1_m1 toy_images))
             /\ input_traj w' = Some (map traj_write (slice_1_m1 toy_images))).
Proof.
  do 2 eexists. split; [vm_compute; reflexivity|].
  eapply (set_calculators_returns validation_files _ toy_images _ amp_off
                                  "GPAW" false false true).
  vm_compute. reflexivity.
Defined.

Lemma fold_Qmaxb (l : list Q) (x : Q) :
  (fold_left Qmaxb l x = x \/ In (fold_left Qmaxb l x) l)
  /\ (x <= fold_left Qmaxb l x)%Q
  /\ forall q, In q l -> (q <= fold_left Qmaxb l x)%Q.
Proof.
  revert x. induction l as [|y l IH]; intros x; simpl.
  - split; [auto|]. split; [apply Qle_refl|]. intros q [].
  - destruct (IH (Qmaxb x y)) as (H1 & H2 & H3).
    assert (Hx : (x <= Qmaxb x y)%Q /\ (y <= Qmaxb x y)%Q
                 /\ (Qmaxb x y = x \/ Qmaxb x y = y)).
    { unfold Qmaxb. destruct (Qltb x y) eqn:E.
      - apply Qltb_lt in E. split; [apply Qlt_le_weak; exact E|].
        split; [apply Qle_refl|auto].
      - apply Qltb_ge in E. split; [apply Qle_refl|]. split; [exact E|auto]. }
    destruct Hx as (Hx & Hy & Hc).
    split; [|split].
    + destruct H1 as [H1|H1]; [|auto].
      destruct Hc as [Hc|Hc]; rewrite H1, Hc; auto.
    + eapply Qle_trans; eassumption.
    + intros q [<-|Hq]; [eapply Qle_trans; eassumption|auto].
Qed.

(** X18: [get_fmax] is [np.sqrt] of the greatest squared norm among the
    force rows of the band: the value is attained by a row and bounds every
    row.  It raises what the band raises, and [ValueError] when the band
    has no force row at all. *)
Theorem get_fmax_greatest_row (env : collaborators) (images : list Atoms) :
  match get_fmax env images with
  | Ok v =>
      exists forces row,
        neb_get_forces env images = Ok forces
        /\ In row forces
        /\ v = np_sqrt env (sq_norm row)
        /\ forall other, In other forces -> (sq_norm other <= sq_norm row)%Q
  | Raise e =>
      neb_get_forces env images = Raise e
      \/ (neb_get_forces env images = Ok [] /\ e = ValueError)
  end.
Proof.
  unfold get_fmax.
  destruct (neb_get_forces env images) as [forces|e]; cbn [bind]; [|auto].
  destruct forces as [|f0 forces]; cbn [map np_max bind]; [auto|].
  destruct (fold_Qmaxb (map sq_norm forces) (sq_norm f0)) as (H1 & H2 & H3).
  assert (Hrow : exists row,
             In row (f0 :: forces)
             /\ fold_left Qmaxb (map sq_norm forces) (sq_norm f0)
                = sq_norm row).
  { destruct H1 as [H1|H1].
    - exists f0. split; [left; reflexivity|exact H1].
    - apply in_map_iff in H1. destruct H1 as (row & Hr & Hin).
      exists row. split; [right; exact Hin|symmetry; exact Hr]. }
  destruct Hrow as (row & Hin & Hr).
  exists (f0 :: forces), row.
  split; [reflexivity|]. split; [exact Hin|].
  split; [now rewrite Hr|].
  intros other [<-|Ho]; rewrite <- Hr; [exact H2|].
  apply H3. apply in_map. exact Ho.
Qed.

(** ** [search.py] *)

Lemma ltb_true_le (a b : string) : String.ltb a b = true -> str_le a b.
Proof.
  unfold String.ltb, str_le, String.leb.
  destruct (String.compare a b); [discriminate|reflexivity|discriminate].
Qed.

Lemma ltb_false_le (a b : string) : String.ltb a b = false -> str_le b a.
Proof.
  unfold String.ltb, str_le, String.leb. intros H.
  rewrite (String.compare_antisym b a).
  destruct (String.compare a b); simpl; try reflexivity; discriminate H.
Qed.

Lemma fold_str_min (l : list string) (x : string) :
  let m := fold_left (fun m y => if String.ltb y m then y else m) l x in
  (m = x \/ In m l) /\ str_le m x /\ forall y, In y l -> str_le m y.
Proof.
  revert x. induction l as [|z l IH]; intros x; simpl.
  - split; [auto|]. split; [apply str_le_refl|]. intros y [].
  - destruct (IH (if String.ltb z x then z else x)) as (H1 & H2 & H3).
    destruct (String.ltb z x) eqn:E.
    + apply ltb_true_le in E. split; [destruct H1; auto|].
      split; [eapply str_le_trans; eassumption|].
      intros y [<-|Hy]; auto.
    + apply ltb_false_le in E. split; [destruct H1; auto|].
      split; [exact H2|].
      intros y [<-|Hy]; [eapply str_le_trans; eassumption|auto].
Qed.

Lemma fold_str_max (l : list string) (x : string) :
  let m := fold_left (fun m y => if String.ltb m y then y else m) l x in
  (m = x \/ In m l) /\ str_le x m /\ forall y, In y l -> str_le y m.
Proof.
  revert x. induction l as [|z l IH]; intros x; simpl.
  - split; [auto|]. split; [apply str_le_refl|]. intros y [].
  - destruct (IH (if String.ltb x z then z else x)) as (H1 & H2 & H3).
    destruct (String.ltb x z) eqn:E.
    + apply ltb_true_le in E. split; [destruct H1; auto|].
      split; [eapply str_le_trans; eassumption|].
      intros y [<-|Hy]; auto.
    + apply ltb_false_le in E. split; [destruct H1; auto|].
      split; [exact H2|].
      intros y [<-|Hy]; [eapply str_le_trans; eassumption|auto].
Qed.

Lemma str_min_spec (l : list string) (m : string) :
  str_min l = Ok m -> In m l /\ forall y, In y l -> str_le m y.
Proof.
  destruct l as [|x l]; simpl; [discriminate|].
  intros H. inversion H; subst m; clear H.
  destruct (fold_str_min l x) as (H1 & H2 & H3).
  split; [destruct H1 as [->|H1]; auto|].
  intros y [<-|Hy]; auto.
Qed.

Lemma str_max_spec (l : list string) (m : string) :
  str_max l = Ok m -> In m l /\ forall y, In y l -> str_le y m.
Proof.
  destruct l as [|x l]; simpl; [discriminate|].
  intros H. inversion H; subst m; clear H.
  destruct (fold_str_max l x) as (H1 & H2 & H3).
  split; [destruct H1 as [->|H1]; auto|].
  intros y [<-|Hy]; auto.
Qed.

Lemma first_holding_found (v : string) (metrics : list (string * string)) :
  In v (map snd metrics) ->
  exists e, first_holding v metrics = Some e
            /\ In e metrics /\ (fst e = v \/ snd e = v).
Proof.
  unfold first_holding. intros H.
  destruct (List.find _ metrics) as [e|] eqn:E.
  - exists e. apply find_some in E. destruct E as [Hin Hb].
    split; [reflexivity|]. split; [exact Hin|].
    apply orb_true_iff in Hb.
    destruct Hb as [Hb|Hb]; apply String.eqb_eq in Hb; auto.
  - exfalso. apply in_map_iff in H. destruct H as (e & He & Hin).
    pose proof (find_none _ _ E e Hin) as Hn. simpl in Hn.
    rewrite He, String.eqb_refl, orb_true_r in Hn. discriminate.
Qed.

(** X19: when the script gets to its end, it has collected at least one
    entry; the entry announced as the minimum error is the first that holds
    the least word, and the one announced as the maximum the first that
    holds the greatest, where words are compared as strings, character
    code by character code, and not as numbers. *)
Theorem search_announces_string_extremes (fs : filesystem)
    (readlines : string -> result (list string)) (args : search_args)
    (metrics : list (string * string))
    (least greatest : option (string * string)) :
  search fs readlines args = Ok (metrics, least, greatest) ->
  exists m M,
    In m (map snd metrics) /\ In M (map snd metrics)
    /\ (forall e, In e metrics -> str_le m (snd e) /\ str_le (snd e) M)
    /\ least = first_holding m metrics
    /\ greatest = first_holding M metrics
    /\ (exists e, least = Some e /\ In e metrics /\ (fst e = m \/ snd e = m))
    /\ (exists e, greatest = Some e /\ In e metrics
                  /\ (fst e = M \/ snd e = M)).
Proof.
  unfold search. intros H.
  bind_inv H as arrindex Ha. bind_inv H as ms Hs.
  bind_inv H as m Hm. bind_inv H as M HM.
  inversion H; subst metrics least greatest; clear H.
  apply str_min_spec in Hm. destruct Hm as [Hm1 Hm2].
  apply str_max_spec in HM. destruct HM as [HM1 HM2].
  exists m, M. repeat split; auto.
  - apply Hm2. apply in_map. assumption.
  - apply HM2. apply in_map. assumption.
  - destruct (first_holding_found m ms Hm1) as (e & He); eauto.
  - destruct (first_holding_found M ms HM1) as (e & He); eauto.
Qed.

Lemma search_announces_string_extremes_witness :
  exists metrics least greatest,
    search two_logs two_logs_lines energy_rmse = Ok (metrics, least, greatest)
    /\ map snd metrics = ["9.0e-05"; "1.0e-04"]
    /\ least = Some ("./b-log.txt", "1.0e-04")
    /\ exists m M,
         In m (map snd metrics) /\ In M (map snd metrics)
         /\ (forall e, In e metrics -> str_le m (snd e) /\ str_le (snd e) M)
         /\ least = first_holding m metrics
         /\ greatest = first_holding M metrics
         /\ (exists e, least = Some e /\ In e metrics
                       /\ (fst e = m \/ snd e = m))
         /\ (exists e, greatest = Some e /\ In e metrics
                       /\ (fst e = M \/ snd e = M)).
Proof.
  do 3 eexists. split; [vm_compute; reflexivity|].
  split; [reflexivity|]. split; [reflexivity|].
  eapply (search_announces_string_extremes two_logs two_logs_lines
                                           energy_rmse).
  vm_compute. reflexivity.
Defined.

Lemma py_getitem_in_range {A : Type} (l : list A) (i : Z) :
  (- Z.of_nat (List.length l) <= i < Z.of_nat (List.length l))%Z ->
  exists a, py_getitem l i = Ok a.
Proof.
  intros H. unfold py_getitem, py_index.
  destruct (0 <=? i)%Z eqn:E0.
  - apply Z.leb_le in E0.
    assert (E1 : (i <? Z.of_nat (List.length l))%Z = true)
      by (apply Z.ltb_lt; lia).
    rewrite E1. simpl.
    destruct (nth_error l (Z.to_nat i)) eqn:E; [eauto|].
    apply nth_error_None in E. lia.
  - apply Z.leb_gt in E0. simpl.
    assert (E1 : (- Z.of_nat (List.length l) <=? i)%Z = true)
      by (apply Z.leb_le; lia).
    assert (E2 : (i <? 0)%Z = true) by (apply Z.ltb_lt; lia).
    rewrite E1, E2. simpl.
    destruct (nth_error l (Z.to_nat (Z.of_nat (List.length l) + i))) eqn:E;
      [eauto|].
    apply nth_error_None in E. lia.
Qed.

(** With [arrindex] unbound, scanning a file fails on its first marked
    line and returns nothing otherwise. *)
Lemma scan_lines_unbound (element : string) (pre rest : list string) :
  scan_lines element (pre ++ rest) None (List.length pre) rest
  = if existsb (py_in "..optimization successful") rest
    then Raise (NameError "arrindex") else Ok [].
Proof.
  revert pre. induction rest as [|line rest IH]; intros pre; [reflexivity|].
  cbn [scan_lines existsb].
  destruct (py_in "..optimization successful" line) eqn:E; simpl.
  - destruct (py_getitem_in_range (pre ++ line :: rest)
                (Z.of_nat (List.length pre) - 1)) as [a Ha].
    { rewrite length_app. simpl. lia. }
    rewrite Ha. reflexivity.
  - specialize (IH (pre ++ [line])).
    rewrite <- app_assoc, length_app in IH. simpl in IH.
    rewrite Nat.add_1_r in IH. exact IH.
Qed.

Lemma scan_files_unbound (readlines : string -> result (list string))
    (listing : list string) :
  (forall p, In p listing -> exists f, readlines p = Ok f) ->
  (marked readlines listing /\
   scan_files readlines None listing = Raise (NameError "arrindex"))
  \/ (~ marked readlines listing /\
      scan_files readlines None listing = Ok []).
Proof.
  induction listing as [|p listing IH]; intros Hr.
  - right. split; [|reflexivity]. intros (p & f & line & [] & _).
  - destruct (Hr p (or_introl eq_refl)) as [f Hf].
    cbn [scan_files]. rewrite Hf. cbn [bind].
    pose proof (scan_lines_unbound p [] f) as Hs. simpl in Hs. rewrite Hs.
    destruct (existsb (py_in "..optimization successful") f) eqn:E.
    + left. split; [|reflexivity].
      apply existsb_exists in E. destruct E as (line & Hl & Hm).
      exists p, f, line. auto using in_eq.
    + cbn [bind].
      destruct IH as [[Hm ->]|[Hm ->]].
      * intros q Hq. apply Hr. right. exact Hq.
      * left. split; [|reflexivity].
        destruct Hm as (q & g & line & Hq & Hg & Hl & Hm).
        exists q, g, line. auto using in_cons.
      * right. split; [|reflexivity].
        intros (q & g & line & [<-|Hq] & Hg & Hl & Hmk).
        -- rewrite Hf in Hg. inversion Hg; subst g.
           assert (Ht : existsb (py_in "..optimization successful") f = true)
             by (apply existsb_exists; eauto).
           congruence.
        -- apply Hm. exists q, g, line. auto.
Qed.

(** X20: a quantity other than [forces] and [energy] is not refused when
    the arguments are read.  With every file of the listing readable, the
    script then stops on [NameError] for [arrindex] as soon as one line
    holds the marker, and on the [ValueError] of [min] when none does: it
    never gets to its end. *)
Theorem search_unknown_quantity (fs : filesystem)
    (readlines : string -> result (list string)) (args : search_args)
    (get : string) :
  arg_get args = Some get ->
  str_lower get <> "forces" -> str_lower get <> "energy" ->
  let listing :=
    glob_glob fs (match arg_directory args with
                  | Some d => d
                  | None => "."
                  end +:+ "/*.txt") in
  (forall p, In p listing -> exists f, readlines p = Ok f) ->
  (marked readlines listing /\
   search fs readlines args = Raise (NameError "arrindex"))
  \/ (~ marked readlines listing /\
      search fs readlines args = Raise ValueError).
Proof.
  intros Hg Hf He listing Hr. unfold search, choose_arrindex, arg_lower.
  rewrite Hg. cbn [bind].
  apply String.eqb_neq in Hf. apply String.eqb_neq in He. rewrite Hf, He.
  cbn [bind]. fold listing.
  destruct (scan_files_unbound readlines listing Hr) as [[Hm ->]|[Hm ->]].
  - left. auto.
  - right. auto.
Qed.

Lemma search_unknown_quantity_witness :
  (marked two_logs_lines (glob_glob two_logs ("." +:+ "/*.txt")) /\
   search two_logs two_logs_lines
          {| arg_metric := Some "rmse"; arg_get := Some "stress";
             arg_directory := None |}
   = Raise (NameError "arrindex"))
  \/ (~ marked two_logs_lines (glob_glob two_logs ("." +:+ "/*.txt")) /\
      search two_logs two_logs_lines
             {| arg_metric := Some "rmse"; arg_get := Some "stress";
                arg_directory := None |}
      = Raise ValueError).
Proof.
  apply (search_unknown_quantity two_logs two_logs_lines
           {| arg_metric := Some "rmse"; arg_get := Some "stress";
              arg_directory := None |} "stress");
    [reflexivity | vm_compute; discriminate | vm_compute; discriminate |].
  intros p [<-|[<-|[]]]; eexists; vm_compute; reflexivity.
Defined.

Lemma nth_error_last {A : Type} (a d : A) (l : list A) :
  nth_error (a :: l) (List.length l) = Some (List.last (a :: l) d).
Proof.
  revert a. induction l as [|b l IH]; intros a; [reflexivity|].
  change (List.last (a :: b :: l) d) with (List.last (b :: l) d).
  simpl nth_error. apply IH.
Qed.

Lemma py_getitem_minus_one {A : Type} (a d : A) (l : list A) :
  py_getitem (a :: l) (-1) = Ok (List.last (a :: l) d).
Proof.
  unfold py_getitem, py_index.
  assert (E1 : (- Z.of_nat (List.length (a :: l)) <=? -1)%Z = true).
  { apply Z.leb_le. simpl List.length. lia. }
  rewrite E1. simpl andb.
  replace (Z.to_nat (Z.of_nat (List.length (a :: l)) + -1))
    with (List.length l) by (simpl List.length; lia).
  rewrite (nth_error_last a d l). reflexivity.
Qed.

(** X21: the line read for a marked line is the one before it, and the
    index wraps: when the first line of a file holds the marker, the word
    is taken from the last line of the file. *)
Theorem scan_first_line_reads_last_line (element line0 : string)
    (rest : list string) (i : Z) (entries : list (string * string)) :
  py_in "..optimization successful" line0 = true ->
  scan_lines element (line0 :: rest) (Some i) 0 (line0 :: rest) = Ok entries ->
  exists word more,
    entries = (element, word) :: more
    /\ py_getitem (str_split (List.last (line0 :: rest) line0)) i = Ok word.
Proof.
  intros Hm H. cbn [scan_lines] in H. rewrite Hm in H.
  change (Z.of_nat 0 - 1)%Z with (-1)%Z in H.
  rewrite (py_getitem_minus_one line0 line0 rest) in H. cbn [bind] in H.
  bind_inv H as word Hw. bind_inv H as more Hmore.
  inversion H; subst entries. eauto.
Qed.

Lemma scan_first_line_reads_last_line_witness :
  exists entries word more,
    scan_lines "run.txt"
               ["..optimization successful"; "a b c"; "x y z"] (Some 1%Z) 0
               ["..optimization successful"; "a b c"; "x y z"]
    = Ok entries
    /\ word = "y"
    /\ entries = ("run.txt", word) :: more
    /\ py_getitem
         (str_split
            (List.last ["..optimization successful"; "a b c"; "x y z"]
                       "..optimization successful")) 1
       = Ok word.
Proof.
  assert (H : exists entries,
             scan_lines "run.txt"
               ["..optimization successful"; "a b c"; "x y z"] (Some 1%Z) 0
               ["..optimization successful"; "a b c"; "x y z"]
             = Ok entries /\ map snd entries = ["y"]).
  { eexists. split; vm_compute; reflexivity. }
  destruct H as (entries & H & Hy).
  destruct (scan_first_line_reads_last_line
              "run.txt" "..optimization successful" ["a b c"; "x y z"] 1
              entries)
    as (word & more & He & Hw); [vm_compute; reflexivity | exact H |].
  exists entries, word, more. split; [exact H|].
  split; [|split; [exact He|exact Hw]].
  rewrite He in Hy. simpl in Hy. inversion Hy. reflexivity.
Defined.


